(** * heif2jpeg: the conversion engine of [hif2jpegUI.py]

  A shallow embedding of the business logic of the HEIF to JPEG converter:
  - [PyStr]      the [str] methods the program calls;
  - [PosixPath]  the [os.path] functions the program calls (POSIX flavour);
  - [Clock]      [datetime.now().strftime("%Y%m%d_%H%M%S")];
  - [PIL]        the part of Pillow's [Image] interface the program uses;
  - [Converter]  [ImageConverter.find_heif_files] and
                 [ImageConverter.convert_image];
  - [App]        [HEIFtoJPEGConverterApp.start_conversion],
                 [cancel_conversion], [conversion_thread],
                 [update_progress] and [conversion_complete], as a
                 transition system over the futures of the thread pool
                 and the callbacks handed to the main loop;
  - [SpecWords]  the notions the specification uses in its own words;
  - [FileList]   [format_file_size], [process_selected_files],
                 [refresh_file_list], [preview_selected] and
                 [remove_selected] over the file list and the rows of
                 the tree.

  Definitions come first, module by module; the theorems follow in
  modules of their own at the end of the file. *)

From Stdlib Require Import String Ascii ZArith List Bool Lia.
From stdpp Require Import gmap strings list.
Import ListNotations.
Open Scope string_scope.

(* ===================================================================== *)
(** ** Python [str] methods *)
(* ===================================================================== *)

Module PyStr.

(** [s.startswith(p)] *)
Definition startswith (s p : string) : bool := String.prefix p s.

(** [s[i:]] for [0 <= i] *)
Fixpoint slice_from (i : nat) (s : string) : string :=
  match i, s with
  | O, _ => s
  | S _, EmptyString => EmptyString
  | S i', String _ s' => slice_from i' s'
  end.

(** [s[:i]] for [0 <= i] *)
Fixpoint slice_to (i : nat) (s : string) : string :=
  match i, s with
  | O, _ => EmptyString
  | S _, EmptyString => EmptyString
  | S i', String c s' => String c (slice_to i' s')
  end.

(** [s.endswith(p)] *)
Definition endswith (s p : string) : bool :=
  (String.length p <=? String.length s)%nat
  && String.eqb (slice_from (String.length s - String.length p) s) p.

(** [s.rfind(c)] for a one-character [c]: the highest index, or [-1]. *)
Fixpoint rfind_from (c : ascii) (s : string) (pos : Z) (best : Z) : Z :=
  match s with
  | EmptyString => best
  | String d s' =>
      rfind_from c s' (pos + 1) (if Ascii.eqb c d then pos else best)
  end.

Definition rfind (c : ascii) (s : string) : Z := rfind_from c s 0 (-1).

(** [s.rstrip(c)] for a one-character [c]. *)
Fixpoint rstrip (c : ascii) (s : string) : string :=
  match s with
  | EmptyString => EmptyString
  | String d s' =>
      match rstrip c s' with
      | EmptyString => if Ascii.eqb c d then EmptyString else String d EmptyString
      | r => String d r
      end
  end.

(** [s == c * len(s)] *)
Fixpoint all_char (c : ascii) (s : string) : bool :=
  match s with
  | EmptyString => true
  | String d s' => Ascii.eqb c d && all_char c s'
  end.

(** [s.split(c)] for a one-character separator. *)
Fixpoint split (c : ascii) (s : string) : list string :=
  match s with
  | EmptyString => [EmptyString]
  | String d s' =>
      if Ascii.eqb c d then EmptyString :: split c s'
      else match split c s' with
           | [] => [String d EmptyString]
           | w :: ws => String d w :: ws
           end
  end.

(** [sep.join(parts)] *)
Fixpoint join (sep : string) (parts : list string) : string :=
  match parts with
  | [] => EmptyString
  | [p] => p
  | p :: ps => p ++ sep ++ join sep ps
  end.

(** [s.replace(old, new)]: every non-overlapping occurrence of [old],
    scanning from the left.  [skip] counts the characters of a matched
    occurrence that are still to be dropped. *)
Fixpoint replace_scan (old new : string) (skip : nat) (s : string) : string :=
  match s with
  | EmptyString => EmptyString
  | String c s' =>
      match skip with
      | S k => replace_scan old new k s'
      | O =>
          if String.prefix old s
          then new ++ replace_scan old new (String.length old - 1) s'
          else String c (replace_scan old new 0 s')
      end
  end.

(** With an empty [old], Python inserts [new] before every character and
    at the end. *)
Fixpoint intersperse_all (new : string) (s : string) : string :=
  match s with
  | EmptyString => new
  | String c s' => new ++ String c (intersperse_all new s')
  end.

Definition replace (s old new : string) : string :=
  match old with
  | EmptyString => intersperse_all new s
  | _ => replace_scan old new 0 s
  end.

Definition digit (n : nat) : ascii := ascii_of_nat (48 + n mod 10).

(** Decimal digits of [n], most significant first, in front of [acc]. *)
Fixpoint dec_digits (fuel n : nat) (acc : string) : string :=
  match fuel with
  | O => acc
  | S fuel' =>
      let acc' := String (digit n) acc in
      if (n / 10 =? 0)%nat then acc' else dec_digits fuel' (n / 10) acc'
  end.

(** [str(n)] for a natural number, as an f-string prints it. *)
Definition of_nat (n : nat) : string := dec_digits (S n) n EmptyString.

(** Truth value of a [str]: the empty string is false. *)
Definition truthy (s : string) : bool :=
  match s with EmptyString => false | _ => true end.

End PyStr.

(* ===================================================================== *)
(** ** [os.path] on POSIX ([posixpath]) *)
(* ===================================================================== *)

Module PosixPath.

Definition sep : ascii := "/"%char.
Definition sep_s : string := "/".

(** [os.path.isabs] *)
Definition isabs (s : string) : bool := PyStr.startswith s sep_s.

(** [os.path.join(a, b)] *)
Definition join (a b : string) : string :=
  if PyStr.startswith b sep_s then b
  else if negb (PyStr.truthy a) || PyStr.endswith a sep_s then a ++ b
  else a ++ sep_s ++ b.

(** [os.path.join] applied to a whole non-empty list of parts *)
Definition join_list (parts : list string) : string :=
  match parts with
  | [] => EmptyString
  | a :: ps => fold_left join ps a
  end.

(** [os.path.basename]: [i = p.rfind(sep) + 1; return p[i:]] *)
Definition basename (p : string) : string :=
  let i := (PyStr.rfind sep p + 1)%Z in
  PyStr.slice_from (Z.to_nat i) p.

(** [os.path.dirname] *)
Definition dirname (p : string) : string :=
  let i := (PyStr.rfind sep p + 1)%Z in
  let head := PyStr.slice_to (Z.to_nat i) p in
  if PyStr.truthy head && negb (PyStr.all_char sep head)
  then PyStr.rstrip sep head
  else head.

(** [genericpath._splitext]: the loop that skips leading dots. *)
Fixpoint skip_dots (fuel : nat) (p : string) (filenameIndex dotIndex : Z)
  : string * string :=
  match fuel with
  | O => (p, EmptyString)
  | S fuel' =>
      if (filenameIndex <? dotIndex)%Z then
        if negb (String.eqb (String.substring (Z.to_nat filenameIndex) 1 p) ".")
        then (PyStr.slice_to (Z.to_nat dotIndex) p,
              PyStr.slice_from (Z.to_nat dotIndex) p)
        else skip_dots fuel' p (filenameIndex + 1)%Z dotIndex
      else (p, EmptyString)
  end.

(** [os.path.splitext] *)
Definition splitext (p : string) : string * string :=
  let sepIndex := PyStr.rfind sep p in
  let dotIndex := PyStr.rfind "."%char p in
  if (sepIndex <? dotIndex)%Z
  then skip_dots (S (String.length p)) p (sepIndex + 1)%Z dotIndex
  else (p, EmptyString).

(** [os.path.normpath]: the loop over the components. *)
Definition norm_step (initial_slashes : nat) (new_comps : list string)
           (comp : string) : list string :=
  if String.eqb comp "" || String.eqb comp "." then new_comps
  else if negb (String.eqb comp "..")
          || (Nat.eqb initial_slashes 0 && Nat.eqb (List.length new_comps) 0)
          || (match last new_comps with
              | Some l => String.eqb l ".."
              | None => false
              end)
       then new_comps ++ [comp]
       else removelast new_comps.

Definition normpath (path : string) : string :=
  if String.eqb path "" then "."
  else
    let initial_slashes :=
      if PyStr.startswith path "/" then
        if PyStr.startswith path "//" && negb (PyStr.startswith path "///")
        then 2%nat else 1%nat
      else 0%nat in
    let comps := fold_left (norm_step initial_slashes) (PyStr.split sep path) [] in
    let body := PyStr.join sep_s comps in
    let res := match initial_slashes with
               | 0%nat => body
               | 1%nat => "/" ++ body
               | _ => "//" ++ body
               end in
    if PyStr.truthy res then res else ".".

(** [os.path.abspath], with [os.getcwd()] passed in. *)
Definition abspath (cwd path : string) : string :=
  normpath (if isabs path then path else join cwd path).

(** [len(os.path.commonprefix([a, b]))] on lists of components. *)
Fixpoint common_len (a b : list string) : nat :=
  match a, b with
  | x :: a', y :: b' => if String.eqb x y then S (common_len a' b') else 0%nat
  | _, _ => 0%nat
  end.

Definition components (p : string) : list string :=
  filter (fun x => PyStr.truthy x = true) (PyStr.split sep p).

(** [os.path.relpath(path, start)]; [None] stands for the
    [ValueError("no path specified")] of an empty [path]. *)
Definition relpath (cwd path start : string) : option string :=
  if negb (PyStr.truthy path) then None
  else
    let start_list := components (abspath cwd start) in
    let path_list := components (abspath cwd path) in
    let i := common_len start_list path_list in
    let rel_list := (repeat ".." (List.length start_list - i) ++ skipn i path_list)%list in
    match rel_list with
    | [] => Some "."
    | _ => Some (join_list rel_list)
    end.

End PosixPath.

(* ===================================================================== *)
(** ** [datetime.now()] and [strftime] *)
(* ===================================================================== *)

Module Clock.

Record datetime := mk_datetime {
  year : nat; month : nat; day : nat;
  hour : nat; minute : nat; second : nat
}.

Fixpoint zeros (k : nat) : string :=
  match k with O => EmptyString | S k' => String "0"%char (zeros k') end.

(** A number zero-padded to [width] digits, as [%m], [%d], [%H], [%M],
    [%S] (width 2) and [%Y] (width 4) print it. *)
Definition padded (width n : nat) : string :=
  let ds := PyStr.of_nat n in
  zeros (width - String.length ds) ++ ds.

(** [t.strftime("%Y%m%d_%H%M%S")] *)
Definition strftime_Ymd_HMS (t : datetime) : string :=
  padded 4 (year t) ++ padded 2 (month t) ++ padded 2 (day t) ++ "_" ++
  padded 2 (hour t) ++ padded 2 (minute t) ++ padded 2 (second t).

(** The ranges the [datetime] class guarantees for its fields, from the
    year 1000 on (four-digit years). *)
Definition four_digit_era (t : datetime) : Prop :=
  (10 * 100 <= year t < 100 * 100 /\ 1 <= month t <= 12 /\ 1 <= day t <= 31 /\
   hour t <= 23 /\ minute t <= 59 /\ second t <= 59)%nat.

End Clock.

(* ===================================================================== *)
(** ** Exceptions and results *)
(* ===================================================================== *)

Module Py.

(** The exception classes the modelled operations raise.  All of them
    derive from [Exception], so [except Exception] catches each one. *)
Inductive ExnClass :=
| FileNotFoundError | FileExistsError | NotADirectoryError
| IsADirectoryError | PermissionError | UnidentifiedImageError
| OSError | IndexError | ValueError.

Record Exn := mk_exn { exn_class : ExnClass; exn_msg : string }.

(** [str(e)] *)
Definition str (e : Exn) : string := exn_msg e.

Inductive Result (A : Type) :=
| Return (a : A)
| Raise (e : Exn).
Arguments Return {A} a.
Arguments Raise {A} e.

(** [repr] of a path inside an [OSError] message (no escapes needed for
    the paths considered). *)
Definition quoted (p : string) : string := "'" ++ p ++ "'".

Definition os_error (c : ExnClass) (errno_text path : string) : Exn :=
  mk_exn c (errno_text ++ ": " ++ quoted path).

End Py.

(* ===================================================================== *)
(** ** Pillow images *)
(* ===================================================================== *)

Module PIL.
Import Py.

(** One band of 8-bit samples, row by row. *)
Definition band := list Z.

(** Pixel data by mode, for the 8-bit modes the registered HEIF opener
    yields: ["L"], ["LA"], ["RGB"], ["RGBA"]. *)
Inductive planes :=
| PL (l : band)
| PLA (l a : band)
| PRGB (r g b : band)
| PRGBA (r g b a : band).

Inductive mode_t := L | LA | RGB | RGBA.

(** [Image.Exif]: a mapping from tag to value; empty means false. *)
Definition Exif := list (Z * string).

(** An [Image] object as [Image.open] returns it: the header is read, the
    pixel data is decoded lazily by [load()], which the processing
    methods call, and [getexif()] parses the metadata on demand. *)
Record Image := mk_image {
  im_planes : planes;
  im_size : nat * nat;
  im_load_error : option Exn;
  im_exif : Result Exif
}.

Definition mode_of (p : planes) : mode_t :=
  match p with
  | PL _ => L | PLA _ _ => LA | PRGB _ _ _ => RGB | PRGBA _ _ _ _ => RGBA
  end.

(** [im.mode] *)
Definition mode (im : Image) : mode_t := mode_of (im_planes im).

(** [im.mode in ('RGBA', 'LA')] *)
Definition mode_in_RGBA_LA (m : mode_t) : bool :=
  match m with RGBA | LA => true | _ => false end.

(** Whether the mode carries an alpha band. *)
Definition has_alpha (m : mode_t) : bool :=
  match m with RGBA | LA => true | _ => false end.

(** [im.load()] *)
Definition load (im : Image) : Result planes :=
  match im_load_error im with
  | Some e => Raise e
  | None => Return (im_planes im)
  end.

(** [im.getexif()] *)
Definition getexif (im : Image) : Result Exif := im_exif im.

(** [im.split()]: one single-band image per band of the mode. *)
Definition split (im : Image) : Result (list band) :=
  match load im with
  | Raise e => Raise e
  | Return p =>
      Return (match p with
              | PL l => [l]
              | PLA l a => [l; a]
              | PRGB r g b => [r; g; b]
              | PRGBA r g b a => [r; g; b; a]
              end)
  end.

(** [t[i]] on a tuple *)
Definition tuple_index {A} (t : list A) (i : nat) : Result A :=
  match nth_error t i with
  | Some x => Return x
  | None => Raise (mk_exn IndexError "tuple index out of range")
  end.

(** [Image.new('RGB', size, (255, 255, 255))] *)
Definition new_RGB_white (size : nat * nat) : planes :=
  let n := (fst size * snd size)%nat in
  PRGB (repeat 255%Z n) (repeat 255%Z n) (repeat 255%Z n).

(** The pixel data of [im.convert('RGB')]: grey is replicated, alpha is
    dropped. *)
Definition to_RGB (p : planes) : planes :=
  match p with
  | PL l => PRGB l l l
  | PLA l _ => PRGB l l l
  | PRGB r g b => PRGB r g b
  | PRGBA r g b _ => PRGB r g b
  end.

(** [im.convert('RGB')] *)
Definition convert_RGB (im : Image) : Result planes :=
  match load im with
  | Raise e => Raise e
  | Return p => Return (to_RGB p)
  end.

(** Pillow's [BLEND8(mask, in1, in2)]:
    [DIV255(in1 * (255 - mask) + in2 * mask)]. *)
Definition blend8 (mask in1 in2 : Z) : Z :=
  let t := (in1 * (255 - mask) + in2 * mask + 128)%Z in
  Z.shiftr (Z.shiftr t 8 + t) 8.

Fixpoint blend_band (mask dst src : band) : band :=
  match mask, dst, src with
  | m :: mask', d :: dst', s :: src' => blend8 m d s :: blend_band mask' dst' src'
  | _, _, _ => dst
  end.

(** [background.paste(im, mask=mask)] on an RGB [background] of the size
    of [im]: [im] is converted to the mode of the background and blended
    in under the mask. *)
Definition paste (background : planes) (im : Image) (mask : band)
  : Result planes :=
  match convert_RGB im with
  | Raise e => Raise e
  | Return src =>
      match background, src with
      | PRGB r g b, PRGB r' g' b' =>
          Return (PRGB (blend_band mask r r') (blend_band mask g g')
                       (blend_band mask b b'))
      | _, _ => Return background
      end
  end.

End PIL.

(* ===================================================================== *)
(** ** [class ImageConverter] *)
(* ===================================================================== *)

Module Converter.
Import Py PIL.

(** *** The world the converter runs in *)

(** What lies at a path: a source picture as [Image.open] finds it (or
    the exception it raises there), or a JPEG the converter has saved. *)
Inductive DiskFile :=
| Source (opened : Result Image)
| Jpeg (pixels : planes) (size : nat * nat) (quality : Z) (exif : option Exif).

Inductive LogLevel := INFO | WARNING | ERROR.

(** Directories and files are keyed by their normalised absolute path
    (no symbolic links); [readonly] holds the directories in which no
    entry may be created. *)
Record World := mk_world {
  cwd : string;
  dirs : gset string;
  files : gmap string DiskFile;
  readonly : gset string;
  now : Clock.datetime;
  log : list (LogLevel * string)
}.

(** *** State and exceptions *)

Definition M (A : Type) : Type := World -> Result A * World.

Definition ret {A} (a : A) : M A := fun w => (Return a, w).
Definition raise {A} (e : Exn) : M A := fun w => (Raise e, w).
Definition bind {A B} (m : M A) (k : A -> M B) : M B :=
  fun w => match m w with
           | (Return a, w') => k a w'
           | (Raise e, w') => (Raise e, w')
           end.
(** [try: m  except Exception as e: h e] *)
Definition try_except {A} (m : M A) (h : Exn -> M A) : M A :=
  fun w => match m w with
           | (Return a, w') => (Return a, w')
           | (Raise e, w') => h e w'
           end.
Definition lift {A} (r : Result A) : M A := fun w => (r, w).
Definition get_world : M World := fun w => (Return w, w).

Notation "'do' x <- m ; k" := (bind m (fun x => k))
  (at level 10, x name, m at level 100, k at level 200).
Notation "'perform' m ; k" := (bind m (fun _ => k))
  (at level 10, m at level 100, k at level 200).

(** [logger.warning(msg)], [logger.error(msg)], [logger.info(msg)].  The
    handlers of lines 19-26 send each line to the file
    [heif_converter.log] and to the console; [log] holds these lines in
    order.  The log file is kept apart from [files], which holds the
    image files only, and writing a line is taken never to fail or to
    wait. *)
Definition logger (lvl : LogLevel) (msg : string) : M unit :=
  fun w => (Return tt,
            mk_world (cwd w) (dirs w) (files w) (readonly w) (now w)
                     (log w ++ [(lvl, msg)])).

(** *** The operating system *)

Definition key (w : World) (p : string) : string := PosixPath.abspath (cwd w) p.

Definition is_dir_key (w : World) (q : string) : bool :=
  String.eqb q "/" || bool_decide (q ∈ dirs w).

(** [os.path.isdir]; the empty path names nothing. *)
Definition isdir (w : World) (p : string) : bool :=
  PyStr.truthy p && is_dir_key w (key w p).

(** [os.path.exists] *)
Definition exists_ (w : World) (p : string) : bool :=
  PyStr.truthy p
  && (is_dir_key w (key w p) || bool_decide (is_Some (files w !! key w p))).

Definition no_such_file (path : string) : Exn :=
  os_error FileNotFoundError "[Errno 2] No such file or directory" path.

(** The chain of directories leading to a normalised absolute path:
    ["/a"; "/a/b"; "/a/b/c"] for ["/a/b/c"]. *)
Fixpoint chain (prefix : string) (comps : list string) : list string :=
  match comps with
  | [] => []
  | c :: cs => let p := prefix ++ "/" ++ c in p :: chain p cs
  end.

Definition ancestors (q : string) : list string :=
  chain "" (PosixPath.components q).

(** One [mkdir] of [os.makedirs(name, exist_ok=True)], for the directory
    [q] of the chain; [leaf] tells the last one. *)
Definition mkdir_step (name : string) (leaf : string) (q : string) : M unit :=
  fun w =>
    if is_dir_key w q then (Return tt, w)
    else if bool_decide (is_Some (files w !! q)) then
      (Raise (if String.eqb q leaf
              then os_error FileExistsError "[Errno 17] File exists" name
              else os_error NotADirectoryError "[Errno 20] Not a directory" name), w)
    else if bool_decide (PosixPath.dirname q ∈ readonly w) then
      (Raise (os_error PermissionError "[Errno 13] Permission denied" q), w)
    else
      (Return tt,
       mk_world (cwd w) ({[ q ]} ∪ dirs w) (files w) (readonly w) (now w) (log w)).

Fixpoint mkdir_chain (name leaf : string) (qs : list string) : M unit :=
  match qs with
  | [] => ret tt
  | q :: qs' => perform mkdir_step name leaf q; mkdir_chain name leaf qs'
  end.

(** [os.makedirs(name, exist_ok=True)], on the normalised absolute form
    of [name]: for a path with [..] in it, [os.makedirs] would also
    create the directories that [..] steps back from, which is outside
    this model. *)
Definition makedirs_exist_ok (name : string) : M unit :=
  fun w =>
    if negb (PyStr.truthy name) then (Raise (no_such_file name), w)
    else let q := key w name in mkdir_chain name q (ancestors q) w.

(** [os.makedirs(name)]: as above, but an existing leaf is an error. *)
Definition makedirs (name : string) : M unit :=
  fun w =>
    if isdir w name
    then (Raise (os_error FileExistsError "[Errno 17] File exists" name), w)
    else makedirs_exist_ok name w.

(** [Image.open(path)] *)
Definition Image_open (path : string) : M Image :=
  fun w =>
    match (if PyStr.truthy path then files w !! key w path else None) with
    | Some (Source r) => (r, w)
    | Some (Jpeg px sz q ex) =>
        (Return (mk_image px sz None
                          (Return (match ex with Some e => e | None => [] end))), w)
    | None =>
        if isdir w path
        then (Raise (os_error IsADirectoryError "[Errno 21] Is a directory" path), w)
        else (Raise (no_such_file path), w)
    end.

(** [final_image.save(path, 'JPEG', quality=quality, exif=exif)] for an
    RGB image held in memory.  The errors are those of opening the
    target for writing, which leave the disk as it is; the encoder is
    taken to succeed once the target is open, so a save that fails
    half-way and leaves an emptied file is outside this model. *)
Definition save_JPEG (pixels : planes) (size : nat * nat) (path : string)
           (quality : Z) (exif : option Exif) : M unit :=
  fun w =>
    let q := key w path in
    if is_dir_key w q then
      (Raise (os_error IsADirectoryError "[Errno 21] Is a directory" path), w)
    else if negb (is_dir_key w (PosixPath.dirname q)) then
      (Raise (no_such_file path), w)
    else if bool_decide (PosixPath.dirname q ∈ readonly w) then
      (Raise (os_error PermissionError "[Errno 13] Permission denied" path), w)
    else
      (Return tt,
       mk_world (cwd w) (dirs w) (<[ q := Jpeg pixels size quality exif ]> (files w))
                (readonly w) (now w) (log w)).

(** *** [ImageConverter.find_heif_files] *)

(** The content of a directory: plain files and subdirectories. *)
#[local] Set Warnings "-register-all".
Inductive DirEntry :=
| FileEntry (name : string)
| SubDir (name : string) (children : list DirEntry).

Definition entry_name (e : DirEntry) : string :=
  match e with FileEntry n => n | SubDir n _ => n end.

(** [fnmatch.fnmatchcase(name, pat)] for patterns made of literal
    characters, [*] and [?]; on POSIX [os.path.normcase] is the identity,
    so [fnmatch.filter] compares case-sensitively. *)
Fixpoint fnmatchcase (pat name : string) : bool :=
  match pat with
  | EmptyString => match name with EmptyString => true | _ => false end
  | String c pat' =>
      if Ascii.eqb c "*" then
        (fix star (n : string) : bool :=
           fnmatchcase pat' n
           || match n with
              | EmptyString => false
              | String _ n' => star n'
              end) name
      else
        match name with
        | EmptyString => false
        | String d name' =>
            (Ascii.eqb c "?" || Ascii.eqb c d) && fnmatchcase pat' name'
        end
  end.

(** [glob._ishidden] *)
Definition ishidden (name : string) : bool := PyStr.startswith name ".".

(** [glob.glob(os.path.join(root, pat))] for a directory [root] whose own
    name holds no glob metacharacter and whose entries are [listing]:
    the names that are not hidden and match, joined to [root]. *)
Definition glob_in (root : string) (listing : list DirEntry) (pat : string)
  : list string :=
  let names := map entry_name listing in
  let names := if ishidden pat then names
               else filter (fun x => ishidden x = false) names in
  map (PosixPath.join root)
      (filter (fun x => fnmatchcase pat x = true) names).

Definition extensions : list string :=
  ["*.heif"; "*.heic"; "*.hif"; "*.HEIF"; "*.HEIC"; "*.HIF"].

(** [for ext in extensions: heif_files.extend(glob.glob(join(root, ext)))] *)
Definition glob_extensions (root : string) (listing : list DirEntry)
  : list string :=
  flat_map (glob_in root listing) extensions.

(** [os.walk(directory)], top-down: the directory itself, then each of
    its subdirectories in turn, with the listing of each; for the empty
    path [os.scandir] fails and nothing is yielded. *)
Fixpoint walk_entry (root : string) (e : DirEntry)
  : list (string * list DirEntry) :=
  match e with
  | FileEntry _ => []
  | SubDir n children =>
      let sub := PosixPath.join root n in
      (sub, children) :: flat_map (walk_entry sub) children
  end.

Definition walk (directory : string) (listing : list DirEntry)
  : list (string * list DirEntry) :=
  if PyStr.truthy directory
  then (directory, listing) :: flat_map (walk_entry directory) listing
  else [].

Definition find_heif_files (directory : string) (listing : list DirEntry)
           (include_subdirs : bool) : list string :=
  if include_subdirs then
    flat_map (fun '(root, ls) => glob_extensions root ls)
             (walk directory listing)
  else
    glob_extensions directory listing.

(** *** [ImageConverter.convert_image] *)

(** Lines 84-91: the output directory. *)
Definition resolve_output_dir (heif_path output_dir : string)
           (preserve_structure : bool) : M string :=
  if preserve_structure && PosixPath.isabs heif_path then
    let rel_path := PosixPath.dirname heif_path in
    if negb (PyStr.startswith rel_path output_dir) then
      do w <- get_world;
      match PosixPath.relpath (cwd w) (PosixPath.dirname heif_path)
                              (PosixPath.dirname output_dir) with
      | None => raise (mk_exn ValueError "no path specified")
      | Some rel_path =>
          let new_output_dir := PosixPath.join output_dir rel_path in
          perform makedirs_exist_ok new_output_dir;
          ret new_output_dir
      end
    else ret output_dir
  else ret output_dir.

(** [if rename_pattern:] a pattern that is [None] or empty is skipped. *)
Definition pattern_given (rename_pattern : option string) : option string :=
  match rename_pattern with
  | Some p => if PyStr.truthy p then Some p else None
  | None => None
  end.

(** Lines 94-103: the base name of the output file. *)
Definition output_name (heif_path : string) (rename_pattern : option string)
           (t : Clock.datetime) : string :=
  let filename := PosixPath.basename heif_path in
  let name := fst (PosixPath.splitext filename) in
  match pattern_given rename_pattern with
  | Some pat =>
      let timestamp := Clock.strftime_Ymd_HMS t in
      let counter := "1" in
      PyStr.replace
        (PyStr.replace (PyStr.replace pat "{name}" name) "{timestamp}" timestamp)
        "{counter}" counter
  | None => name
  end.

(** Lines 119-124: the image converted to RGB. *)
Definition to_final_image (heif_image : Image) : Result planes :=
  if mode_in_RGBA_LA (mode heif_image) then
    let background := new_RGB_white (im_size heif_image) in
    match split heif_image with
    | Raise e => Raise e
    | Return bands =>
        match tuple_index bands 3 with
        | Raise e => Raise e
        | Return mask => paste background heif_image mask
        end
    end
  else convert_RGB heif_image.

(** Lines 111-116: the EXIF data, [None] when not asked for or when
    reading it fails. *)
Definition read_exif (heif_image : Image) (filename : string) (keep_exif : bool)
  : M (option Exif) :=
  if keep_exif then
    try_except
      (do x <- lift (getexif heif_image); ret (Some x))
      (fun e =>
         perform logger WARNING ("Could not extract EXIF from " ++ filename ++ ": " ++ str e);
         ret None)
  else ret None.

(** [exif_data and keep_exif] as a condition *)
Definition exif_wanted (exif_data : option Exif) (keep_exif : bool) : bool :=
  match exif_data with
  | Some (_ :: _) => keep_exif
  | _ => false
  end.

(** The body of the [try] of [convert_image]. *)
Definition convert_image_body (heif_path output_dir : string) (quality : Z)
           (preserve_structure keep_exif : bool) (rename_pattern : option string)
  : M (bool * string) :=
  do output_dir <- resolve_output_dir heif_path output_dir preserve_structure;
  let filename := PosixPath.basename heif_path in
  do w <- get_world;
  let name := output_name heif_path rename_pattern (now w) in
  let jpeg_path := PosixPath.join output_dir (name ++ ".jpg") in
  do heif_image <- Image_open heif_path;
  do exif_data <- read_exif heif_image filename keep_exif;
  do final_image <- lift (to_final_image heif_image);
  perform (if exif_wanted exif_data keep_exif
           then save_JPEG final_image (im_size heif_image) jpeg_path quality
                          exif_data
           else save_JPEG final_image (im_size heif_image) jpeg_path quality
                          None);
  ret (true, jpeg_path).

Definition convert_image (heif_path output_dir : string) (quality : Z)
           (preserve_structure keep_exif : bool) (rename_pattern : option string)
  : M (bool * string) :=
  try_except
    (convert_image_body heif_path output_dir quality preserve_structure
                        keep_exif rename_pattern)
    (fun e =>
       perform logger ERROR ("Error converting " ++ heif_path ++ ": " ++ str e);
       ret (false, str e)).

End Converter.

(* ===================================================================== *)
(** ** [class HEIFtoJPEGConverterApp]: starting, running and cancelling a
     batch *)
(* ===================================================================== *)

Module App.
Import Py.

(** The state of one [Future] of the thread pool. *)
Inductive Future :=
| Pending
| Running
| Finished (r : Result (bool * string))
| Cancelled.

(** Where [conversion_thread] stands: before the test of
    [stop_requested] of iteration [i] (line 1179), blocked in
    [future.result()] of iteration [i], past the test that found the
    flag set and not yet back from [shutdown] (line 1180), leaving the
    [with] block, or returned. *)
Inductive ThreadPc :=
| Check (i : nat)
| Wait (i : nat)
| Stopping
| Exiting
| Returned.

(** The arguments every [executor.submit] passes on. *)
Record ConvArgs := mk_args {
  arg_output_dir : string;
  arg_quality : Z;
  arg_preserve_structure : bool;
  arg_keep_exif : bool;
  arg_rename_pattern : option string
}.

(** The locals of [conversion_thread] and its executor. *)
Record BatchThread := mk_thread {
  total_files : nat;
  args : ConvArgs;
  pool_size : nat;
  future_to_file : list (Future * string);
  pc : ThreadPc;
  success_count : nat;
  error_count : nat
}.

(** A call handed to the main loop with [self.root.after].  The last two
    fields of [Update_progress] are ghost: [success_count] and
    [error_count] at the moment of the call. *)
Inductive Callback :=
| Update_progress (current total : nat) (current_file : string)
                  (succeeded failed : nat)
| Conversion_complete (total success errors : nat)
| Conversion_error (error_message : string).

(** The Tk variables of the settings panel. *)
Record Settings := mk_settings {
  input_dir : string;
  output_dir : string;
  quality : Z;
  preserve_exif : bool;
  preserve_structure : bool;
  rename_pattern : string;
  max_workers : Z
}.

(** The application.  [status_var] and the widgets other than the
    progress bar and the convert button are presentation only and left
    out; [notifications] lists the [CustomNotification]s shown. *)
Record AppState := mk_app {
  world : Converter.World;
  settings : Settings;
  file_list : list string;
  stop_requested : bool;
  conversion_running : bool;
  convert_btn : string * string;
  progress_maximum : nat;
  progress_value : nat;
  notifications : list (string * string);
  thread : option BatchThread;
  after_queue : list Callback
}.

(** *** Field updates *)

Definition set_world (w : Converter.World) (s : AppState) : AppState :=
  mk_app w (settings s) (file_list s) (stop_requested s) (conversion_running s)
         (convert_btn s) (progress_maximum s) (progress_value s)
         (notifications s) (thread s) (after_queue s).

Definition set_settings (x : Settings) (s : AppState) : AppState :=
  mk_app (world s) x (file_list s) (stop_requested s) (conversion_running s)
         (convert_btn s) (progress_maximum s) (progress_value s)
         (notifications s) (thread s) (after_queue s).

Definition set_file_list (fl : list string) (s : AppState) : AppState :=
  mk_app (world s) (settings s) fl (stop_requested s) (conversion_running s)
         (convert_btn s) (progress_maximum s) (progress_value s)
         (notifications s) (thread s) (after_queue s).

Definition set_stop_requested (b : bool) (s : AppState) : AppState :=
  mk_app (world s) (settings s) (file_list s) b (conversion_running s)
         (convert_btn s) (progress_maximum s) (progress_value s)
         (notifications s) (thread s) (after_queue s).

Definition set_conversion_running (b : bool) (s : AppState) : AppState :=
  mk_app (world s) (settings s) (file_list s) (stop_requested s) b
         (convert_btn s) (progress_maximum s) (progress_value s)
         (notifications s) (thread s) (after_queue s).

Definition set_convert_btn (x : string * string) (s : AppState) : AppState :=
  mk_app (world s) (settings s) (file_list s) (stop_requested s)
         (conversion_running s) x (progress_maximum s) (progress_value s)
         (notifications s) (thread s) (after_queue s).

Definition set_progress (maximum value : nat) (s : AppState) : AppState :=
  mk_app (world s) (settings s) (file_list s) (stop_requested s)
         (conversion_running s) (convert_btn s) maximum value
         (notifications s) (thread s) (after_queue s).

Definition set_thread (t : option BatchThread) (s : AppState) : AppState :=
  mk_app (world s) (settings s) (file_list s) (stop_requested s)
         (conversion_running s) (convert_btn s) (progress_maximum s)
         (progress_value s) (notifications s) t (after_queue s).

Definition set_after_queue (q : list Callback) (s : AppState) : AppState :=
  mk_app (world s) (settings s) (file_list s) (stop_requested s)
         (conversion_running s) (convert_btn s) (progress_maximum s)
         (progress_value s) (notifications s) (thread s) q.

(** [CustomNotification(self.root, message, kind)] *)
Definition CustomNotification (message kind : string) (s : AppState) : AppState :=
  mk_app (world s) (settings s) (file_list s) (stop_requested s)
         (conversion_running s) (convert_btn s) (progress_maximum s)
         (progress_value s) (notifications s ++ [(message, kind)])
         (thread s) (after_queue s).

(** [self.root.after(delay, callback, ...)] *)
Definition after (c : Callback) (s : AppState) : AppState :=
  set_after_queue (after_queue s ++ [c]) s.

Definition logger (lvl : Converter.LogLevel) (msg : string) (s : AppState)
  : AppState :=
  set_world (snd (Converter.logger lvl msg (world s))) s.

Definition set_output_dir (d : string) (x : Settings) : Settings :=
  mk_settings (input_dir x) d (quality x) (preserve_exif x)
              (preserve_structure x) (rename_pattern x) (max_workers x).

Definition set_pc (p : ThreadPc) (t : BatchThread) : BatchThread :=
  mk_thread (total_files t) (args t) (pool_size t) (future_to_file t) p
            (success_count t) (error_count t).

Definition set_futures (fs : list (Future * string)) (t : BatchThread)
  : BatchThread :=
  mk_thread (total_files t) (args t) (pool_size t) fs (pc t)
            (success_count t) (error_count t).

Definition set_counts (succ err : nat) (t : BatchThread) : BatchThread :=
  mk_thread (total_files t) (args t) (pool_size t) (future_to_file t) (pc t)
            succ err.

Definition files_text (n : nat) : string := PyStr.of_nat n ++ " files".

(** *** [conversion_thread], first part: lines 1158-1175 *)

(** The arguments of the [executor.submit] calls, read from the
    settings when the tasks are submitted. *)
Definition submit_args (x : Settings) : ConvArgs :=
  mk_args (output_dir x) (quality x) (preserve_structure x) (preserve_exif x)
          (if String.eqb (rename_pattern x) "{name}" then None
           else Some (rename_pattern x)).

(** The thread right after the dictionary comprehension: every file has
    its future, none has been looked at. *)
Definition submitted (s : AppState) : BatchThread :=
  mk_thread (List.length (file_list s)) (submit_args (settings s))
            (Z.to_nat (max_workers (settings s)))
            (map (fun f => (Pending, f)) (file_list s))
            (Check 0) 0 0.

(** [threading.Thread(target=self.conversion_thread).start()];
    [ThreadPoolExecutor(max_workers=n)] raises [ValueError] for [n <= 0],
    which the outer handler of the thread turns into
    [conversion_error]; the thread is then over and has no locals. *)
Definition start_thread (s : AppState) : AppState :=
  if (max_workers (settings s) <=? 0)%Z then
    let msg := "max_workers must be greater than 0" in
    after (Conversion_error msg)
          (logger Converter.ERROR ("Conversion process error: " ++ msg)
                  (set_thread None s))
  else set_thread (Some (submitted s)) s.

(** *** [start_conversion] *)

(** Lines 1141-1153: the run is marked as started, the thread is
    launched, the user is told. *)
Definition launch (s : AppState) : AppState :=
  let n := List.length (file_list s) in
  let s := set_conversion_running true s in
  let s := set_convert_btn ("disabled", "Converting...") s in
  let s := set_progress n 0 s in
  let s := set_stop_requested false s in
  let s := start_thread s in
  let s := logger Converter.INFO ("Starting conversion of " ++ files_text n) s in
  CustomNotification ("Starting conversion of " ++ files_text n) "info" s.

(** Lines 1126-1139: the output directory, made if it is missing;
    [inr] when making it fails. *)
Definition ensure_output_dir (s : AppState) : AppState + AppState :=
  let out := output_dir (settings s) in
  let s := if PyStr.truthy out then s
           else set_settings (set_output_dir (input_dir (settings s)) (settings s)) s in
  let out := output_dir (settings s) in
  if negb (Converter.exists_ (world s) out) then
    match Converter.makedirs out (world s) with
    | (Return _, w) =>
        inl (logger Converter.INFO ("Created output directory: " ++ out)
                    (set_world w s))
    | (Raise e, w) =>
        inr (logger Converter.ERROR
                    ("Failed to create output directory: " ++ str e)
                    (CustomNotification "Failed to create output directory"
                                        "error" (set_world w s)))
    end
  else inl s.

Definition start_conversion (s : AppState) : AppState :=
  if conversion_running s then
    CustomNotification "Conversion is already running!" "warning" s
  else if match file_list s with [] => true | _ => false end then
    CustomNotification "No files to convert!" "error" s
  else
    match ensure_output_dir s with
    | inr s => s
    | inl s => launch s
    end.

(** *** [cancel_conversion] *)

Definition cancel_conversion (s : AppState) : AppState :=
  if negb (conversion_running s) then s
  else
    let s := set_stop_requested true s in
    let s := CustomNotification "Cancelling conversion..." "warning" s in
    logger Converter.INFO "User requested to cancel conversion" s.

(** *** The thread pool *)

Definition is_running (x : Future * string) : bool :=
  match fst x with Running => true | _ => false end.
Definition is_pending (x : Future * string) : bool :=
  match fst x with Pending => true | _ => false end.
Definition is_cancelled (x : Future * string) : bool :=
  match fst x with Cancelled => true | _ => false end.

Definition count (p : Future * string -> bool) (fs : list (Future * string))
  : nat := List.length (List.filter p fs).

(** The work queue is first in, first out: a free pool thread takes the
    first future that is still pending. *)
Fixpoint take_first_pending (fs : list (Future * string))
  : option (list (Future * string)) :=
  match fs with
  | [] => None
  | (Pending, f) :: fs' => Some ((Running, f) :: fs')
  | x :: fs' => option_map (cons x) (take_first_pending fs')
  end.

(** A pool thread starts on the next work item.  That at most
    [max_workers] requests run at a time is what [ThreadPoolExecutor]
    provides; it is taken from the library here, not shown. *)
Definition worker_start (s : AppState) : option AppState :=
  match thread s with
  | Some t =>
      if (count is_running (future_to_file t) <? pool_size t)%nat then
        match take_first_pending (future_to_file t) with
        | Some fs => Some (set_thread (Some (set_futures fs t)) s)
        | None => None
        end
      else None
  | None => None
  end.

(** The pool thread running future [j] returns from [convert_image].
    The whole conversion is taken as one step on the disk: how the disk
    operations of conversions that run at the same time interleave is
    not modelled, and nothing below is stated about files that two
    running conversions both write. *)
Definition worker_finish (j : nat) (s : AppState) : option AppState :=
  match thread s with
  | Some t =>
      match nth_error (future_to_file t) j with
      | Some (Running, file_path) =>
          let a := args t in
          let '(r, w) :=
            Converter.convert_image file_path (arg_output_dir a) (arg_quality a)
              (arg_preserve_structure a) (arg_keep_exif a)
              (arg_rename_pattern a) (world s) in
          Some (set_thread
                  (Some (set_futures
                           (<[ j := (Finished r, file_path) ]> (future_to_file t)) t))
                  (set_world w s))
      | _ => None
      end
  | None => None
  end.

(** [executor.shutdown(wait=False, cancel_futures=True)] empties the
    work queue item by item and cancels the future of each item it takes
    out; the pool threads go on taking items from the same queue while
    it does. *)
Fixpoint cancel_first_pending (fs : list (Future * string))
  : option (list (Future * string)) :=
  match fs with
  | [] => None
  | (Pending, f) :: fs' => Some ((Cancelled, f) :: fs')
  | x :: fs' => option_map (cons x) (cancel_first_pending fs')
  end.

(** *** [conversion_thread], the loop (lines 1178-1201) and the end *)

(** Lines 1186-1198: one result counted. *)
Definition count_result (r : Result (bool * string)) (t : BatchThread)
  : BatchThread :=
  match r with
  | Return (true, _) => set_counts (S (success_count t)) (error_count t) t
  | Return (false, _) => set_counts (success_count t) (S (error_count t)) t
  | Raise _ => set_counts (success_count t) (S (error_count t)) t
  end.

Definition result_log (filename : string) (r : Result (bool * string))
  : Converter.LogLevel * string :=
  match r with
  | Return (true, result) =>
      (Converter.INFO,
       "Converted " ++ filename ++ " -> " ++ PosixPath.basename result)
  | Return (false, result) =>
      (Converter.ERROR, "Failed to convert " ++ filename ++ ": " ++ result)
  | Raise e =>
      (Converter.ERROR, "Error processing " ++ filename ++ ": " ++ str e)
  end.

Definition settled (fs : list (Future * string)) : bool :=
  forallb (fun x => negb (is_running x) && negb (is_pending x)) fs.

(** One step of [conversion_thread]; [None] when it is blocked.  The
    test of [stop_requested] (line 1179) and the [shutdown] that follows
    it (line 1180) are separate steps, and [shutdown] takes one step for
    each item it removes from the queue and one to find the queue empty:
    a pool thread may take a request from the queue in between. *)
Definition thread_step (s : AppState) : option AppState :=
  match thread s with
  | None => None
  | Some t =>
      match pc t with
      | Check i =>
          match nth_error (future_to_file t) i with
          | Some _ =>
              if stop_requested s
              then Some (set_thread (Some (set_pc Stopping t)) s)
              else Some (set_thread (Some (set_pc (Wait i) t)) s)
          | None => Some (set_thread (Some (set_pc Exiting t)) s)
          end
      | Stopping =>
          match cancel_first_pending (future_to_file t) with
          | Some fs => Some (set_thread (Some (set_futures fs t)) s)
          | None => Some (set_thread (Some (set_pc Exiting t)) s)
          end
      | Wait i =>
          match nth_error (future_to_file t) i with
          | Some (Finished r, file_path) =>
              let filename := PosixPath.basename file_path in
              let t := count_result r t in
              let '(lvl, msg) := result_log filename r in
              let s := logger lvl msg s in
              let s := after (Update_progress (i + 1) (total_files t) filename
                                              (success_count t) (error_count t)) s in
              Some (set_thread (Some (set_pc (Check (i + 1)) t)) s)
          | _ => None
          end
      | Exiting =>
          if settled (future_to_file t) then
            let s := after (Conversion_complete (total_files t) (success_count t)
                                                (error_count t)) s in
            Some (set_thread (Some (set_pc Returned t)) s)
          else None
      | Returned => None
      end
  end.

(** *** The callbacks run by the main loop *)

(** [update_progress] *)
Definition update_progress (current total : nat) (s : AppState) : AppState :=
  set_progress (progress_maximum s) current s.

(** [conversion_complete] *)
Definition conversion_complete (total success errors : nat) (s : AppState)
  : AppState :=
  let s := set_conversion_running false s in
  let s := set_convert_btn ("normal", "Convert Images") s in
  let s :=
    if stop_requested s then
      CustomNotification
        ("Conversion cancelled. Completed " ++ PyStr.of_nat success ++ " out of "
         ++ files_text total ++ ".") "warning" s
    else if (errors =? 0)%nat then
      CustomNotification
        ("All " ++ files_text success ++ " converted successfully!") "success" s
    else
      CustomNotification
        ("Conversion complete with " ++ PyStr.of_nat errors
         ++ " errors. See log for details.") "warning" s in
  logger Converter.INFO
         ("Conversion finished. Total: " ++ PyStr.of_nat total ++ ", Success: "
          ++ PyStr.of_nat success ++ ", Errors: " ++ PyStr.of_nat errors) s.

(** [conversion_error] *)
Definition conversion_error (error_message : string) (s : AppState) : AppState :=
  let s := set_conversion_running false s in
  let s := set_convert_btn ("normal", "Convert Images") s in
  CustomNotification "Conversion failed. See log for details." "error" s.

Definition run_callback (c : Callback) (s : AppState) : AppState :=
  match c with
  | Update_progress current total _ _ _ => update_progress current total s
  | Conversion_complete total success errors =>
      conversion_complete total success errors s
  | Conversion_error m => conversion_error m s
  end.

Definition main_callback (s : AppState) : option AppState :=
  match after_queue s with
  | [] => None
  | c :: q => Some (run_callback c (set_after_queue q s))
  end.

(** *** The interleavings *)

(** What can happen next: the two buttons, a pool thread taking or
    finishing a request, a step of [conversion_thread], a callback run
    by the main loop, and the user changing the settings panel (worker
    spinbox, quality, folders, Load Settings) or the file list (Add
    Files, Remove, Refresh), which stay enabled during a run. *)
Inductive Event :=
| Start_conversion
| Cancel_conversion
| Worker_start
| Worker_finish (j : nat)
| Thread_step
| Main_callback
| Change_settings (x : Settings)
| Change_file_list (fl : list string).

Definition exec (e : Event) (s : AppState) : option AppState :=
  match e with
  | Start_conversion => Some (start_conversion s)
  | Cancel_conversion => Some (cancel_conversion s)
  | Worker_start => worker_start s
  | Worker_finish j => worker_finish j s
  | Thread_step => thread_step s
  | Main_callback => main_callback s
  | Change_settings x => Some (set_settings x s)
  | Change_file_list fl => Some (set_file_list fl s)
  end.

Fixpoint run (es : list Event) (s : AppState) : option AppState :=
  match es with
  | [] => Some s
  | e :: es' =>
      match exec e s with
      | Some s' => run es' s'
      | None => None
      end
  end.

(** The application as [__init__] leaves it, with the given files
    listed. *)
Definition idle (w : Converter.World) (x : Settings) (fl : list string)
  : AppState :=
  mk_app w x fl false false ("normal", "Convert Images") 0 0 [] None [].

End App.

(* ===================================================================== *)
(** ** The specification's own notions *)
(* ===================================================================== *)

Module SpecWords.

Fixpoint list_prefix (a b : list string) : bool :=
  match a, b with
  | [], _ => true
  | x :: a', y :: b' => String.eqb x y && list_prefix a' b'
  | _ :: _, [] => false
  end.

(** "Already under [outputRoot]": the directory is the output root or
    lies somewhere below it, component by component. *)
Definition is_under (dir root : string) : bool :=
  list_prefix (PosixPath.components (PosixPath.normpath root))
              (PosixPath.components (PosixPath.normpath dir)).

(** A rename pattern as the claim reads it: text, with the three
    placeholders standing in it. *)
Inductive Piece :=
| Text (c : ascii)
| Name
| Timestamp
| Counter.

(** A piece with what is put in its place, or as it is written when
    nothing is. *)
Definition shown (name timestamp counter : option string) (x : Piece) : string :=
  match x with
  | Text c => String c EmptyString
  | Name => match name with Some v => v | None => "{name}" end
  | Timestamp => match timestamp with Some v => v | None => "{timestamp}" end
  | Counter => match counter with Some v => v | None => "{counter}" end
  end.

Fixpoint render (name timestamp counter : option string) (ps : list Piece)
  : string :=
  match ps with
  | [] => EmptyString
  | x :: ps' => shown name timestamp counter x ++ render name timestamp counter ps'
  end.

(** Ordinary text as pieces. *)
Fixpoint text (s : string) : list Piece :=
  match s with
  | EmptyString => []
  | String c s' => Text c :: text s'
  end.

(** The pattern as it is typed. *)
Definition written (ps : list Piece) : string := render None None None ps.

(** "The pattern with every occurrence of [{name}] replaced by the base
    name, [{timestamp}] by the formatted time and [{counter}] by the
    constant [1]". *)
Definition substituted (ps : list Piece) (base timestamp : string) : string :=
  render (Some base) (Some timestamp) (Some "1") ps.

(** No opening brace in the string. *)
Fixpoint brace_free (s : string) : bool :=
  match s with
  | EmptyString => true
  | String c s' => negb (Ascii.eqb "{" c) && brace_free s'
  end.

(** Every opening brace of the pattern begins a placeholder. *)
Definition plain (ps : list Piece) : bool :=
  forallb (fun x => match x with
                    | Text c => negb (Ascii.eqb "{" c)
                    | _ => true
                    end) ps.

(** "The resolved directory joined with this name": the file of that
    name in that directory. *)
Definition joined (dir name : string) : string :=
  match dir with
  | EmptyString => name
  | _ => if PyStr.endswith dir "/" then dir ++ name else dir ++ "/" ++ name
  end.

(** "Case-insensitive match on a known list": the name ends in a dot
    followed by one of [heif], [heic], [hif] in any mix of cases. *)
Definition lower (c : ascii) : ascii :=
  let n := nat_of_ascii c in
  if (65 <=? n)%nat && (n <=? 90)%nat then ascii_of_nat (n + 32) else c.

Fixpoint lowercase (s : string) : string :=
  match s with
  | EmptyString => EmptyString
  | String c s' => String (lower c) (lowercase s')
  end.

Definition recognized (name : string) : bool :=
  let ext := lowercase (snd (PosixPath.splitext name)) in
  String.eqb ext ".heif" || String.eqb ext ".heic" || String.eqb ext ".hif".

End SpecWords.

(* ===================================================================== *)
(** ** The file list of the window *)
(* ===================================================================== *)

Module FileList.
Import Py.

(** *** [format_file_size] *)

(** The digits of [f"{n / d:.1f}"] without the point, for a size [n]
    and a power of two [d]: the quotient of two integers is exact as a
    float for [n] below [2^53], and the format rounds the exact value to
    the nearest tenth, a tie going to the even digit. *)
Definition tenths (n d : N) : N :=
  let q := (10 * n / d)%N in
  let r := ((10 * n) mod d)%N in
  if (2 * r <? d)%N then q
  else if (d <? 2 * r)%N then (q + 1)%N
  else if N.even q then q else (q + 1)%N.

Definition one_decimal (n d : N) : string :=
  let t := tenths n d in
  PyStr.of_nat (N.to_nat (t / 10)) ++ "." ++ PyStr.of_nat (N.to_nat (t mod 10)).

Definition format_file_size (size_bytes : N) : string :=
  if (size_bytes <? 1024)%N then
    PyStr.of_nat (N.to_nat size_bytes) ++ " B"
  else if (size_bytes <? 1024 * 1024)%N then
    one_decimal size_bytes 1024 ++ " KB"
  else if (size_bytes <? 1024 * 1024 * 1024)%N then
    one_decimal size_bytes (1024 * 1024) ++ " MB"
  else
    one_decimal size_bytes (1024 * 1024 * 1024) ++ " GB".

(** *** The list and the table *)

(** The [values] of a row of the tree: name, size, path. *)
Record Row := mk_row {
  name_col : string;
  size_col : string;
  path_col : string
}.

(** [self.file_list] and [self.tree] with the identifiers Tk gives to
    the rows, the status line, the notifications shown and the log. *)
Record Window := mk_window {
  file_list : list string;
  tree : list (nat * Row);
  next_item : nat;
  status_var : string;
  notifications : list (string * string);
  log : list (Converter.LogLevel * string)
}.

Definition set_file_list (l : list string) (s : Window) : Window :=
  mk_window l (tree s) (next_item s) (status_var s) (notifications s) (log s).

Definition set_tree (t : list (nat * Row)) (s : Window) : Window :=
  mk_window (file_list s) t (next_item s) (status_var s) (notifications s)
            (log s).

Definition set_status (m : string) (s : Window) : Window :=
  mk_window (file_list s) (tree s) (next_item s) m (notifications s) (log s).

Definition CustomNotification (message kind : string) (s : Window) : Window :=
  mk_window (file_list s) (tree s) (next_item s) (status_var s)
            (notifications s ++ [(message, kind)]) (log s).

Definition logger (lvl : Converter.LogLevel) (msg : string) (s : Window)
  : Window :=
  mk_window (file_list s) (tree s) (next_item s) (status_var s)
            (notifications s) (log s ++ [(lvl, msg)]).

(** [self.tree.insert("", tk.END, values=...)]: a new row at the end,
    under an identifier not used before. *)
Definition tree_insert (values : Row) (s : Window) : Window :=
  mk_window (file_list s) (tree s ++ [(next_item s, values)])
            (S (next_item s)) (status_var s) (notifications s) (log s).

(** [self.tree.item(item, "values")]: the columns come back as the
    strings that were stored. *)
Definition tree_item (item : nat) (s : Window) : option Row :=
  option_map snd (List.find (fun x => Nat.eqb (fst x) item) (tree s)).

(** [self.tree.delete(item)] *)
Definition tree_delete (item : nat) (s : Window) : Window :=
  set_tree (List.filter (fun x => negb (Nat.eqb (fst x) item)) (tree s)) s.

(** [self.tree.selection()]: the selected rows, in the order of the
    tree. *)
Definition tree_selection (selected : nat -> bool) (s : Window) : list nat :=
  map fst (List.filter (fun x => selected (fst x)) (tree s)).

(** [x in l] *)
Definition contains (x : string) (l : list string) : bool :=
  existsb (String.eqb x) l.

(** [l.remove(x)] when [x in l]: the first occurrence goes. *)
Fixpoint list_remove (x : string) (l : list string) : list string :=
  match l with
  | [] => []
  | y :: l' => if String.eqb x y then l' else y :: list_remove x l'
  end.

(** Lines 1005-1015 and 1046-1056: the file is listed, its size is
    asked for and its row is added; [os.path.getsize] may raise. *)
Definition list_file (getsize : string -> Result N) (file_path : string)
           (s : Window) : Result unit * Window :=
  let s := set_file_list (file_list s ++ [file_path]) s in
  match getsize file_path with
  | Raise e => (Raise e, s)
  | Return file_size =>
      let size_str := format_file_size file_size in
      (Return tt,
       tree_insert (mk_row (PosixPath.basename file_path) size_str
                           (PosixPath.dirname file_path)) s)
  end.

(** *** [process_selected_files] *)

(** The loop of lines 1000-1016, with [added] as it stands. *)
Fixpoint add_files (getsize : string -> Result N) (files : list string)
         (added : nat) (s : Window) : Result nat * Window :=
  match files with
  | [] => (Return added, s)
  | file_path :: rest =>
      if negb (contains file_path (file_list s)) then
        match list_file getsize file_path s with
        | (Raise e, s) => (Raise e, s)
        | (Return _, s) => add_files getsize rest (S added) s
        end
      else add_files getsize rest added s
  end.

Definition process_selected_files (getsize : string -> Result N)
           (files : list string) (s : Window) : Result unit * Window :=
  match add_files getsize files 0 s with
  | (Raise e, s) => (Raise e, s)
  | (Return added, s) =>
      if (0 <? added)%nat then
        let s :=
          set_status ("Added " ++ PyStr.of_nat added ++ " file(s). Total: "
                      ++ PyStr.of_nat (List.length (file_list s)) ++ " files.")
                     s in
        let s := logger Converter.INFO
                        ("Added " ++ PyStr.of_nat added
                         ++ " files to the conversion list") s in
        (Return tt,
         CustomNotification ("Added " ++ PyStr.of_nat added
                             ++ " files to the list") "info" s)
      else (Return tt, s)
  end.

(** *** [refresh_file_list] *)

(** The loop of lines 1045-1056. *)
Fixpoint list_files (getsize : string -> Result N) (heif_files : list string)
         (s : Window) : Result unit * Window :=
  match heif_files with
  | [] => (Return tt, s)
  | file_path :: rest =>
      match list_file getsize file_path s with
      | (Raise e, s) => (Raise e, s)
      | (Return _, s) => list_files getsize rest s
      end
  end.

(** [listing] is what the input directory holds; [messagebox.showerror]
    is recorded among the notifications under the kind [showerror]. *)
Definition refresh_file_list (getsize : string -> Result N)
           (w : Converter.World) (listing : list Converter.DirEntry)
           (input_dir : string) (include_subdirs : bool) (s : Window)
  : Result unit * Window :=
  if negb (PyStr.truthy input_dir) || negb (Converter.isdir w input_dir) then
    (Return tt,
     CustomNotification "Please select a valid input folder!" "showerror" s)
  else
    let s := set_tree [] s in
    let s := set_file_list [] s in
    let heif_files :=
      Converter.find_heif_files input_dir listing include_subdirs in
    match heif_files with
    | [] =>
        let s := set_status "No HEIF files found in the selected folder!" s in
        (Return tt,
         CustomNotification "No HEIF files found in the selected folder!"
                            "warning" s)
    | _ =>
        match list_files getsize heif_files s with
        | (Raise e, s) => (Raise e, s)
        | (Return _, s) =>
            let n := PyStr.of_nat (List.length heif_files) in
            let s := set_status ("Found " ++ n ++ " HEIF files") s in
            let s := logger Converter.INFO
                            ("Found " ++ n ++ " HEIF files in " ++ input_dir) s in
            (Return tt,
             CustomNotification ("Found " ++ n ++ " HEIF files") "info" s)
        end
    end.

(** *** [preview_selected] and [remove_selected] *)

(** Lines 1083-1087 and 1100-1103: the path rebuilt from a row. *)
Definition row_file (values : Row) : string :=
  PosixPath.join (path_col values) (name_col values).

(** The path handed to [PreviewWindow], if a row is selected. *)
Definition preview_selected (selected : nat -> bool) (s : Window)
  : option string * Window :=
  match tree_selection selected s with
  | [] =>
      (None, CustomNotification "Please select an image to preview" "warning" s)
  | item :: _ => (option_map row_file (tree_item item s), s)
  end.

(** The body of the loop of lines 1099-1108; the selection holds rows
    of the tree only. *)
Definition remove_item (s : Window) (item : nat) : Window :=
  match tree_item item s with
  | Some values =>
      let file_path := row_file values in
      let s := if contains file_path (file_list s)
               then set_file_list (list_remove file_path (file_list s)) s
               else s in
      tree_delete item s
  | None => s
  end.

Definition remove_selected (selected : nat -> bool) (s : Window) : Window :=
  let selected_items := tree_selection selected s in
  match selected_items with
  | [] => s
  | _ =>
      let s := fold_left remove_item selected_items s in
      let n := List.length selected_items in
      let s :=
        set_status ("Removed " ++ PyStr.of_nat n ++ " file(s). Total: "
                    ++ PyStr.of_nat (List.length (file_list s)) ++ " files.")
                   s in
      if (1 <? n)%nat
      then CustomNotification ("Removed " ++ PyStr.of_nat n ++ " files") "info" s
      else s
  end.

End FileList.

(* ===================================================================== *)
(** ** Notions used to state the facts about the converter *)
(* ===================================================================== *)

Module ConverterNotions.
Import Py PIL Converter.

(** No [/] in the string. *)
Fixpoint slash_free (s : string) : bool :=
  match s with
  | EmptyString => true
  | String c s' => negb (Ascii.eqb PosixPath.sep c) && slash_free s'
  end.

(** The error handler of [convert_image]: the log line, then the pair. *)
Definition failed (heif_path : string) (e : Exn) (w : World)
  : Result (bool * string) * World :=
  (Return (false, str e),
   snd (logger ERROR ("Error converting " ++ heif_path ++ ": " ++ str e) w)).

(** The path [convert_image] saves to, given the resolved directory. *)
Definition jpeg_path_in (d heif_path : string) (rp : option string)
           (t : Clock.datetime) : string :=
  PosixPath.join d (output_name heif_path rp t ++ ".jpg").

(** The world after the warning of [read_exif]. *)
Definition warned (heif_path : string) (e : Exn) (w : World) : World :=
  snd (logger WARNING ("Could not extract EXIF from "
                       ++ PosixPath.basename heif_path ++ ": " ++ str e) w).

Definition two_digits (n : nat) : string :=
  String (PyStr.digit (n / 10)) (String (PyStr.digit n) EmptyString).

Definition four_digits (n : nat) : string :=
  String (PyStr.digit (n / 1000))
    (String (PyStr.digit (n / 100))
       (String (PyStr.digit (n / 10)) (String (PyStr.digit n) EmptyString))).

Definition base_name (heif_path : string) : string :=
  fst (PosixPath.splitext (PosixPath.basename heif_path)).

End ConverterNotions.

(* ===================================================================== *)
(** ** Notions used to state the facts about the batch *)
(* ===================================================================== *)

Module BatchNotions.
Import Py Converter App.

Definition harvested (t : BatchThread) : nat := success_count t + error_count t.



Definition is_update (c : Callback) : Prop :=
  match c with Update_progress _ _ _ _ _ => True | _ => False end.

Definition good_callback (c : Callback) : Prop :=
  match c with
  | Update_progress current total _ succeeded failed =>
      current = succeeded + failed /\ current <= total
  | _ => True
  end.

Definition finished_upto (n : nat) (fs : list (Future * string)) : Prop :=
  forall j, j < n -> exists r f, nth_error fs j = Some (Finished r, f).

Definition thread_ok (t : BatchThread) : Prop :=
  List.length (future_to_file t) = total_files t
  /\ 0 < total_files t
  /\ harvested t <= total_files t
  /\ finished_upto (harvested t) (future_to_file t)
  /\ match pc t with
     | Check i => i = harvested t
     | Wait i => i = harvested t /\ i < total_files t
     | Stopping => True
     | Exiting => True
     | Returned => settled (future_to_file t) = true
     end.

(** The thread is past the loop and past [shutdown], if it called it. *)
Definition left_loop (t : BatchThread) : Prop :=
  match pc t with Exiting | Returned => True | _ => False end.

Definition queue_ok (s : AppState) : Prop :=
  if conversion_running s then
    match thread s with
    | Some t =>
        match pc t with
        | Returned =>
            exists us, Forall is_update us
                       /\ after_queue s
                          = (us ++ [Conversion_complete (total_files t)
                                      (success_count t) (error_count t)])%list
        | _ => Forall is_update (after_queue s)
        end
    | None => exists m, after_queue s = [Conversion_error m]
    end
  else after_queue s = []
       /\ match thread s with Some t => pc t = Returned | None => True end.

Record Inv (s : AppState) : Prop := mk_inv {
  inv_callbacks : Forall good_callback (after_queue s);
  inv_thread : forall t, thread s = Some t -> thread_ok t;
  inv_queue : queue_ok s;
  inv_stop : forall t, thread s = Some t -> left_loop t ->
                       harvested t = total_files t \/ stop_requested s = true;
  inv_stopping : forall t, thread s = Some t -> pc t = Stopping ->
                           stop_requested s = true
}.

Definition fresh_thread (s : AppState) (t : BatchThread) : Prop :=
  future_to_file t = map (fun f => (Pending, f)) (file_list s)
  /\ total_files t = List.length (file_list s)
  /\ pc t = Check 0 /\ success_count t = 0 /\ error_count t = 0.

Definition state_after (es : list Event) (s : AppState) : AppState :=
  match run es s with Some s' => s' | None => s end.

(** The notification [conversion_complete] shows for a cancelled run. *)
Definition cancelled_notice (success total : nat) : string * string :=
  ("Conversion cancelled. Completed " ++ PyStr.of_nat success ++ " out of "
   ++ files_text total ++ ".", "warning").

(** The batch once the loop has seen the flag, relative to the thread
    [t0] as it was at that moment. *)
Record Observed (t0 : BatchThread) (s : AppState) : Prop := mk_observed {
  ob_thread :
    exists t, thread s = Some t
              /\ total_files t = total_files t0
              /\ success_count t = success_count t0
              /\ error_count t = error_count t0
              /\ (pc t = Stopping \/ left_loop t)
              /\ (left_loop t ->
                  Forall (fun x => is_pending x = false) (future_to_file t));
  ob_stop : stop_requested s = true;
  ob_done :
    conversion_running s = false ->
    last (notifications s)
    = Some (cancelled_notice (success_count t0) (total_files t0))
}.

(** No pool thread has touched any request. *)
Definition unstarted (fs : list (Future * string)) : Prop :=
  Forall (fun x => is_pending x || is_cancelled x = true) fs.

End BatchNotions.

(* ===================================================================== *)
(** ** Sample data for the examples *)
(* ===================================================================== *)

Module Samples.
Import Py PIL Converter App.

(** Sample data shared by the examples below. *)
Definition noon : Clock.datetime := Clock.mk_datetime 2024 3 7 12 5 9.

Definition rgba_picture : Image :=
  mk_image (PRGBA [10; 20]%Z [30; 40]%Z [50; 60]%Z [0; 255]%Z) (2, 1)%nat None
           (Return [(271%Z, "Apple")]).

Definition grey_alpha_picture : Image :=
  mk_image (PLA [10; 20]%Z [0; 255]%Z) (2, 1)%nat None (Return []).

Definition no_exif_picture : Image :=
  mk_image (PRGB [1; 2]%Z [3; 4]%Z [5; 6]%Z) (2, 1)%nat None
           (Raise (mk_exn ValueError "invalid EXIF block")).

Definition corrupt : Result Image :=
  Raise (mk_exn UnidentifiedImageError "cannot identify image file '/pics/bad.heic'").

Definition sample_files : gmap string DiskFile :=
  <[ "/pics/a.heic" := Source (Return rgba_picture) ]>
  (<[ "/pics/b.heic" := Source (Return grey_alpha_picture) ]>
  (<[ "/pics/c.heic" := Source (Return no_exif_picture) ]>
  (<[ "/pics/bad.heic" := Source corrupt ]>
  (<[ "/out2/sub/a.heic" := Source (Return rgba_picture) ]>
  (<[ "/data/out_backup/pics/img.heic" := Source (Return rgba_picture) ]> ∅))))).

Definition sample_world : World :=
  mk_world "/home/user" ({[ "/out" ]} ∪ {[ "/data" ]} ∪ {[ "/data/out" ]})
           sample_files {[ "/locked" ]} noon [].

Definition sample_pattern : list SpecWords.Piece :=
  [SpecWords.Name; SpecWords.Text "_"; SpecWords.Timestamp; SpecWords.Text "_";
   SpecWords.Counter].

(** The sample disk with one more source, whose name is a placeholder. *)
Definition braced_world : World :=
  mk_world "/home/user" ({[ "/out" ]} ∪ {[ "/data" ]} ∪ {[ "/data/out" ]})
           (<[ "/pics/{counter}.heic" := Source (Return rgba_picture) ]> sample_files)
           {[ "/locked" ]} noon [].

Definition photo_dir : list DirEntry :=
  [ FileEntry "IMG_0001.Heic"; FileEntry "IMG_0002.heic";
    FileEntry "IMG_0003.HEIC"; FileEntry "notes.txt";
    SubDir "trip" [ FileEntry "IMG_0004.HiF"; FileEntry "IMG_0005.hif" ] ].

Definition sample_settings : Settings :=
  mk_settings "/pics" "/out" 90 true false "{name}" 2.

Definition sample_app : AppState :=
  idle sample_world sample_settings
       ["/pics/a.heic"; "/pics/c.heic"; "/pics/bad.heic"].




Definition cancelled_at_once : list Event := [Start_conversion; Cancel_conversion].

Definition shut_down_unstarted : list Event :=
  [Thread_step; Thread_step; Thread_step; Thread_step; Thread_step;
   Main_callback].

(** The run in which a pool thread takes the first request between the
    test of the flag and [shutdown]. *)
Definition taken_after_the_flag : list Event :=
  [Worker_start; Worker_finish 0; Thread_step; Thread_step; Thread_step;
   Thread_step; Main_callback].

End Samples.

(* ===================================================================== *)
(** ** Notions used to state what a conversion does to the disk *)
(* ===================================================================== *)

Module EffectNotions.
Import Py PIL Converter ConverterNotions.

(** The parts of the world no step of [convert_image] changes, with the
    directories allowed to grow. *)
Definition grows (w w' : World) : Prop :=
  cwd w' = cwd w /\ files w' = files w /\ readonly w' = readonly w
  /\ now w' = now w /\ log w' = log w /\ dirs w ⊆ dirs w'.

(** The EXIF block [convert_image] hands to [save]: the one read from the
    source if [keep_exif] is set, reading it works and it is not empty. *)
Definition exif_saved (im : Image) (keep_exif : bool) : option Exif :=
  if keep_exif then
    match getexif im with
    | Return (x :: l) => Some (x :: l)
    | _ => None
    end
  else None.

(** What one band of the flattened picture holds at pixel [i]. *)
Definition flattened_sample (alpha colour : band) (i : nat) : Z :=
  blend8 (nth i alpha 0%Z) 255 (nth i colour 0%Z).

(** Two worlds with the same working directory, directories and
    read-only marks. *)
Definition same_tree (w w' : World) : Prop :=
  cwd w' = cwd w /\ dirs w' = dirs w /\ readonly w' = readonly w.

End EffectNotions.

(* ===================================================================== *)
(** ** Notions used to state the facts about the search *)
(* ===================================================================== *)

Module SearchNotions.
Import Py Converter ConverterNotions.

(** The endings the six patterns stand for. *)
Definition endings : list string :=
  [".heif"; ".heic"; ".hif"; ".HEIF"; ".HEIC"; ".HIF"].

(** A pattern without [*] and [?]. *)
Fixpoint literal (pat : string) : bool :=
  match pat with
  | EmptyString => true
  | String c pat' =>
      negb (Ascii.eqb c "*") && negb (Ascii.eqb c "?") && literal pat'
  end.

(** Whether a name carries one of the six endings. *)
Definition has_ending (name : string) : bool :=
  existsb (PyStr.endswith name) endings.

(** One of the characters [glob.has_magic] looks for. *)
Definition magic (c : ascii) : bool :=
  Ascii.eqb c "*" || Ascii.eqb c "?" || Ascii.eqb c "[".

Fixpoint magic_free (s : string) : bool :=
  match s with
  | EmptyString => true
  | String c s' => negb (magic c) && magic_free s'
  end.

(** A directory that [glob.glob] takes as it is written: no
    metacharacter in it, and no doubled slash at its end, which
    [os.path.split] would drop before the names are joined on. *)
Definition literal_dir (d : string) : bool :=
  magic_free d && negb (PyStr.endswith d "//").

(** The subdirectories of a tree carry names that are not empty, hold no
    slash and no metacharacter. *)
Fixpoint literal_dirs (e : DirEntry) : bool :=
  match e with
  | FileEntry _ => true
  | SubDir n children =>
      PyStr.truthy n && slash_free n && magic_free n
      && forallb literal_dirs children
  end.

(** The directory [r] with listing [ls] is [d] with listing [l], or lies
    below it. *)
Inductive below (d : string) (l : list DirEntry)
  : string -> list DirEntry -> Prop :=
| below_here : below d l d l
| below_sub n children r ls :
    In (SubDir n children) l ->
    below (PosixPath.join d n) children r ls ->
    below d l r ls.

End SearchNotions.

(* ===================================================================== *)
(** ** Notions used to state further facts about the batch *)
(* ===================================================================== *)

Module RunNotions.
Import Py PIL Converter App BatchNotions.


Definition broken_settings : Settings :=
  mk_settings "/pics" "/out" 90 true false "{name}" 0.




End RunNotions.

(* ===================================================================== *)
(** ** Notions used to state the facts about the file list *)
(* ===================================================================== *)

Module FileListNotions.
Import Py Converter ConverterNotions SearchNotions FileList.

Definition no_sizes : string -> Result N :=
  fun p => if String.eqb p "/pics/gone.heic"
           then Raise (os_error FileNotFoundError
                                "[Errno 2] No such file or directory" p)
           else Return 2048%N.

Definition empty_window : Window := mk_window [] [] 1 "Ready" [] [].

Definition picked : list string :=
  ["/pics/a.heic"; "/pics/b.heic"; "/pics/a.heic"].

(** The path rebuilt from the columns of the row of [p] is [p]. *)
Definition rejoins (p : string) : Prop :=
  PosixPath.join (PosixPath.dirname p) (PosixPath.basename p) = p.

(** The files the rows stand for, row by row. *)
Definition rows_files (s : Window) : list string :=
  map (fun x => row_file (snd x)) (tree s).

(** The table shows the list. *)
Definition aligned (s : Window) : Prop := rows_files s = file_list s.

(** The identifiers of the rows are distinct and were given out
    already. *)
Definition ids_ok (s : Window) : Prop :=
  List.NoDup (map fst (tree s))
  /\ List.Forall (fun x => fst x < next_item s) (tree s).

Definition picked_gone : list string :=
  ["/pics/a.heic"; "/pics/gone.heic"; "/pics/b.heic"].

Definition three_rows : Window :=
  mk_window ["/pics/a.heic"; "/pics/b.heic"; "/pics/c.heic"]
            [ (1, mk_row "a.heic" "2.0 KB" "/pics");
              (2, mk_row "b.heic" "2.0 KB" "/pics");
              (3, mk_row "c.heic" "2.0 KB" "/pics") ]
            4 "Ready" [] [].

Definition first_and_last (item : nat) : bool :=
  Nat.eqb item 1 || Nat.eqb item 3.

(** A name as a directory entry has it: not empty, no [/]. *)
Definition entry_name_ok (n : string) : bool := PyStr.truthy n && slash_free n.

(** Every name in the tree of directories is such a name. *)
Fixpoint names_ok (e : Converter.DirEntry) : bool :=
  match e with
  | Converter.FileEntry n => entry_name_ok n
  | Converter.SubDir n children => entry_name_ok n && forallb names_ok children
  end.

(** A directory written without a slash at its end. *)
Definition plain_dir (d : string) : Prop :=
  d <> "" /\ PyStr.endswith d "/" = false.

Definition sizes_2k : string -> Result N := fun _ => Return 2048%N.

End FileListNotions.

(* ===================================================================== *)
(** ** Facts about strings and paths *)
(* ===================================================================== *)

Module StringFacts.
Import Py ConverterNotions.

Lemma str_app_assoc (a b c : string) : (a ++ b) ++ c = a ++ (b ++ c).
Proof.
  induction a as [|x a IH]; [reflexivity|].
  change (String x ((a ++ b) ++ c) = String x (a ++ (b ++ c))). f_equal. exact IH.
Qed.

Lemma str_app_empty_r (a : string) : a ++ "" = a.
Proof.
  induction a as [|x a IH]; [reflexivity|].
  change (String x (a ++ "") = String x a). f_equal. exact IH.
Qed.

Lemma str_length_app (a b : string) :
  String.length (a ++ b) = String.length a + String.length b.
Proof.
  induction a as [|x a IH]; [reflexivity|].
  change (S (String.length (a ++ b)) = S (String.length a + String.length b)).
  f_equal. exact IH.
Qed.

Lemma slice_to_from n : forall s, PyStr.slice_to n s ++ PyStr.slice_from n s = s.
Proof.
  induction n as [|n IH]; intros [|c s]; try reflexivity.
  change (String c (PyStr.slice_to n s ++ PyStr.slice_from n s) = String c s).
  f_equal. apply IH.
Qed.

Lemma slice_from_app (a b : string) :
  PyStr.slice_from (String.length a) (a ++ b) = b.
Proof.
  induction a as [|x a IH]; [destruct b; reflexivity|].
  change (PyStr.slice_from (String.length a) (a ++ b) = b). exact IH.
Qed.

Lemma slice_to_app (a b : string) :
  PyStr.slice_to (String.length a) (a ++ b) = a.
Proof.
  induction a as [|x a IH]; [destruct b; reflexivity|].
  change (String x (PyStr.slice_to (String.length a) (a ++ b)) = String x a).
  f_equal. exact IH.
Qed.

(** [(a + b).endswith(b)] *)
Lemma endswith_app (a b : string) : PyStr.endswith (a ++ b) b = true.
Proof.
  unfold PyStr.endswith. rewrite str_length_app.
  replace (String.length a + String.length b - String.length b)
    with (String.length a) by lia.
  rewrite slice_from_app, String.eqb_refl.
  rewrite andb_true_r. apply Nat.leb_le. lia.
Qed.

(** [(a + b).startswith(a)] *)
Lemma startswith_app (a b : string) : PyStr.startswith (a ++ b) a = true.
Proof.
  unfold PyStr.startswith. induction a as [|x a IH].
  - destruct b; reflexivity.
  - change (String.prefix (String x a) (String x (a ++ b)) = true). simpl.
    destruct (ascii_dec x x); [exact IH | congruence].
Qed.

Lemma startswith_inv (s p : string) :
  PyStr.startswith s p = true -> exists t, s = p ++ t.
Proof.
  unfold PyStr.startswith. revert s.
  induction p as [|x p IH]; intros s H.
  - exists s. reflexivity.
  - destruct s as [|y s]; [discriminate|]. simpl in H.
    destruct (ascii_dec x y) as [->|]; [|discriminate].
    destruct (IH s H) as [t ->]. exists t. reflexivity.
Qed.

(** Whatever is joined, the result ends with the second part. *)
Lemma join_ends_with (a b e : string) :
  PyStr.endswith (PosixPath.join a (b ++ e)) e = true.
Proof.
  unfold PosixPath.join.
  destruct (PyStr.startswith (b ++ e) PosixPath.sep_s).
  - apply endswith_app.
  - destruct (negb (PyStr.truthy a) || PyStr.endswith a PosixPath.sep_s).
    + rewrite <- str_app_assoc. apply endswith_app.
    + rewrite <- !str_app_assoc. apply endswith_app.
Qed.

Lemma str_app_inv_head (a b c : string) : a ++ b = a ++ c -> b = c.
Proof.
  induction a as [|x a IH]; intros H; [exact H|].
  apply IH. change (String x (a ++ b) = String x (a ++ c)) in H.
  inversion H. reflexivity.
Qed.

(** Two ways of cutting the same string. *)
Lemma str_app_eq_inv (a : string) : forall b c d,
  a ++ b = c ++ d -> String.length c <= String.length a ->
  exists x, a = c ++ x /\ d = x ++ b.
Proof.
  induction a as [|y a IH]; intros b [|z c] d H Hlen.
  - exists "". split; [reflexivity | symmetry; exact H].
  - cbn in Hlen. lia.
  - exists (String y a). split; [reflexivity | symmetry; exact H].
  - change (String y (a ++ b) = String z (c ++ d)) in H. inversion H; subst.
    destruct (IH b c d H2) as (x & -> & ->); [cbn in Hlen; lia|].
    exists x. split; reflexivity.
Qed.

Lemma endswith_inv name e :
  PyStr.endswith name e = true -> exists pre, name = pre ++ e.
Proof.
  unfold PyStr.endswith. intros H. apply andb_true_iff in H.
  destruct H as [_ H]. apply String.eqb_eq in H.
  exists (PyStr.slice_to (String.length name - String.length e) name).
  pose proof (slice_to_from (String.length name - String.length e) name) as E.
  rewrite H in E. symmetry. exact E.
Qed.

(** Of two endings of one name, the shorter is an ending of the longer. *)
Lemma endswith_two name e1 e2 :
  PyStr.endswith name e1 = true -> PyStr.endswith name e2 = true ->
  String.length e1 <= String.length e2 ->
  e1 = PyStr.slice_from (String.length e2 - String.length e1) e2.
Proof.
  intros H1 H2 Hlen.
  destruct (endswith_inv _ _ H1) as [p1 E1].
  destruct (endswith_inv _ _ H2) as [p2 E2].
  rewrite E1 in E2.
  assert (Hp : String.length p2 <= String.length p1).
  { apply (f_equal String.length) in E2. rewrite !str_length_app in E2. lia. }
  destruct (str_app_eq_inv _ _ _ _ E2 Hp) as (x & _ & ->).
  rewrite str_length_app.
  replace (String.length x + String.length e1 - String.length e1)
    with (String.length x) by lia.
  symmetry. apply slice_from_app.
Qed.

(** Joining to the same directory keeps different relative names apart. *)
Lemma join_injective d x y :
  PyStr.startswith x PosixPath.sep_s = false ->
  PyStr.startswith y PosixPath.sep_s = false ->
  PosixPath.join d x = PosixPath.join d y -> x = y.
Proof.
  unfold PosixPath.join. intros -> ->.
  destruct (negb (PyStr.truthy d) || PyStr.endswith d PosixPath.sep_s); intros H.
  - exact (str_app_inv_head _ _ _ H).
  - apply str_app_inv_head in H. exact (str_app_inv_head _ _ _ H).
Qed.

(** *** The last slash of a path *)

Lemma rfind_from_app c a : forall b pos best,
  PyStr.rfind_from c (a ++ b) pos best
  = PyStr.rfind_from c b (pos + Z.of_nat (String.length a))
                     (PyStr.rfind_from c a pos best).
Proof.
  induction a as [|x a IH]; intros b pos best.
  - cbn. rewrite Z.add_0_r. reflexivity.
  - change (PyStr.rfind_from c (a ++ b) (pos + 1)
              (if Ascii.eqb c x then pos else best)
            = PyStr.rfind_from c b (pos + Z.of_nat (S (String.length a)))
                (PyStr.rfind_from c a (pos + 1)
                   (if Ascii.eqb c x then pos else best))).
    rewrite IH. f_equal. lia.
Qed.

Lemma rfind_from_slash_free n : forall pos best,
  slash_free n = true -> PyStr.rfind_from PosixPath.sep n pos best = best.
Proof.
  induction n as [|x n IH]; intros pos best H; [reflexivity|].
  change (negb (Ascii.eqb PosixPath.sep x) && slash_free n = true) in H.
  apply andb_true_iff in H. destruct H as [Hx Hn].
  apply negb_true_iff in Hx.
  change (PyStr.rfind_from PosixPath.sep n (pos + 1)
            (if Ascii.eqb PosixPath.sep x then pos else best) = best).
  rewrite Hx. apply IH. exact Hn.
Qed.

(** The last [/] of [head/n] is the one written. *)
Lemma rfind_last_sep head n :
  slash_free n = true ->
  PyStr.rfind PosixPath.sep (head ++ "/" ++ n) = Z.of_nat (String.length head).
Proof.
  intros Hn. unfold PyStr.rfind. rewrite rfind_from_app.
  change ("/" ++ n) with (String "/" n).
  change (PyStr.rfind_from PosixPath.sep n
            (0 + Z.of_nat (String.length head) + 1)
            (if Ascii.eqb PosixPath.sep "/" then 0 + Z.of_nat (String.length head)
             else PyStr.rfind_from PosixPath.sep head 0 (-1))
          = Z.of_nat (String.length head)).
  rewrite rfind_from_slash_free by exact Hn. cbn. reflexivity.
Qed.

Lemma split_at_last_sep head n :
  slash_free n = true ->
  PyStr.slice_to (Z.to_nat (PyStr.rfind PosixPath.sep (head ++ "/" ++ n) + 1))
                 (head ++ "/" ++ n) = head ++ "/"
  /\ PosixPath.basename (head ++ "/" ++ n) = n.
Proof.
  intros Hn. unfold PosixPath.basename. rewrite (rfind_last_sep head n Hn).
  replace (Z.to_nat (Z.of_nat (String.length head) + 1))
    with (String.length (head ++ "/"))
    by (rewrite str_length_app; cbn; lia).
  rewrite <- (str_app_assoc head "/" n).
  split; [apply slice_to_app | apply slice_from_app].
Qed.

Lemma str_last (d : string) :
  d <> "" -> exists d0 c, d = d0 ++ String c "".
Proof.
  induction d as [|x d IH]; intros H; [congruence|].
  destruct d as [|y d].
  - exists "", x. reflexivity.
  - destruct IH as (d0 & c & E); [discriminate|].
    exists (String x d0), c. rewrite E. reflexivity.
Qed.

Lemma no_trailing_sep d :
  d <> "" -> PyStr.endswith d "/" = false ->
  exists d0 c, d = d0 ++ String c "" /\ Ascii.eqb PosixPath.sep c = false.
Proof.
  intros Hd He. destruct (str_last d Hd) as (d0 & c & E).
  exists d0, c. split; [exact E|].
  destruct (Ascii.eqb PosixPath.sep c) eqn:Hc; [|reflexivity].
  apply Ascii.eqb_eq in Hc. subst c d.
  change (String PosixPath.sep "") with "/" in He.
  rewrite endswith_app in He. discriminate.
Qed.

Lemma rstrip_all c b : PyStr.all_char c b = true -> PyStr.rstrip c b = "".
Proof.
  induction b as [|x b IH]; intros H; [reflexivity|].
  change (Ascii.eqb c x && PyStr.all_char c b = true) in H.
  apply andb_true_iff in H. destruct H as [Hx Hb].
  change (match PyStr.rstrip c b with
          | "" => if Ascii.eqb c x then "" else String x ""
          | r => String x r
          end = "").
  rewrite (IH Hb), Hx. reflexivity.
Qed.

Lemma rstrip_last c d0 x :
  Ascii.eqb c x = false -> PyStr.rstrip c (d0 ++ String x "") = d0 ++ String x "".
Proof.
  intros Hx. induction d0 as [|y d0 IH].
  - change ((if Ascii.eqb c x then "" else String x "") = String x "").
    rewrite Hx. reflexivity.
  - change (match PyStr.rstrip c (d0 ++ String x "") with
            | "" => if Ascii.eqb c y then "" else String y ""
            | r => String y r
            end = String y (d0 ++ String x "")).
    rewrite IH. destruct d0; reflexivity.
Qed.

Lemma rstrip_app c a : forall b,
  PyStr.all_char c b = true -> PyStr.rstrip c (a ++ b) = PyStr.rstrip c a.
Proof.
  induction a as [|y a IH]; intros b Hb.
  - change (PyStr.rstrip c b = ""). apply rstrip_all. exact Hb.
  - change (match PyStr.rstrip c (a ++ b) with
            | "" => if Ascii.eqb c y then "" else String y ""
            | r => String y r
            end = match PyStr.rstrip c a with
                  | "" => if Ascii.eqb c y then "" else String y ""
                  | r => String y r
                  end).
    rewrite (IH b Hb). reflexivity.
Qed.

Lemma all_char_app c a b :
  PyStr.all_char c (a ++ b) = PyStr.all_char c a && PyStr.all_char c b.
Proof.
  induction a as [|y a IH]; [reflexivity|].
  change (Ascii.eqb c y && PyStr.all_char c (a ++ b)
          = Ascii.eqb c y && PyStr.all_char c a && PyStr.all_char c b).
  rewrite IH, andb_assoc. reflexivity.
Qed.

(** [os.path.dirname] of a directory followed by slashes and a name. *)
Lemma dirname_strips d slashes n :
  d <> "" -> PyStr.endswith d "/" = false -> slash_free n = true ->
  PyStr.all_char PosixPath.sep slashes = true ->
  PosixPath.dirname ((d ++ slashes) ++ "/" ++ n) = d
  /\ PosixPath.basename ((d ++ slashes) ++ "/" ++ n) = n.
Proof.
  intros Hd He Hn Hs.
  destruct (split_at_last_sep (d ++ slashes) n Hn) as [Hhead Hbase].
  split; [|exact Hbase].
  unfold PosixPath.dirname. cbv zeta. rewrite Hhead.
  destruct (no_trailing_sep d Hd He) as (d0 & c & -> & Hc).
  assert (Hall : PyStr.all_char PosixPath.sep
                   (((d0 ++ String c "") ++ slashes) ++ "/") = false).
  { rewrite !all_char_app.
    change (PyStr.all_char PosixPath.sep (String c ""))
      with (Ascii.eqb PosixPath.sep c && true).
    rewrite Hc, andb_false_r. reflexivity. }
  rewrite Hall.
  assert (Ht : PyStr.truthy (((d0 ++ String c "") ++ slashes) ++ "/") = true).
  { destruct d0; reflexivity. }
  rewrite Ht. cbn [andb negb].
  rewrite str_app_assoc.
  rewrite rstrip_app; [apply rstrip_last; exact Hc|].
  rewrite all_char_app, Hs. reflexivity.
Qed.

Lemma slash_free_start n : slash_free n = true -> PyStr.startswith n "/" = false.
Proof.
  destruct n as [|x n]; [reflexivity|]. intros H.
  change (negb (Ascii.eqb PosixPath.sep x) && slash_free n = true) in H.
  apply andb_true_iff in H. destruct H as [Hx _]. apply negb_true_iff in Hx.
  destruct (PyStr.startswith (String x n) "/") eqn:E; [|reflexivity].
  destruct (startswith_inv _ _ E) as [t Ht].
  change ("/" ++ t) with (String "/" t) in Ht. inversion Ht; subst x.
  discriminate.
Qed.

Lemma join_plain d n :
  d <> "" -> PyStr.endswith d "/" = false -> slash_free n = true ->
  PosixPath.join d n = d ++ "/" ++ n.
Proof.
  intros Hd He Hn. unfold PosixPath.join, PosixPath.sep_s.
  rewrite (slash_free_start n Hn), He.
  destruct d; [congruence | reflexivity].
Qed.

End StringFacts.

(* ===================================================================== *)
(** ** Facts about [convert_image] *)
(* ===================================================================== *)

Module ConverterFacts.
Import Py PIL Converter ConverterNotions Samples.

Lemma convert_image_cases heif_path output_dir quality ps ke rp w :
  match convert_image_body heif_path output_dir quality ps ke rp w with
  | (Return r, w') =>
      convert_image heif_path output_dir quality ps ke rp w = (Return r, w')
  | (Raise e, w') =>
      convert_image heif_path output_dir quality ps ke rp w = failed heif_path e w'
  end.
Proof.
  unfold convert_image, try_except.
  destruct (convert_image_body _ _ _ _ _ _ w) as [[r|e] w']; reflexivity.
Qed.

Lemma Image_open_world path w : snd (Image_open path w) = w.
Proof.
  unfold Image_open.
  destruct (if PyStr.truthy path then files w !! key w path else None)
    as [[r|px sz q ex]|]; try reflexivity.
  destruct (isdir w path); reflexivity.
Qed.

Lemma resolve_keeps_clock heif_path output_dir ps w :
  now (snd (resolve_output_dir heif_path output_dir ps w)) = now w.
Proof.
  assert (Hstep : forall name leaf q w0, now (snd (mkdir_step name leaf q w0)) = now w0).
  { intros name leaf q w0. unfold mkdir_step.
    repeat match goal with |- context [if ?c then _ else _] => destruct c end;
      reflexivity. }
  assert (Hchain : forall name leaf qs w0,
             now (snd (mkdir_chain name leaf qs w0)) = now w0).
  { intros name leaf qs. induction qs as [|q qs IH]; intros w0; [reflexivity|].
    cbn [mkdir_chain]. unfold bind.
    specialize (Hstep name leaf q w0).
    destruct (mkdir_step name leaf q w0) as [[[]|e] w1]; cbn in *.
    - rewrite IH. exact Hstep.
    - exact Hstep. }
  unfold resolve_output_dir.
  destruct (ps && PosixPath.isabs heif_path); [|reflexivity].
  destruct (negb _); [|reflexivity].
  unfold bind, get_world.
  destruct (PosixPath.relpath _ _ _) as [rel|]; [|reflexivity].
  unfold makedirs_exist_ok.
  destruct (negb (PyStr.truthy _)); [reflexivity|].
  specialize (Hchain (PosixPath.join output_dir rel)
                     (key w (PosixPath.join output_dir rel))
                     (ancestors (key w (PosixPath.join output_dir rel))) w).
  destruct (mkdir_chain _ _ _ w) as [[[]|e] w1]; cbn in *; exact Hchain.
Qed.

Lemma body_after_resolve heif_path output_dir quality ps ke rp w d w1 :
  resolve_output_dir heif_path output_dir ps w = (Return d, w1) ->
  convert_image_body heif_path output_dir quality ps ke rp w =
  match fst (Image_open heif_path w1) with
  | Raise e => (Raise e, w1)
  | Return im =>
      match read_exif im (PosixPath.basename heif_path) ke w1 with
      | (Raise e, w2) => (Raise e, w2)
      | (Return ex, w2) =>
          match to_final_image im with
          | Raise e => (Raise e, w2)
          | Return px =>
              match save_JPEG px (im_size im)
                              (jpeg_path_in d heif_path rp (now w1)) quality
                              (if exif_wanted ex ke then ex else None) w2 with
              | (Raise e, w3) => (Raise e, w3)
              | (Return _, w3) =>
                  (Return (true, jpeg_path_in d heif_path rp (now w1)), w3)
              end
          end
      end
  end.
Proof.
  intros Hres. unfold convert_image_body, bind at 1. rewrite Hres.
  unfold bind at 1, get_world. unfold bind at 1.
  pose proof (Image_open_world heif_path w1) as Hw.
  destruct (Image_open heif_path w1) as [[im|e] w1']; cbn in Hw; subst w1';
    cbn [fst]; [|reflexivity].
  unfold bind at 1.
  destruct (read_exif im _ ke w1) as [[ex|e] w2]; [|reflexivity].
  unfold bind at 1, lift.
  destruct (to_final_image im) as [px|e]; [|reflexivity].
  unfold bind, ret, jpeg_path_in.
  destruct (exif_wanted ex ke);
    destruct (save_JPEG _ _ _ _ _ w2) as [[[]|e] w3]; reflexivity.
Qed.

Lemma read_exif_never_raises im filename ke w :
  exists ex w', read_exif im filename ke w = (Return ex, w').
Proof.
  unfold read_exif. destruct ke; [|eexists _, _; reflexivity].
  unfold try_except, bind, lift, getexif.
  destruct (im_exif im); eexists _, _; reflexivity.
Qed.

(** C1. Whatever the request and the state of the disk, [convert_image]
    returns a pair and never raises; every exception raised in its body
    comes back as [(False, str(e))], in particular a failure of
    [Image.open] (decode), of the lazy decoding of the pixels, and of
    [save] (encode). *)
Theorem convert_image_captures_failures
        heif_path output_dir quality ps ke rp w :
  (exists b s w',
      convert_image heif_path output_dir quality ps ke rp w = (Return (b, s), w'))
  /\ (forall e w',
        convert_image_body heif_path output_dir quality ps ke rp w = (Raise e, w') ->
        convert_image heif_path output_dir quality ps ke rp w = failed heif_path e w')
  /\ (forall d w1 e,
        resolve_output_dir heif_path output_dir ps w = (Return d, w1) ->
        fst (Image_open heif_path w1) = Raise e ->
        fst (convert_image heif_path output_dir quality ps ke rp w)
        = Return (false, str e))
  /\ (forall d w1 im e,
        resolve_output_dir heif_path output_dir ps w = (Return d, w1) ->
        fst (Image_open heif_path w1) = Return im ->
        to_final_image im = Raise e ->
        fst (convert_image heif_path output_dir quality ps ke rp w)
        = Return (false, str e))
  /\ (forall d w1 im ex w2 px e w3,
        resolve_output_dir heif_path output_dir ps w = (Return d, w1) ->
        fst (Image_open heif_path w1) = Return im ->
        read_exif im (PosixPath.basename heif_path) ke w1 = (Return ex, w2) ->
        to_final_image im = Return px ->
        save_JPEG px (im_size im) (jpeg_path_in d heif_path rp (now w1)) quality
                  (if exif_wanted ex ke then ex else None) w2 = (Raise e, w3) ->
        fst (convert_image heif_path output_dir quality ps ke rp w)
        = Return (false, str e)).
Proof.
  pose proof (convert_image_cases heif_path output_dir quality ps ke rp w) as Hc.
  repeat split.
  - destruct (convert_image_body _ _ _ _ _ _ w) as [[[b s]|e] w'].
    + exists b, s, w'. exact Hc.
    + eexists _, _, _. rewrite Hc. reflexivity.
  - intros e w' Hb. rewrite Hb in Hc. exact Hc.
  - intros d w1 e Hres Hopen.
    rewrite (body_after_resolve _ _ quality _ ke rp _ _ _ Hres), Hopen in Hc.
    rewrite Hc. reflexivity.
  - intros d w1 im e Hres Hopen Hfin.
    rewrite (body_after_resolve _ _ quality _ ke rp _ _ _ Hres), Hopen in Hc.
    destruct (read_exif_never_raises im (PosixPath.basename heif_path) ke w1)
      as (ex & w2 & Hex).
    rewrite Hex, Hfin in Hc. rewrite Hc. reflexivity.
  - intros d w1 im ex w2 px e w3 Hres Hopen Hex Hfin Hsave.
    rewrite (body_after_resolve _ _ quality _ ke rp _ _ _ Hres), Hopen, Hex,
      Hfin, Hsave in Hc.
    rewrite Hc. reflexivity.
Qed.

(** A corrupt source: [Image.open] raises, [convert_image] reports it. *)
Lemma convert_image_captures_failures_witness :
  resolve_output_dir "/pics/bad.heic" "/out" false sample_world
  = (Return "/out", sample_world)
  /\ fst (Image_open "/pics/bad.heic" sample_world) = corrupt
  /\ fst (convert_image "/pics/bad.heic" "/out" 90 false true None sample_world)
     = Return (false, "cannot identify image file '/pics/bad.heic'").
Proof.
  split; [vm_compute; reflexivity|]. split; [vm_compute; reflexivity|].
  apply (proj1 (proj2 (proj2
           (convert_image_captures_failures "/pics/bad.heic" "/out" 90 false
                                            true None sample_world)))
           "/out" sample_world
           (mk_exn UnidentifiedImageError
                   "cannot identify image file '/pics/bad.heic'"));
    vm_compute; reflexivity.
Defined.

(** *** Metadata *)

Lemma save_ignores_log px sz p q ex lvl msg w :
  fst (save_JPEG px sz p q ex (snd (logger lvl msg w)))
  = fst (save_JPEG px sz p q ex w).
Proof.
  unfold save_JPEG, logger, key, is_dir_key; cbn.
  repeat match goal with |- context [if ?c then _ else _] => destruct c end;
    reflexivity.
Qed.

Lemma save_writes px sz p q ex w w' :
  save_JPEG px sz p q ex w = (Return tt, w') ->
  files w' !! key w' p = Some (Jpeg px sz q ex).
Proof.
  unfold save_JPEG.
  repeat match goal with |- context [if ?c then _ else _] => destruct c end;
    intros H; inversion H; subst; clear H.
  unfold key; cbn. apply lookup_insert_eq.
Qed.

(** C7. With [keep_exif] set and [getexif()] raising, the conversion goes
    on as if there were no metadata: the outcome is the one of the same
    request with [keep_exif] unset, and when the picture converts and
    [save] succeeds the result is [(True, jpeg_path)] with a JPEG written
    without EXIF. *)
Theorem exif_failure_is_no_metadata
        heif_path output_dir quality ps rp w d w1 im e :
  resolve_output_dir heif_path output_dir ps w = (Return d, w1) ->
  fst (Image_open heif_path w1) = Return im ->
  getexif im = Raise e ->
  fst (convert_image heif_path output_dir quality ps true rp w)
  = fst (convert_image heif_path output_dir quality ps false rp w)
  /\ (forall px w3,
        to_final_image im = Return px ->
        save_JPEG px (im_size im) (jpeg_path_in d heif_path rp (now w1)) quality
                  None (warned heif_path e w1) = (Return tt, w3) ->
        convert_image heif_path output_dir quality ps true rp w
        = (Return (true, jpeg_path_in d heif_path rp (now w1)), w3)
        /\ files w3 !! key w3 (jpeg_path_in d heif_path rp (now w1))
           = Some (Jpeg px (im_size im) quality None)).
Proof.
  intros Hres Hopen Hexif.
  pose proof (convert_image_cases heif_path output_dir quality ps true rp w) as Ht.
  pose proof (convert_image_cases heif_path output_dir quality ps false rp w) as Hf.
  rewrite (body_after_resolve _ _ quality _ true rp _ _ _ Hres), Hopen in Ht.
  rewrite (body_after_resolve _ _ quality _ false rp _ _ _ Hres), Hopen in Hf.
  assert (Hread : read_exif im (PosixPath.basename heif_path) true w1
                  = (Return None, warned heif_path e w1)).
  { unfold read_exif, try_except, bind, lift. rewrite Hexif. reflexivity. }
  rewrite Hread in Ht. cbn [read_exif ret exif_wanted] in Ht, Hf.
  split.
  - destruct (to_final_image im) as [px|e'].
    + pose proof (save_ignores_log px (im_size im)
                    (jpeg_path_in d heif_path rp (now w1)) quality None WARNING
                    ("Could not extract EXIF from "
                     ++ PosixPath.basename heif_path ++ ": " ++ str e) w1) as Hs.
      fold (warned heif_path e w1) in Hs.
      destruct (save_JPEG _ _ _ _ _ (warned heif_path e w1)) as [[[]|e1] wa];
        destruct (save_JPEG _ _ _ _ _ w1) as [[[]|e2] wb];
        cbn in Hs; try discriminate; rewrite Ht, Hf; try reflexivity.
      inversion Hs; subst. reflexivity.
    + rewrite Ht, Hf. reflexivity.
  - intros px w3 Hfin Hsave. rewrite Hfin, Hsave in Ht.
    split; [exact Ht | exact (save_writes _ _ _ _ _ _ _ Hsave)].
Qed.

Lemma exif_failure_is_no_metadata_witness :
  resolve_output_dir "/pics/c.heic" "/out" false sample_world
  = (Return "/out", sample_world)
  /\ fst (Image_open "/pics/c.heic" sample_world) = Return no_exif_picture
  /\ getexif no_exif_picture = Raise (mk_exn ValueError "invalid EXIF block")
  /\ fst (convert_image "/pics/c.heic" "/out" 90 false true None sample_world)
     = fst (convert_image "/pics/c.heic" "/out" 90 false false None sample_world)
  /\ fst (convert_image "/pics/c.heic" "/out" 90 false true None sample_world)
     = Return (true, "/out/c.jpg").
Proof.
  split; [vm_compute; reflexivity|]. split; [vm_compute; reflexivity|].
  split; [reflexivity|].
  split.
  - apply (exif_failure_is_no_metadata "/pics/c.heic" "/out" 90 false None
             sample_world "/out" sample_world no_exif_picture
             (mk_exn ValueError "invalid EXIF block"));
      vm_compute; reflexivity.
  - vm_compute; reflexivity.
Defined.

End ConverterFacts.

(* ===================================================================== *)
(** ** Facts about the output name and the output directory *)
(* ===================================================================== *)

Module NamingFacts.
Import Py PIL Converter ConverterNotions Samples StringFacts ConverterFacts.

(** *** The timestamp *)

Lemma dec_digits_unfold fuel n acc :
  PyStr.dec_digits (S fuel) n acc =
  if (n / 10 =? 0)%nat then String (PyStr.digit n) acc
  else PyStr.dec_digits fuel (n / 10) (String (PyStr.digit n) acc).
Proof. reflexivity. Qed.

Lemma dec_digits_fuel f1 : forall f2 n acc,
  (n < 10 ^ S f1)%nat -> (n < 10 ^ S f2)%nat ->
  PyStr.dec_digits (S f1) n acc = PyStr.dec_digits (S f2) n acc.
Proof.
  induction f1 as [|f1 IH]; intros f2 n acc H1 H2; rewrite !dec_digits_unfold;
    destruct (n / 10 =? 0)%nat eqn:E; try reflexivity; apply Nat.eqb_neq in E.
  - exfalso. apply E. apply Nat.div_small. cbn in H1. lia.
  - destruct f2 as [|f2].
    + exfalso. apply E. apply Nat.div_small. cbn in H2. lia.
    + apply IH; apply Nat.Div0.div_lt_upper_bound;
        rewrite <- Nat.pow_succ_r'; assumption.
Qed.

Lemma of_nat_fuel n f :
  (n < 10 ^ S f)%nat -> PyStr.of_nat n = PyStr.dec_digits (S f) n EmptyString.
Proof.
  intros H. unfold PyStr.of_nat. apply dec_digits_fuel; [|exact H].
  apply Nat.lt_le_trans with (10 ^ n)%nat.
  - apply Nat.pow_gt_lin_r. lia.
  - apply Nat.pow_le_mono_r; lia.
Qed.

Lemma digit_zero n : (n = 0)%nat -> PyStr.digit n = "0"%char.
Proof. intros ->. reflexivity. Qed.

Lemma padded_two n : (n < 100)%nat -> Clock.padded 2 n = two_digits n.
Proof.
  intros H. unfold Clock.padded, two_digits.
  rewrite (of_nat_fuel n 1) by (cbn; lia).
  rewrite !dec_digits_unfold.
  assert (H10 : (n / 10 / 10 = 0)%nat).
  { apply Nat.div_small. apply Nat.Div0.div_lt_upper_bound. lia. }
  destruct (n / 10 =? 0)%nat eqn:E.
  - apply Nat.eqb_eq in E. rewrite E. reflexivity.
  - rewrite H10. reflexivity.
Qed.

Lemma padded_four n :
  (10 * 100 <= n < 100 * 100)%nat -> Clock.padded 4 n = four_digits n.
Proof.
  intros [Hlo Hhi]. unfold Clock.padded, four_digits.
  assert (Hpow : (10 ^ 4 = 100 * 100)%nat) by reflexivity.
  rewrite (of_nat_fuel n 3) by (rewrite Hpow; exact Hhi).
  rewrite !dec_digits_unfold.
  assert (H1 : (n / 10 =? 0)%nat = false).
  { apply Nat.eqb_neq. intros E. apply Nat.div_small_iff in E; lia. }
  assert (E2 : (n / 10 / 10 = n / 100)%nat) by (rewrite Nat.Div0.div_div; reflexivity).
  assert (E3 : (n / 100 / 10 = n / 1000)%nat) by (rewrite Nat.Div0.div_div; reflexivity).
  assert (H2 : (n / 100 =? 0)%nat = false).
  { apply Nat.eqb_neq. intros E. apply Nat.div_small_iff in E; lia. }
  assert (H3 : (n / 1000 =? 0)%nat = false).
  { apply Nat.eqb_neq. intros E. apply Nat.div_small_iff in E; lia. }
  assert (H4 : (n / 1000 / 10 =? 0)%nat = true).
  { apply Nat.eqb_eq. apply Nat.div_small.
    apply Nat.Div0.div_lt_upper_bound. lia. }
  rewrite H1, E2, H2, E3, H3, H4. reflexivity.
Qed.

(** The shape [YYYYMMDD_HHMMSS]. *)
Lemma strftime_shape t :
  Clock.four_digit_era t ->
  Clock.strftime_Ymd_HMS t =
  four_digits (Clock.year t) ++ two_digits (Clock.month t)
  ++ two_digits (Clock.day t) ++ "_" ++ two_digits (Clock.hour t)
  ++ two_digits (Clock.minute t) ++ two_digits (Clock.second t).
Proof.
  intros (Hy & Hm & Hd & Hh & Hmi & Hs). unfold Clock.strftime_Ymd_HMS.
  rewrite padded_four by exact Hy.
  rewrite !padded_two by lia. reflexivity.
Qed.

(** *** The rename pattern *)

Lemma output_name_no_pattern heif_path rp t :
  pattern_given rp = None -> output_name heif_path rp t = base_name heif_path.
Proof. intros H. unfold output_name. rewrite H. reflexivity. Qed.

(** **** Text without an opening brace *)

Lemma brace_free_app a b :
  SpecWords.brace_free (a ++ b) = SpecWords.brace_free a && SpecWords.brace_free b.
Proof.
  induction a as [|x a IH]; [reflexivity|].
  change (negb (Ascii.eqb "{" x) && SpecWords.brace_free (a ++ b)
          = negb (Ascii.eqb "{" x) && SpecWords.brace_free a
            && SpecWords.brace_free b).
  rewrite IH, andb_assoc. reflexivity.
Qed.

Lemma digit_is_no_brace n : Ascii.eqb "{" (PyStr.digit n) = false.
Proof.
  unfold PyStr.digit. pose proof (Nat.mod_upper_bound n 10 ltac:(lia)) as H.
  destruct (n mod 10) as [|[|[|[|[|[|[|[|[|[|k]]]]]]]]]]; try reflexivity. lia.
Qed.

Lemma dec_digits_brace_free fuel : forall n acc,
  SpecWords.brace_free acc = true ->
  SpecWords.brace_free (PyStr.dec_digits fuel n acc) = true.
Proof.
  induction fuel as [|fuel IH]; intros n acc H; [exact H|].
  rewrite dec_digits_unfold.
  assert (H1 : SpecWords.brace_free (String (PyStr.digit n) acc) = true).
  { change (negb (Ascii.eqb "{" (PyStr.digit n)) && SpecWords.brace_free acc = true).
    rewrite digit_is_no_brace, H. reflexivity. }
  destruct (n / 10 =? 0)%nat; [exact H1 | apply IH; exact H1].
Qed.

Lemma padded_brace_free width n :
  SpecWords.brace_free (Clock.padded width n) = true.
Proof.
  unfold Clock.padded. rewrite brace_free_app.
  apply andb_true_iff. split.
  - induction (width - String.length (PyStr.of_nat n))%nat as [|k IH];
      [reflexivity | exact IH].
  - apply dec_digits_brace_free. reflexivity.
Qed.

Lemma strftime_brace_free t :
  SpecWords.brace_free (Clock.strftime_Ymd_HMS t) = true.
Proof.
  unfold Clock.strftime_Ymd_HMS.
  rewrite !brace_free_app, !padded_brace_free. reflexivity.
Qed.

(** **** [str.replace] on a pattern *)

Lemma replace_scan_skip old new a : forall rest,
  PyStr.replace_scan old new (String.length a) (a ++ rest)
  = PyStr.replace_scan old new 0 rest.
Proof.
  induction a as [|c a IH]; intros rest.
  - destruct rest; reflexivity.
  - exact (IH rest).
Qed.

Lemma replace_scan_hit c old new rest :
  PyStr.replace_scan (String c old) new 0 (String c old ++ rest)
  = new ++ PyStr.replace_scan (String c old) new 0 rest.
Proof.
  pose proof (startswith_app (String c old) rest) as Hp.
  unfold PyStr.startswith in Hp.
  change (String c old ++ rest) with (String c (old ++ rest)) in *.
  change ((if String.prefix (String c old) (String c (old ++ rest))
           then new ++ PyStr.replace_scan (String c old) new
                         (String.length (String c old) - 1) (old ++ rest)
           else String c (PyStr.replace_scan (String c old) new 0 (old ++ rest)))
          = new ++ PyStr.replace_scan (String c old) new 0 rest).
  rewrite Hp.
  replace (String.length (String c old) - 1)%nat with (String.length old)
    by (cbn; lia).
  rewrite replace_scan_skip. reflexivity.
Qed.

Lemma replace_scan_miss old new c rest :
  Ascii.eqb "{" c = false ->
  PyStr.replace_scan (String "{" old) new 0 (String c rest)
  = String c (PyStr.replace_scan (String "{" old) new 0 rest).
Proof.
  intros Hc.
  change ((if String.prefix (String "{" old) (String c rest)
           then new ++ PyStr.replace_scan (String "{" old) new
                         (String.length (String "{" old) - 1) rest
           else String c (PyStr.replace_scan (String "{" old) new 0 rest))
          = String c (PyStr.replace_scan (String "{" old) new 0 rest)).
  assert (Hp : String.prefix (String "{" old) (String c rest) = false).
  { change (String.prefix (String "{" old) (String c rest))
      with (if ascii_dec "{" c then String.prefix old rest else false).
    destruct (ascii_dec "{" c) as [E|E]; [|reflexivity].
    subst c. discriminate. }
  rewrite Hp. reflexivity.
Qed.

Lemma replace_scan_text old new v : forall rest,
  SpecWords.brace_free v = true ->
  PyStr.replace_scan (String "{" old) new 0 (v ++ rest)
  = v ++ PyStr.replace_scan (String "{" old) new 0 rest.
Proof.
  induction v as [|c v IH]; intros rest H; [reflexivity|].
  change (negb (Ascii.eqb "{" c) && SpecWords.brace_free v = true) in H.
  apply andb_true_iff in H. destruct H as [Hc Hv]. apply negb_true_iff in Hc.
  change (String c v ++ rest) with (String c (v ++ rest)).
  rewrite (replace_scan_miss old new c _ Hc), (IH rest Hv). reflexivity.
Qed.

(** A placeholder other than the one replaced is copied. *)
Lemma replace_scan_other old new other rest :
  SpecWords.brace_free other = true ->
  String.prefix (String "{" old) (String "{" other ++ rest) = false ->
  PyStr.replace_scan (String "{" old) new 0 (String "{" other ++ rest)
  = String "{" other ++ PyStr.replace_scan (String "{" old) new 0 rest.
Proof.
  intros Ho Hp.
  change (String "{" other ++ rest) with (String "{" (other ++ rest)) in *.
  change ((if String.prefix (String "{" old) (String "{" (other ++ rest))
           then new ++ PyStr.replace_scan (String "{" old) new
                         (String.length (String "{" old) - 1) (other ++ rest)
           else String "{" (PyStr.replace_scan (String "{" old) new 0
                                               (other ++ rest)))
          = String "{" (other ++ PyStr.replace_scan (String "{" old) new 0 rest)).
  rewrite Hp. rewrite (replace_scan_text old new other rest Ho). reflexivity.
Qed.

Ltac piece_step IH :=
  match goal with
  | |- PyStr.replace_scan _ _ 0 (String ?c EmptyString ++ ?r) = _ =>
      change (String c EmptyString ++ r) with (String c r);
      rewrite replace_scan_miss by assumption; rewrite IH; reflexivity
  | |- PyStr.replace_scan ?o _ 0 (?o ++ _) = _ =>
      rewrite replace_scan_hit; rewrite IH; reflexivity
  | |- PyStr.replace_scan _ _ 0 (String "{" ?v ++ _) = _ =>
      rewrite replace_scan_other by reflexivity; rewrite IH; reflexivity
  | |- PyStr.replace_scan _ _ 0 (?v ++ _) = _ =>
      rewrite replace_scan_text by assumption; rewrite IH; reflexivity
  end.

Lemma plain_cons x ps :
  SpecWords.plain (x :: ps) = true ->
  match x with SpecWords.Text c => Ascii.eqb "{" c = false | _ => True end
  /\ SpecWords.plain ps = true.
Proof.
  unfold SpecWords.plain. cbn [forallb]. intros H.
  apply andb_true_iff in H. destruct H as [Hx Hps]. split; [|exact Hps].
  destruct x; try exact I. apply negb_true_iff. exact Hx.
Qed.

Lemma replace_name ps base :
  SpecWords.plain ps = true ->
  PyStr.replace (SpecWords.written ps) "{name}" base
  = SpecWords.render (Some base) None None ps.
Proof.
  unfold SpecWords.written, PyStr.replace.
  induction ps as [|x ps IH]; intros H; [reflexivity|].
  destruct (plain_cons x ps H) as [Hx Hps]. specialize (IH Hps).
  destruct x; cbn [SpecWords.render SpecWords.shown]; piece_step IH.
Qed.

Lemma replace_timestamp ps base ts :
  SpecWords.plain ps = true -> SpecWords.brace_free base = true ->
  PyStr.replace (SpecWords.render (Some base) None None ps) "{timestamp}" ts
  = SpecWords.render (Some base) (Some ts) None ps.
Proof.
  unfold PyStr.replace.
  induction ps as [|x ps IH]; intros H Hb; [reflexivity|].
  destruct (plain_cons x ps H) as [Hx Hps]. specialize (IH Hps Hb).
  destruct x; cbn [SpecWords.render SpecWords.shown]; piece_step IH.
Qed.

Lemma replace_counter ps base ts :
  SpecWords.plain ps = true -> SpecWords.brace_free base = true ->
  SpecWords.brace_free ts = true ->
  PyStr.replace (SpecWords.render (Some base) (Some ts) None ps) "{counter}" "1"
  = SpecWords.render (Some base) (Some ts) (Some "1") ps.
Proof.
  unfold PyStr.replace.
  induction ps as [|x ps IH]; intros H Hb Ht; [reflexivity|].
  destruct (plain_cons x ps H) as [Hx Hps]. specialize (IH Hps Hb Ht).
  destruct x; cbn [SpecWords.render SpecWords.shown]; piece_step IH.
Qed.

Lemma written_not_empty ps : ps <> [] -> PyStr.truthy (SpecWords.written ps) = true.
Proof.
  destruct ps as [|x ps]; [congruence|]. intros _.
  unfold SpecWords.written. cbn [SpecWords.render SpecWords.shown].
  destruct x; reflexivity.
Qed.

(** The three replacements of lines 99-103 give the pattern with its
    placeholders filled in. *)
Lemma output_name_pattern heif_path ps t :
  ps <> [] -> SpecWords.plain ps = true ->
  SpecWords.brace_free (base_name heif_path) = true ->
  output_name heif_path (Some (SpecWords.written ps)) t
  = SpecWords.substituted ps (base_name heif_path) (Clock.strftime_Ymd_HMS t).
Proof.
  intros Hne Hp Hb. unfold output_name, pattern_given. cbv zeta.
  rewrite (written_not_empty ps Hne). fold (base_name heif_path).
  rewrite (replace_name ps _ Hp), (replace_timestamp ps _ _ Hp Hb).
  apply replace_counter; [exact Hp | exact Hb | apply strftime_brace_free].
Qed.

(** **** The base name does not begin with a slash *)

Lemma last_sep_decompose p :
  slash_free p = true
  \/ exists head n, p = head ++ "/" ++ n /\ slash_free n = true.
Proof.
  induction p as [|c p IH]; [left; reflexivity|].
  destruct IH as [Hp | (head & n & -> & Hn)].
  - destruct (Ascii.eqb PosixPath.sep c) eqn:Hc.
    + right. exists "", p. split; [|exact Hp].
      apply Ascii.eqb_eq in Hc. subst c. reflexivity.
    + left. change (negb (Ascii.eqb PosixPath.sep c) && slash_free p = true).
      rewrite Hc, Hp. reflexivity.
  - right. exists (String c head), n. split; [reflexivity | exact Hn].
Qed.

Lemma basename_slash_free p : slash_free (PosixPath.basename p) = true.
Proof.
  destruct (last_sep_decompose p) as [Hp | (head & n & -> & Hn)].
  - unfold PosixPath.basename, PyStr.rfind.
    rewrite (rfind_from_slash_free p 0 (-1) Hp). exact Hp.
  - rewrite (proj2 (split_at_last_sep head n Hn)). exact Hn.
Qed.

Lemma slice_to_slash_free k : forall q,
  slash_free q = true -> slash_free (PyStr.slice_to k q) = true.
Proof.
  induction k as [|k IH]; intros [|c q] H; try reflexivity.
  change (negb (Ascii.eqb PosixPath.sep c) && slash_free q = true) in H.
  apply andb_true_iff in H. destruct H as [Hc Hq].
  change (negb (Ascii.eqb PosixPath.sep c) && slash_free (PyStr.slice_to k q)
          = true).
  rewrite Hc, (IH q Hq). reflexivity.
Qed.

Lemma skip_dots_root fuel q : forall a b,
  fst (PosixPath.skip_dots fuel q a b) = q
  \/ fst (PosixPath.skip_dots fuel q a b) = PyStr.slice_to (Z.to_nat b) q.
Proof.
  induction fuel as [|fuel IH]; intros a b; [left; reflexivity|].
  cbn [PosixPath.skip_dots].
  destruct (a <? b)%Z; [|left; reflexivity].
  destruct (negb _); [right; reflexivity | apply IH].
Qed.

Lemma base_name_start heif_path :
  PyStr.startswith (base_name heif_path) "/" = false.
Proof.
  apply slash_free_start. unfold base_name, PosixPath.splitext.
  pose proof (basename_slash_free heif_path) as Hb.
  cbv zeta. destruct (_ <? _)%Z; [|exact Hb].
  destruct (skip_dots_root (S (String.length (PosixPath.basename heif_path)))
              (PosixPath.basename heif_path)
              (PyStr.rfind PosixPath.sep (PosixPath.basename heif_path) + 1)
              (PyStr.rfind "." (PosixPath.basename heif_path))) as [E|E];
    rewrite E; [exact Hb | apply slice_to_slash_free; exact Hb].
Qed.

(** Where [os.path.join] only joins. *)
Lemma join_joined d n :
  PyStr.startswith n "/" = false -> PosixPath.join d n = SpecWords.joined d n.
Proof.
  intros H. unfold PosixPath.join, SpecWords.joined, PosixPath.sep_s.
  rewrite H. destruct d; reflexivity.
Qed.

Lemma startswith_ext n e c :
  PyStr.startswith n "/" = false -> c <> "/"%char ->
  PyStr.startswith (n ++ String c e) "/" = false.
Proof.
  intros H Hc. destruct n as [|x n].
  - unfold PyStr.startswith.
    change (String.prefix "/" ("" ++ String c e))
      with (if ascii_dec "/" c then String.prefix "" e else false).
    destruct (ascii_dec "/" c); [congruence | reflexivity].
  - unfold PyStr.startswith in *.
    change (String.prefix "/" (String x n ++ String c e))
      with (if ascii_dec "/" x then String.prefix "" (n ++ String c e) else false).
    change (String.prefix "/" (String x n))
      with (if ascii_dec "/" x then String.prefix "" n else false) in H.
    destruct (ascii_dec "/" x); [|reflexivity].
    destruct n; discriminate H.
Qed.

(** C3, as the code has it. Take a request that converts, [d] the
    resolved directory and [s] the path returned.  If the pattern is not
    empty, every opening brace in it begins one of the three
    placeholders, the base name of the source has no opening brace and
    the substituted name does not begin with a slash, then [s] is [d]
    joined with the pattern in which [{name}] stands for the base name
    without extension, [{timestamp}] for the current time and
    [{counter}] for the constant [1], plus [.jpg].  If the pattern is
    empty, [s] is [d] joined with the base name plus [.jpg].  The JPEG
    is written at [s], and the timestamp reads [YYYYMMDD_HHMMSS]. *)
Theorem pattern_names_output
        heif_path output_dir quality ps ke pieces w d w1 s w' :
  resolve_output_dir heif_path output_dir ps w = (Return d, w1) ->
  convert_image heif_path output_dir quality ps ke
                (Some (SpecWords.written pieces)) w
  = (Return (true, s), w') ->
  (pieces <> [] ->
   SpecWords.plain pieces = true ->
   SpecWords.brace_free (base_name heif_path) = true ->
   PyStr.startswith
     (SpecWords.substituted pieces (base_name heif_path)
                            (Clock.strftime_Ymd_HMS (now w))) "/" = false ->
   s = SpecWords.joined d
         (SpecWords.substituted pieces (base_name heif_path)
                                (Clock.strftime_Ymd_HMS (now w)) ++ ".jpg"))
  /\ (pieces = [] -> s = SpecWords.joined d (base_name heif_path ++ ".jpg"))
  /\ (exists px sz ex, files w' !! key w' s = Some (Jpeg px sz quality ex))
  /\ (Clock.four_digit_era (now w) ->
      Clock.strftime_Ymd_HMS (now w) =
      four_digits (Clock.year (now w)) ++ two_digits (Clock.month (now w))
      ++ two_digits (Clock.day (now w)) ++ "_" ++ two_digits (Clock.hour (now w))
      ++ two_digits (Clock.minute (now w)) ++ two_digits (Clock.second (now w))).
Proof.
  intros Hres Hconv.
  pose proof (convert_image_cases heif_path output_dir quality ps ke
                (Some (SpecWords.written pieces)) w) as Hc.
  rewrite (body_after_resolve _ _ quality _ ke (Some (SpecWords.written pieces))
             _ _ _ Hres) in Hc.
  pose proof (resolve_keeps_clock heif_path output_dir ps w) as Hclock.
  rewrite Hres in Hclock. cbn [snd] in Hclock.
  set (path := jpeg_path_in d heif_path (Some (SpecWords.written pieces)) (now w1))
    in *.
  assert (Hs : s = path
               /\ exists px sz ex, files w' !! key w' s = Some (Jpeg px sz quality ex)).
  { destruct (fst (Image_open heif_path w1)) as [im|e];
      [|rewrite Hc in Hconv; discriminate].
    destruct (read_exif im _ ke w1) as [[ex|e] w2];
      [|rewrite Hc in Hconv; discriminate].
    destruct (to_final_image im) as [px|e]; [|rewrite Hc in Hconv; discriminate].
    destruct (save_JPEG _ _ _ _ _ w2) as [[[]|e] w3] eqn:Hsave;
      [|rewrite Hc in Hconv; discriminate].
    rewrite Hc in Hconv. inversion Hconv; subst s w'. clear Hconv.
    split; [reflexivity|].
    eexists _, _, _. exact (save_writes _ _ _ _ _ _ _ Hsave). }
  destruct Hs as [Hs Hfile].
  split; [|split; [|split; [exact Hfile | apply strftime_shape]]].
  - intros Hne Hplain Hbase Hstart. rewrite Hs. unfold path, jpeg_path_in.
    rewrite (output_name_pattern heif_path pieces (now w1) Hne Hplain Hbase).
    rewrite Hclock. apply join_joined.
    apply startswith_ext; [exact Hstart | discriminate].
  - intros ->. rewrite Hs. unfold path, jpeg_path_in.
    rewrite output_name_no_pattern by reflexivity.
    apply join_joined.
    apply startswith_ext; [apply base_name_start | discriminate].
Qed.

Lemma pattern_names_output_witness :
  SpecWords.written sample_pattern = "{name}_{timestamp}_{counter}"
  /\ resolve_output_dir "/pics/a.heic" "/out" false sample_world
     = (Return "/out", sample_world)
  /\ fst (convert_image "/pics/a.heic" "/out" 90 false true
                        (Some (SpecWords.written sample_pattern)) sample_world)
     = Return (true, "/out/a_20240307_120509_1.jpg")
  /\ "/out/a_20240307_120509_1.jpg"
     = SpecWords.joined "/out"
         (SpecWords.substituted sample_pattern (base_name "/pics/a.heic")
            (Clock.strftime_Ymd_HMS (now sample_world)) ++ ".jpg").
Proof.
  split; [reflexivity|]. split; [vm_compute; reflexivity|].
  split; [vm_compute; reflexivity|].
  refine (proj1 (pattern_names_output
                   "/pics/a.heic" "/out" 90 false true
                   sample_pattern sample_world "/out" sample_world
                   "/out/a_20240307_120509_1.jpg"
                   (snd (convert_image "/pics/a.heic" "/out" 90 false true
                           (Some (SpecWords.written sample_pattern)) sample_world))
                   _ _) _ _ _ _).
  - vm_compute; reflexivity.
  - vm_compute; reflexivity.
  - discriminate.
  - reflexivity.
  - vm_compute; reflexivity.
  - vm_compute; reflexivity.
Defined.

(** C3 as stated fails in four ways.  With the empty pattern the output
    keeps the base name of the source.  A placeholder in the base name
    of the source is replaced too.  A placeholder that the base name
    completes is replaced too.  A pattern that begins with a slash
    leaves the resolved directory. *)
Lemma claimed_name_is_not_always_given :
  (fst (convert_image "/pics/a.heic" "/out" 90 false true
                      (Some (SpecWords.written [])) sample_world)
   = Return (true, "/out/a.jpg")
   /\ SpecWords.joined "/out"
        (SpecWords.substituted [] (base_name "/pics/a.heic")
           (Clock.strftime_Ymd_HMS (now sample_world)) ++ ".jpg")
      = "/out/.jpg")
  /\ (let pieces := [SpecWords.Name; SpecWords.Text "-"; SpecWords.Counter] in
      SpecWords.written pieces = "{name}-{counter}"
      /\ fst (convert_image "/pics/{counter}.heic" "/out" 90 false true
                            (Some (SpecWords.written pieces)) braced_world)
         = Return (true, "/out/1-1.jpg")
      /\ SpecWords.joined "/out"
           (SpecWords.substituted pieces (base_name "/pics/{counter}.heic")
              (Clock.strftime_Ymd_HMS (now braced_world)) ++ ".jpg")
         = "/out/{counter}-1.jpg")
  /\ (let pieces := (SpecWords.text "{timest" ++ [SpecWords.Name]
                     ++ SpecWords.text "mp}")%list in
      SpecWords.written pieces = "{timest{name}mp}"
      /\ fst (convert_image "/pics/a.heic" "/out" 90 false true
                            (Some (SpecWords.written pieces)) sample_world)
         = Return (true, "/out/20240307_120509.jpg")
      /\ SpecWords.joined "/out"
           (SpecWords.substituted pieces (base_name "/pics/a.heic")
              (Clock.strftime_Ymd_HMS (now sample_world)) ++ ".jpg")
         = "/out/{timestamp}.jpg")
  /\ (let pieces := (SpecWords.text "/data/" ++ [SpecWords.Name])%list in
      SpecWords.written pieces = "/data/{name}"
      /\ fst (convert_image "/pics/a.heic" "/out" 90 false true
                            (Some (SpecWords.written pieces)) sample_world)
         = Return (true, "/data/a.jpg")
      /\ SpecWords.joined "/out"
           (SpecWords.substituted pieces (base_name "/pics/a.heic")
              (Clock.strftime_Ymd_HMS (now sample_world)) ++ ".jpg")
         = "/out//data/a.jpg").
Proof.
  cbv zeta.
  split; [split; vm_compute; reflexivity|].
  split; [split; [|split]; vm_compute; reflexivity|].
  split; [split; [|split]; vm_compute; reflexivity|].
  split; [|split]; vm_compute; reflexivity.
Qed.

End NamingFacts.

(* ===================================================================== *)
(** ** Facts about the output directory, the colour modes and the file
     search *)
(* ===================================================================== *)

Module ResolverFacts.
Import Py PIL Converter ConverterNotions Samples ConverterFacts.

(** When the source directory starts with the text of [output_dir], the
    resolver leaves the output directory alone and touches nothing. *)
Lemma prefix_means_no_mirror heif_path output_dir ps w :
  PyStr.startswith (PosixPath.dirname heif_path) output_dir = true ->
  resolve_output_dir heif_path output_dir ps w = (Return output_dir, w).
Proof.
  intros H. unfold resolve_output_dir. rewrite H.
  destruct (ps && PosixPath.isabs heif_path); reflexivity.
Qed.

(** Otherwise, for an absolute source with [preserve_structure] set, it
    takes the source directory relative to [dirname(output_dir)], joins
    it to [output_dir] and calls [makedirs(..., exist_ok=True)] on it. *)
Lemma no_prefix_means_mirror heif_path output_dir w rel :
  PosixPath.isabs heif_path = true ->
  PyStr.startswith (PosixPath.dirname heif_path) output_dir = false ->
  PosixPath.relpath (cwd w) (PosixPath.dirname heif_path)
                    (PosixPath.dirname output_dir) = Some rel ->
  resolve_output_dir heif_path output_dir true w =
  match makedirs_exist_ok (PosixPath.join output_dir rel) w with
  | (Return _, w') => (Return (PosixPath.join output_dir rel), w')
  | (Raise e, w') => (Raise e, w')
  end.
Proof.
  intros Habs Hpre Hrel. unfold resolve_output_dir.
  rewrite Habs, Hpre. cbn [andb negb]. unfold bind at 1, get_world.
  rewrite Hrel. unfold bind, ret.
  destruct (makedirs_exist_ok _ w) as [[[]|e] w']; reflexivity.
Qed.

(** A source outside the output root is mirrored below it. *)
Example outside_source_is_mirrored :
  let r := convert_image "/pics/a.heic" "/out" 90 true true None sample_world in
  fst r = Return (true, "/out/pics/a.jpg")
  /\ bool_decide ("/out/pics" ∈ dirs (snd r)) = true
  /\ bool_decide ("/out/pics" ∈ dirs sample_world) = false.
Proof. vm_compute. repeat split; reflexivity. Qed.

(** Calling [makedirs(..., exist_ok=True)] again on the directory just
    made changes nothing. *)
Example mirror_twice :
  let w1 := snd (makedirs_exist_ok "/out/pics" sample_world) in
  makedirs_exist_ok "/out/pics" w1 = (Return tt, w1).
Proof. vm_compute. reflexivity. Qed.

(** C2, where the code departs from it. The source directory
    [/data/out_backup/pics] is not under the output root [/data/out]; it
    only starts with the same characters. With [preserve_structure] set
    the resolver does not mirror it: no directory is created and the
    JPEG goes straight into the output root. *)
Theorem sibling_source_is_not_mirrored :
  let r := convert_image "/data/out_backup/pics/img.heic" "/data/out" 90
                         true true None sample_world in
  PosixPath.isabs "/data/out_backup/pics/img.heic" = true
  /\ SpecWords.is_under (PosixPath.dirname "/data/out_backup/pics/img.heic")
                       "/data/out" = false
  /\ fst r = Return (true, "/data/out/img.jpg")
  /\ dirs (snd r) = dirs sample_world
  /\ PosixPath.relpath (cwd sample_world)
                      (PosixPath.dirname "/data/out_backup/pics/img.heic")
                      (PosixPath.dirname "/data/out") = Some "out_backup/pics".
Proof.
  intros r.
  do 4 (split; [vm_compute; reflexivity|]). vm_compute. reflexivity.
Qed.

(** C10. The test "not already under the output root" is
    [str.startswith] on the source directory: whenever that text test
    succeeds the output directory stays as given and nothing is created;
    and there is a request, output root [/out] and source directory
    [/out2/sub], where the source is not under the output root and the
    JPEG is nevertheless written directly into [/out]. *)
Theorem under_test_is_string_prefix :
  (forall heif_path output_dir w,
      PyStr.startswith (PosixPath.dirname heif_path) output_dir = true ->
      resolve_output_dir heif_path output_dir true w = (Return output_dir, w))
  /\ (exists heif_path output_dir w,
        heif_path = "/out2/sub/a.heic" /\ output_dir = "/out"
        /\ PosixPath.isabs heif_path = true
        /\ PosixPath.dirname heif_path = "/out2/sub"
        /\ SpecWords.is_under (PosixPath.dirname heif_path) output_dir = false
        /\ PyStr.startswith (PosixPath.dirname heif_path) output_dir = true
        /\ fst (convert_image heif_path output_dir 90 true true None w)
           = Return (true, "/out/a.jpg")
        /\ dirs (snd (convert_image heif_path output_dir 90 true true None w))
           = dirs w
        /\ is_Some (files (snd (convert_image heif_path output_dir 90 true true
                                             None w)) !! "/out/a.jpg")).
Proof.
  split.
  - intros heif_path output_dir w H. apply prefix_means_no_mirror. exact H.
  - exists "/out2/sub/a.heic", "/out", sample_world.
    do 8 (split; [vm_compute; reflexivity|]).
    vm_compute. eexists; reflexivity.
Qed.

Lemma under_test_is_string_prefix_witness :
  PyStr.startswith (PosixPath.dirname "/out2/sub/a.heic") "/out" = true
  /\ resolve_output_dir "/out2/sub/a.heic" "/out" true sample_world
     = (Return "/out", sample_world).
Proof.
  split; [reflexivity|].
  apply (proj1 under_test_is_string_prefix). reflexivity.
Defined.

(** *** Alpha channels *)

Lemma blend8_transparent d s : (0 <= d <= 255)%Z -> blend8 0 d s = d.
Proof.
  intros H. unfold blend8. rewrite !Z.shiftr_div_pow2 by lia.
  change (2 ^ 8)%Z with 256%Z.
  replace (d * (255 - 0) + s * 0 + 128)%Z with (255 * d + 128)%Z by lia.
  Z.to_euclidean_division_equations. lia.
Qed.

Lemma blend8_opaque d s : (0 <= s <= 255)%Z -> blend8 255 d s = s.
Proof.
  intros H. unfold blend8. rewrite !Z.shiftr_div_pow2 by lia.
  change (2 ^ 8)%Z with 256%Z.
  replace (d * (255 - 255) + s * 255 + 128)%Z with (255 * s + 128)%Z by lia.
  Z.to_euclidean_division_equations. lia.
Qed.

(** An RGBA picture is pasted onto white under its alpha band and comes
    out as RGB. *)
Lemma rgba_is_flattened r g b a sz ex :
  to_final_image (mk_image (PRGBA r g b a) sz None ex) =
  let n := (fst sz * snd sz)%nat in
  Return (PRGB (blend_band a (repeat 255%Z n) r) (blend_band a (repeat 255%Z n) g)
               (blend_band a (repeat 255%Z n) b)).
Proof. reflexivity. Qed.

Example rgba_sample_is_flattened :
  fst (convert_image "/pics/a.heic" "/out" 90 false false None sample_world)
  = Return (true, "/out/a.jpg")
  /\ files (snd (convert_image "/pics/a.heic" "/out" 90 false false None
                              sample_world)) !! "/out/a.jpg"
     = Some (Jpeg (PRGB [255; 20]%Z [255; 40]%Z [255; 60]%Z) (2, 1)%nat 90 None).
Proof. vm_compute. split; reflexivity. Qed.

(** A picture of mode [LA] has two bands, so [split()[3]] raises. *)
Lemma grey_alpha_never_converts l a sz err ex :
  exists e, to_final_image (mk_image (PLA l a) sz err ex) = Raise e.
Proof.
  unfold to_final_image, split, load; cbn.
  destruct err as [e|]; eexists; reflexivity.
Qed.

(** C4, where the code departs from it. A source of mode [LA] decodes,
    has an alpha channel and is sent to the flattening branch, but the
    conversion ends in [(False, "tuple index out of range")] and no JPEG
    is written. *)
Theorem grey_alpha_source_fails :
  let r := convert_image "/pics/b.heic" "/out" 90 false true None sample_world in
  fst (Image_open "/pics/b.heic" sample_world) = Return grey_alpha_picture
  /\ mode grey_alpha_picture = LA
  /\ has_alpha (mode grey_alpha_picture) = true
  /\ mode_in_RGBA_LA (mode grey_alpha_picture) = true
  /\ fst r = Return (false, "tuple index out of range")
  /\ files (snd r) = files sample_world.
Proof.
  intros r.
  do 5 (split; [vm_compute; reflexivity|]). vm_compute. reflexivity.
Qed.

(** *** The file search *)

(** Lower-case and upper-case extensions are found, in the directory
    itself and, with [include_subdirs], below it. *)
Example find_heif_files_sample :
  find_heif_files "/photos" photo_dir false
  = ["/photos/IMG_0002.heic"; "/photos/IMG_0003.HEIC"]
  /\ find_heif_files "/photos" photo_dir true
     = ["/photos/IMG_0002.heic"; "/photos/IMG_0003.HEIC";
        "/photos/trip/IMG_0005.hif"].
Proof. vm_compute. split; reflexivity. Qed.

(** C9, where the code departs from it. [IMG_0001.Heic] and
    [IMG_0004.HiF] carry recognized extensions in mixed case; neither is
    returned, with or without recursion. *)
Theorem mixed_case_extension_is_missed :
  SpecWords.recognized "IMG_0001.Heic" = true
  /\ SpecWords.recognized "IMG_0004.HiF" = true
  /\ find_heif_files "/photos" [FileEntry "IMG_0001.Heic"] false = []
  /\ find_heif_files "/photos" [FileEntry "IMG_0001.Heic"] true = []
  /\ find_heif_files "/photos" photo_dir true
     = ["/photos/IMG_0002.heic"; "/photos/IMG_0003.HEIC";
        "/photos/trip/IMG_0005.hif"].
Proof. vm_compute. repeat split; reflexivity. Qed.

End ResolverFacts.

(* ===================================================================== *)
(** ** Facts about the batch: starting, counting, cancelling *)
(* ===================================================================== *)

Module AppFacts.
Import Py Converter App BatchNotions Samples.

(** *** What is counted *)

(** *** Invariants of the reachable states *)

(** *** The thread pool *)

Lemma take_first_pending_length fs : forall fs',
  take_first_pending fs = Some fs' -> List.length fs' = List.length fs.
Proof.
  induction fs as [|[[| |r|] f] fs IH]; intros fs' H; cbn in H;
    try discriminate; try (inversion H; subst; reflexivity);
    destruct (take_first_pending fs) as [fs0|]; cbn in H; try discriminate;
    inversion H; subst; cbn; f_equal; apply IH; reflexivity.
Qed.

Lemma take_first_pending_unsettled fs fs' :
  take_first_pending fs = Some fs' -> settled fs = false.
Proof.
  revert fs'. induction fs as [|[[| |r|] f] fs IH]; intros fs' H; cbn in H;
    try discriminate; try reflexivity;
    destruct (take_first_pending fs) as [fs0|]; cbn in H; try discriminate;
    cbn; apply (IH fs0); reflexivity.
Qed.

Lemma take_first_pending_nth fs : forall fs' j x,
  take_first_pending fs = Some fs' ->
  nth_error fs j = Some x -> is_pending x = false ->
  nth_error fs' j = Some x.
Proof.
  induction fs as [|[[| |r|] f] fs IH]; intros fs' j x H Hj Hx; cbn in H;
    try discriminate.
  - inversion H; subst. destruct j; cbn in *; [|exact Hj].
    inversion Hj; subst. discriminate.
  - destruct (take_first_pending fs) as [fs0|]; cbn in H; try discriminate.
    inversion H; subst. destruct j; cbn in *; [exact Hj|].
    eapply IH; eauto.
  - destruct (take_first_pending fs) as [fs0|]; cbn in H; try discriminate.
    inversion H; subst. destruct j; cbn in *; [exact Hj|].
    eapply IH; eauto.
  - destruct (take_first_pending fs) as [fs0|]; cbn in H; try discriminate.
    inversion H; subst. destruct j; cbn in *; [exact Hj|].
    eapply IH; eauto.
Qed.

Lemma settled_nth fs j x :
  settled fs = true -> nth_error fs j = Some x ->
  is_running x = false /\ is_pending x = false.
Proof.
  unfold settled. rewrite forallb_forall. intros H Hj.
  apply nth_error_In in Hj. specialize (H x Hj).
  apply andb_true_iff in H. destruct H as [H1 H2].
  apply negb_true_iff in H1, H2. split; assumption.
Qed.

Lemma finished_upto_take n fs fs' :
  take_first_pending fs = Some fs' -> finished_upto n fs -> finished_upto n fs'.
Proof.
  intros H Hf j Hj. destruct (Hf j Hj) as (r & f & Hn).
  exists r, f. eapply take_first_pending_nth; eauto.
Qed.

Lemma nth_error_insert_eq {A} (l : list A) j x y :
  nth_error l j = Some y -> nth_error (<[ j := x ]> l) j = Some x.
Proof.
  revert j. induction l as [|a l IH]; intros [|j] H; cbn in *;
    try discriminate; [reflexivity|]. apply IH. exact H.
Qed.

Lemma nth_error_insert_ne {A} (l : list A) i j x :
  i <> j -> nth_error (<[ i := x ]> l) j = nth_error l j.
Proof.
  revert i j. induction l as [|a l IH]; intros [|i] [|j] H; cbn;
    try reflexivity; try congruence. apply IH. congruence.
Qed.

Lemma finished_upto_insert n fs j r f0 :
  finished_upto n fs -> finished_upto n (<[ j := (Finished r, f0) ]> fs).
Proof.
  intros Hf k Hk. destruct (Hf k Hk) as (r' & f' & Hn).
  destruct (Nat.eq_dec j k) as [->|Hne].
  - exists r, f0. eapply nth_error_insert_eq; eauto.
  - exists r', f'. rewrite nth_error_insert_ne by exact Hne. exact Hn.
Qed.

Lemma cancel_first_pending_length fs : forall fs',
  cancel_first_pending fs = Some fs' -> List.length fs' = List.length fs.
Proof.
  induction fs as [|[[| |r|] f] fs IH]; intros fs' H; cbn in H;
    try discriminate; try (inversion H; subst; reflexivity);
    destruct (cancel_first_pending fs) as [fs0|]; cbn in H; try discriminate;
    inversion H; subst; cbn; f_equal; apply IH; reflexivity.
Qed.

Lemma cancel_first_pending_unsettled fs fs' :
  cancel_first_pending fs = Some fs' -> settled fs = false.
Proof.
  revert fs'. induction fs as [|[[| |r|] f] fs IH]; intros fs' H; cbn in H;
    try discriminate; try reflexivity;
    destruct (cancel_first_pending fs) as [fs0|]; cbn in H; try discriminate;
    cbn; apply (IH fs0); reflexivity.
Qed.

Lemma cancel_first_pending_nth fs : forall fs' j x,
  cancel_first_pending fs = Some fs' ->
  nth_error fs j = Some x -> is_pending x = false ->
  nth_error fs' j = Some x.
Proof.
  induction fs as [|[[| |r|] f] fs IH]; intros fs' j x H Hj Hx; cbn in H;
    try discriminate.
  - inversion H; subst. destruct j; cbn in *; [|exact Hj].
    inversion Hj; subst. discriminate.
  - destruct (cancel_first_pending fs) as [fs0|]; cbn in H; try discriminate.
    inversion H; subst. destruct j; cbn in *; [exact Hj|].
    eapply IH; eauto.
  - destruct (cancel_first_pending fs) as [fs0|]; cbn in H; try discriminate.
    inversion H; subst. destruct j; cbn in *; [exact Hj|].
    eapply IH; eauto.
  - destruct (cancel_first_pending fs) as [fs0|]; cbn in H; try discriminate.
    inversion H; subst. destruct j; cbn in *; [exact Hj|].
    eapply IH; eauto.
Qed.

Lemma finished_upto_cancel n fs fs' :
  cancel_first_pending fs = Some fs' -> finished_upto n fs -> finished_upto n fs'.
Proof.
  intros H Hf j Hj. destruct (Hf j Hj) as (r & f & Hn).
  exists r, f. eapply cancel_first_pending_nth; eauto.
Qed.

Lemma queue_empty_no_pending fs :
  cancel_first_pending fs = None -> Forall (fun x => is_pending x = false) fs.
Proof.
  induction fs as [|[[| |r|] f] fs IH]; intros H; cbn in H;
    try discriminate; constructor; try reflexivity;
    apply IH; destruct (cancel_first_pending fs);
    first [discriminate | reflexivity].
Qed.

(** *** [start_conversion] and [cancel_conversion], field by field *)

Lemma ensure_output_dir_fields s :
  match ensure_output_dir s with
  | inl s1 | inr s1 =>
      thread s1 = thread s /\ after_queue s1 = after_queue s
      /\ conversion_running s1 = conversion_running s
      /\ stop_requested s1 = stop_requested s
      /\ file_list s1 = file_list s
  end.
Proof.
  unfold ensure_output_dir.
  destruct (PyStr.truthy (output_dir (settings s))); cbn;
    destruct (negb _); try destruct (makedirs _ _) as [[[]|e] w'];
    cbn; repeat split; reflexivity.
Qed.

Lemma launch_fields s :
  conversion_running (launch s) = true
  /\ stop_requested (launch s) = false
  /\ ((thread (launch s) = None
       /\ exists m, after_queue (launch s)
                    = (after_queue s ++ [Conversion_error m])%list)
      \/ (after_queue (launch s) = after_queue s
          /\ exists t, thread (launch s) = Some t /\ fresh_thread s t)).
Proof.
  unfold launch, start_thread; cbn.
  destruct (max_workers (settings s) <=? 0)%Z; cbn.
  - split; [reflexivity|]. split; [reflexivity|]. left.
    split; [reflexivity|]. eexists. reflexivity.
  - split; [reflexivity|]. split; [reflexivity|]. right.
    split; [reflexivity|]. eexists. split; [reflexivity|].
    unfold fresh_thread, submitted; cbn. repeat split; reflexivity.
Qed.

Lemma start_conversion_cases s :
  (thread (start_conversion s) = thread s
   /\ after_queue (start_conversion s) = after_queue s
   /\ conversion_running (start_conversion s) = conversion_running s
   /\ stop_requested (start_conversion s) = stop_requested s)
  \/ (conversion_running s = false
      /\ conversion_running (start_conversion s) = true
      /\ stop_requested (start_conversion s) = false
      /\ file_list s <> []
      /\ ((thread (start_conversion s) = None
           /\ exists m, after_queue (start_conversion s)
                        = (after_queue s ++ [Conversion_error m])%list)
          \/ (after_queue (start_conversion s) = after_queue s
              /\ exists t, thread (start_conversion s) = Some t
                           /\ fresh_thread s t))).
Proof.
  unfold start_conversion.
  destruct (conversion_running s) eqn:Hrun.
  { left. cbn. rewrite Hrun. repeat split; reflexivity. }
  destruct (file_list s) as [|f fl] eqn:Hfl.
  { left. cbn. rewrite Hrun. repeat split; reflexivity. }
  pose proof (ensure_output_dir_fields s) as He.
  destruct (ensure_output_dir s) as [s1|s1];
    destruct He as (Ht & Hq & Hr & Hs & Hf).
  - right. destruct (launch_fields s1) as (L1 & L2 & L3).
    split; [reflexivity|]. split; [exact L1|]. split; [exact L2|].
    split; [discriminate|].
    destruct L3 as [(Lt & m & Lq) | (Lq & t & Lt & Lfresh)].
    + left. split; [exact Lt|]. exists m. rewrite Lq, Hq. reflexivity.
    + right. split; [congruence|]. exists t. split; [exact Lt|].
      unfold fresh_thread in *. rewrite Hf in Lfresh. exact Lfresh.
  - left. rewrite Hr, Hrun. repeat split; assumption.
Qed.

Lemma cancel_conversion_fields s :
  thread (cancel_conversion s) = thread s
  /\ after_queue (cancel_conversion s) = after_queue s
  /\ conversion_running (cancel_conversion s) = conversion_running s
  /\ (stop_requested (cancel_conversion s) = true
      \/ (conversion_running s = false
          /\ cancel_conversion s = s)).
Proof.
  unfold cancel_conversion. destruct (conversion_running s) eqn:H; cbn.
  - repeat split; try reflexivity; try exact H. left; reflexivity.
  - repeat split; try reflexivity; try exact H. right; split; reflexivity.
Qed.

(** *** The invariant holds initially and is kept by every event *)

Lemma inv_idle w x fl : Inv (idle w x fl).
Proof.
  constructor; cbn; try constructor; try discriminate; auto.
Qed.

(** The invariant only looks at four fields. *)
Lemma inv_fields s s' :
  thread s' = thread s -> after_queue s' = after_queue s ->
  conversion_running s' = conversion_running s ->
  (stop_requested s = true -> stop_requested s' = true) ->
  Inv s -> Inv s'.
Proof.
  intros Ht Hq Hr Hs [I1 I2 I3 I4 I5]. constructor.
  - rewrite Hq. exact I1.
  - rewrite Ht. exact I2.
  - unfold queue_ok in *. rewrite Hr, Ht, Hq. exact I3.
  - rewrite Ht. intros t Hth Hl. destruct (I4 t Hth Hl); auto.
  - rewrite Ht. intros t Hth Hp. apply Hs. exact (I5 t Hth Hp).
Qed.

Lemma inv_start s : Inv s -> Inv (start_conversion s).
Proof.
  intros HI.
  destruct (start_conversion_cases s)
    as [(Ht & Hq & Hr & Hs) | (Hidle & Hrun & Hstop & Hfl & Hcase)].
  - apply (inv_fields s); auto. intros H; rewrite Hs; exact H.
  - assert (Hq0 : after_queue s = []).
    { pose proof (inv_queue s HI) as Q. unfold queue_ok in Q.
      rewrite Hidle in Q. apply Q. }
    destruct Hcase as [(Hth & m & Hq) | (Hq & t & Hth & Hf & Htot & Hpc & Hs & He)].
    + rewrite Hq0 in Hq. constructor.
      * rewrite Hq. repeat constructor.
      * rewrite Hth. discriminate.
      * unfold queue_ok. rewrite Hrun, Hth. exists m. exact Hq.
      * rewrite Hth. discriminate.
      * rewrite Hth. discriminate.
    + rewrite Hq0 in Hq. constructor.
      * rewrite Hq. constructor.
      * rewrite Hth. intros t' E. inversion E; subst t'.
        unfold thread_ok, harvested. rewrite Hf, Htot, Hpc, Hs, He.
        rewrite length_map.
        repeat split; try lia.
        -- destruct (file_list s); [congruence | cbn; lia].
        -- intros j Hj. lia.
      * unfold queue_ok. rewrite Hrun, Hth, Hpc, Hq. constructor.
      * rewrite Hth. intros t' E. inversion E; subst t'.
        unfold left_loop. rewrite Hpc. contradiction.
      * rewrite Hth. intros t' E. inversion E; subst t'.
        rewrite Hpc. discriminate.
Qed.

Lemma inv_cancel s : Inv s -> Inv (cancel_conversion s).
Proof.
  intros HI. destruct (cancel_conversion_fields s) as (Ht & Hq & Hr & Hs).
  apply (inv_fields s); auto.
  destruct Hs as [Hs | [_ Hs]]; [auto | rewrite Hs; auto].
Qed.

(** A change of futures that keeps what was finished and cannot happen
    once everything is settled. *)
Lemma inv_futures s t fs w :
  Inv s -> thread s = Some t ->
  List.length fs = List.length (future_to_file t) ->
  (forall n, finished_upto n (future_to_file t) -> finished_upto n fs) ->
  settled (future_to_file t) = false ->
  Inv (set_thread (Some (set_futures fs t)) (set_world w s)).
Proof.
  intros [I1 I2 I3 I4 I5] Hth Hlen Hfin Hsettled.
  destruct (I2 t Hth) as (T1 & T2 & T3 & T4 & T5).
  constructor; cbn.
  - exact I1.
  - intros t' E. inversion E; subst t'. clear E.
    unfold thread_ok, harvested in *; cbn.
    repeat split; try assumption; try congruence.
    + apply Hfin. exact T4.
    + destruct (pc t); try assumption. congruence.
  - unfold queue_ok in *; cbn. rewrite Hth in I3.
    destruct (conversion_running s); [exact I3|].
    destruct I3 as [Hq Hpc]. split; [exact Hq | exact Hpc].
  - intros t' E Hl. inversion E; subst t'. clear E.
    apply (I4 t Hth). exact Hl.
  - intros t' E Hp. inversion E; subst t'. clear E.
    apply (I5 t Hth). exact Hp.
Qed.

Lemma inv_worker_start s s' : Inv s -> worker_start s = Some s' -> Inv s'.
Proof.
  intros HI H. unfold worker_start in H.
  destruct (thread s) as [t|] eqn:Hth; [|discriminate].
  destruct (_ <? _)%nat; [|discriminate].
  destruct (take_first_pending (future_to_file t)) as [fs|] eqn:Hfs;
    [|discriminate].
  inversion H; subst s'. clear H.
  replace s with (set_world (world s) s) at 1 by (destruct s; reflexivity).
  apply inv_futures; auto.
  - eapply take_first_pending_length; eauto.
  - intros n. eapply finished_upto_take; eauto.
  - eapply take_first_pending_unsettled; eauto.
Qed.

Lemma running_unsettled fs j f :
  nth_error fs j = Some (Running, f) -> settled fs = false.
Proof.
  intros H. destruct (settled fs) eqn:E; [|reflexivity].
  destruct (settled_nth _ _ _ E H) as [H1 _]. discriminate.
Qed.

Lemma inv_worker_finish j s s' : Inv s -> worker_finish j s = Some s' -> Inv s'.
Proof.
  intros HI H. unfold worker_finish in H.
  destruct (thread s) as [t|] eqn:Hth; [|discriminate].
  destruct (nth_error (future_to_file t) j) as [[[| |r|] f]|] eqn:Hj;
    try discriminate.
  destruct (convert_image _ _ _ _ _ _ (world s)) as [r w].
  inversion H; subst s'. clear H.
  apply inv_futures; auto.
  - apply length_insert.
  - intros n. apply finished_upto_insert.
  - eapply running_unsettled; eauto.
Qed.

Lemma running_has_live_thread s t :
  Inv s -> thread s = Some t -> pc t <> Returned -> conversion_running s = true.
Proof.
  intros HI Hth Hpc. pose proof (inv_queue s HI) as Q. unfold queue_ok in Q.
  destruct (conversion_running s); [reflexivity|].
  rewrite Hth in Q. destruct Q as [_ Q]. contradiction.
Qed.

Lemma count_result_counts r t :
  harvested (count_result r t) = S (harvested t)
  /\ total_files (count_result r t) = total_files t
  /\ future_to_file (count_result r t) = future_to_file t
  /\ pc (count_result r t) = pc t.
Proof.
  unfold harvested, count_result. destruct r as [[[] ?]|]; cbn; repeat split; lia.
Qed.

Lemma inv_thread_step s s' : Inv s -> thread_step s = Some s' -> Inv s'.
Proof.
  intros HI H. unfold thread_step in H.
  destruct (thread s) as [t|] eqn:Hth; [|discriminate].
  pose proof HI as [I1 I2 I3 I4 I5].
  destruct (I2 t Hth) as (T1 & T2 & T3 & T4 & T5).
  destruct (pc t) as [i|i| | |] eqn:Hpc; [| | | |discriminate].
  - (* before the test of the flag *)
    assert (Hrun : conversion_running s = true).
    { apply (running_has_live_thread s t); auto. congruence. }
    unfold queue_ok in I3. rewrite Hrun, Hth, Hpc in I3.
    destruct (nth_error (future_to_file t) i) as [x|] eqn:Hi.
    + assert (Hlt : i < total_files t).
      { rewrite <- T1. apply nth_error_Some. congruence. }
      destruct (stop_requested s) eqn:Hstop; inversion H; subst s'; clear H.
      * constructor; cbn.
        -- exact I1.
        -- intros t' E. inversion E; subst t'. clear E.
           unfold thread_ok, harvested in *; cbn.
           repeat split; assumption.
        -- unfold queue_ok; cbn. rewrite Hrun. exact I3.
        -- intros t' E Hl. inversion E; subst t'. contradiction.
        -- intros t' E _. exact Hstop.
      * constructor; cbn.
        -- exact I1.
        -- intros t' E. inversion E; subst t'. clear E.
           unfold thread_ok, harvested in *; cbn.
           repeat split; assumption.
        -- unfold queue_ok; cbn. rewrite Hrun. exact I3.
        -- intros t' E Hl. inversion E; subst t'. contradiction.
        -- intros t' E Hp. inversion E; subst t'. discriminate.
    + inversion H; subst s'; clear H.
      assert (Hge : total_files t <= i).
      { rewrite <- T1. apply nth_error_None. exact Hi. }
      constructor; cbn.
      * exact I1.
      * intros t' E. inversion E; subst t'. clear E.
        unfold thread_ok, harvested in *; cbn. repeat split; assumption.
      * unfold queue_ok; cbn. rewrite Hrun. exact I3.
      * intros t' E _. inversion E; subst t'. clear E. left.
        unfold harvested in *; cbn. lia.
      * intros t' E Hp. inversion E; subst t'. discriminate.
  - (* blocked in [future.result()] *)
    assert (Hrun : conversion_running s = true).
    { apply (running_has_live_thread s t); auto. congruence. }
    unfold queue_ok in I3. rewrite Hrun, Hth, Hpc in I3.
    destruct T5 as [Ti Hlt].
    destruct (nth_error (future_to_file t) i) as [[[| |r|] f]|] eqn:Hi;
      try discriminate.
    destruct (result_log (PosixPath.basename f) r) as [lvl msg].
    inversion H; subst s'; clear H.
    destruct (count_result_counts r t) as (C1 & C2 & C3 & C4).
    constructor; cbn.
    + apply Forall_app. split; [exact I1|]. constructor; [|constructor].
      cbn. fold (harvested (count_result r t)). rewrite C1, C2. lia.
    + intros t' E. inversion E; subst t'. clear E.
      unfold thread_ok; cbn.
      fold (harvested (count_result r t)). rewrite C1, C2, C3.
      repeat split; try assumption; try lia.
      intros j Hj. destruct (Nat.eq_dec j i) as [->|Hne].
      * exists r, f. exact Hi.
      * apply T4. lia.
    + unfold queue_ok; cbn. rewrite Hrun.
      apply Forall_app. split; [exact I3|]. repeat constructor.
    + intros t' E Hl. inversion E; subst t'. contradiction.
    + intros t' E Hp. inversion E; subst t'. discriminate.
  - (* inside [shutdown] *)
    assert (Hrun : conversion_running s = true).
    { apply (running_has_live_thread s t); auto. congruence. }
    pose proof (I5 t Hth Hpc) as Hstop.
    destruct (cancel_first_pending (future_to_file t)) as [fs|] eqn:Hfs;
      inversion H; subst s'; clear H.
    + replace s with (set_world (world s) s) at 1 by (destruct s; reflexivity).
      apply inv_futures; auto.
      * eapply cancel_first_pending_length; eauto.
      * intros n. eapply finished_upto_cancel; eauto.
      * eapply cancel_first_pending_unsettled; eauto.
    + unfold queue_ok in I3. rewrite Hrun, Hth, Hpc in I3.
      constructor; cbn.
      * exact I1.
      * intros t' E. inversion E; subst t'. clear E.
        unfold thread_ok, harvested in *; cbn. repeat split; assumption.
      * unfold queue_ok; cbn. rewrite Hrun. exact I3.
      * intros t' E _. right. exact Hstop.
      * intros t' E Hp. inversion E; subst t'. discriminate.
  - (* leaving the [with] block *)
    assert (Hrun : conversion_running s = true).
    { apply (running_has_live_thread s t); auto. congruence. }
    unfold queue_ok in I3. rewrite Hrun, Hth, Hpc in I3.
    destruct (settled (future_to_file t)) eqn:Hset; [|discriminate].
    inversion H; subst s'; clear H.
    constructor; cbn.
    + apply Forall_app. split; [exact I1|]. repeat constructor.
    + intros t' E. inversion E; subst t'. clear E.
      unfold thread_ok, harvested in *; cbn. repeat split; assumption.
    + unfold queue_ok; cbn. rewrite Hrun.
      exists (after_queue s). split; [exact I3 | reflexivity].
    + intros t' E _. inversion E; subst t'. clear E.
      unfold harvested; cbn. apply (I4 t Hth). unfold left_loop.
      rewrite Hpc. exact I.
    + intros t' E Hp. inversion E; subst t'. discriminate.
Qed.

Lemma conversion_complete_fields total success errors s :
  thread (conversion_complete total success errors s) = thread s
  /\ after_queue (conversion_complete total success errors s) = after_queue s
  /\ conversion_running (conversion_complete total success errors s) = false
  /\ stop_requested (conversion_complete total success errors s)
     = stop_requested s.
Proof.
  unfold conversion_complete; cbn.
  destruct (stop_requested s) eqn:Hs; [|destruct (errors =? 0)%nat]; cbn;
    repeat split; first [reflexivity | exact Hs | symmetry; exact Hs].
Qed.

Lemma inv_main_callback s s' : Inv s -> main_callback s = Some s' -> Inv s'.
Proof.
  intros HI H. unfold main_callback in H.
  destruct (after_queue s) as [|c q] eqn:Hq; [discriminate|].
  inversion H; subst s'; clear H.
  pose proof HI as [I1 I2 I3 I4 I5]. rewrite Hq in I1.
  inversion I1 as [|? ? Hc Hgood]; subst.
  unfold queue_ok in I3. rewrite Hq in I3.
  destruct (conversion_running s) eqn:Hrun; [|destruct I3; discriminate].
  assert (Hupd : is_update c -> Forall is_update q \/
                 (exists t us, thread s = Some t /\ pc t = Returned
                               /\ Forall is_update us
                               /\ q = (us ++ [Conversion_complete (total_files t)
                                                (success_count t) (error_count t)])%list)
                 ->
                 Inv (run_callback c (set_after_queue q s))).
  { intros Hu Hshape. destruct c as [cur tot f sc ec| |]; try contradiction.
    cbn. constructor; cbn.
    - exact Hgood.
    - exact I2.
    - unfold queue_ok; cbn. rewrite Hrun.
      destruct (thread s) as [t|] eqn:Hth.
      + destruct Hshape as [Hall | (t' & us & E & Hpc & Hus & Hqq)].
        * destruct (pc t) eqn:Hpc; try exact Hall.
          destruct I3 as (us & Hus & E).
          destruct us as [|u us]; cbn in E; inversion E; subst.
          apply Forall_app in Hall. destruct Hall as [_ Hall].
          inversion Hall; subst. contradiction.
        * inversion E; subst t'. rewrite Hpc. exists us. split; assumption.
      + destruct I3 as [m E]. inversion E.
    - exact I4.
    - exact I5. }
  destruct (thread s) as [t|] eqn:Hth.
  - destruct (pc t) eqn:Hpc.
    1-4: inversion I3; subst; apply Hupd; [assumption | left; assumption].
    destruct I3 as (us & Hus & E).
    destruct us as [|u us]; cbn in E; inversion E; subst.
    + (* [conversion_complete] *)
      cbn [run_callback].
      destruct (conversion_complete_fields (total_files t) (success_count t)
                  (error_count t) (set_after_queue [] s)) as (F1 & F2 & F3 & F4).
      constructor.
      * rewrite F2. constructor.
      * rewrite F1. cbn. rewrite Hth. exact I2.
      * unfold queue_ok. rewrite F3, F2, F1. cbn. rewrite Hth.
        split; [reflexivity|exact Hpc].
      * rewrite F1, F4. cbn. rewrite Hth. exact I4.
      * rewrite F1, F4. cbn. rewrite Hth. exact I5.
    + inversion Hus; subst. apply Hupd; [assumption|].
      right. exists t, us. repeat split; auto.
  - destruct I3 as [m E]. inversion E; subst.
    cbn. constructor; cbn.
    + constructor.
    + rewrite Hth. discriminate.
    + unfold queue_ok; cbn. rewrite Hth. split; [reflexivity | exact I].
    + rewrite Hth. discriminate.
    + rewrite Hth. discriminate.
Qed.

Lemma inv_exec e s s' : Inv s -> exec e s = Some s' -> Inv s'.
Proof.
  intros HI H. destruct e; cbn in H.
  - inversion H; subst. apply inv_start. exact HI.
  - inversion H; subst. apply inv_cancel. exact HI.
  - eapply inv_worker_start; eauto.
  - eapply inv_worker_finish; eauto.
  - eapply inv_thread_step; eauto.
  - eapply inv_main_callback; eauto.
  - inversion H; subst. apply (inv_fields s); auto.
  - inversion H; subst. apply (inv_fields s); auto.
Qed.

Lemma inv_run es : forall s s', Inv s -> run es s = Some s' -> Inv s'.
Proof.
  induction es as [|e es IH]; intros s s' HI H; cbn in H.
  - inversion H; subst. exact HI.
  - destruct (exec e s) as [s1|] eqn:E; [|discriminate].
    eapply IH; [|exact H]. eapply inv_exec; eauto.
Qed.

(** *** Sample batch *)

(** *** Starting while a batch is running *)

(** C8. While [conversion_running] is set, [start_conversion] only shows
    the warning and returns: no thread is started, no callback is
    queued, the futures, the counters, the progress bar, the stop flag,
    the file list, the settings and the disk stay as they are. *)
Theorem start_while_running_is_rejected s :
  conversion_running s = true ->
  start_conversion s
  = CustomNotification "Conversion is already running!" "warning" s
  /\ exec Start_conversion s = Some (start_conversion s)
  /\ thread (start_conversion s) = thread s
  /\ after_queue (start_conversion s) = after_queue s
  /\ progress_maximum (start_conversion s) = progress_maximum s
  /\ progress_value (start_conversion s) = progress_value s
  /\ stop_requested (start_conversion s) = stop_requested s
  /\ conversion_running (start_conversion s) = true
  /\ convert_btn (start_conversion s) = convert_btn s
  /\ file_list (start_conversion s) = file_list s
  /\ settings (start_conversion s) = settings s
  /\ world (start_conversion s) = world s.
Proof.
  intros H. unfold exec, start_conversion. rewrite H. cbn.
  repeat split; try reflexivity. exact H.
Qed.

Lemma start_while_running_is_rejected_witness :
  let s := state_after [Start_conversion; Worker_start] sample_app in
  conversion_running s = true
  /\ thread (start_conversion s) = thread s
  /\ stop_requested (start_conversion s) = stop_requested s.
Proof.
  intros s.
  assert (H : conversion_running s = true) by (vm_compute; reflexivity).
  split; [exact H|].
  destruct (start_while_running_is_rejected s H)
    as (_ & _ & Ht & _ & _ & _ & Hs & _).
  split; [exact Ht | exact Hs].
Defined.

(** *** Counting *)









(** *** Cancelling *)

Lemma no_pending_no_take fs :
  Forall (fun x => is_pending x = false) fs -> take_first_pending fs = None.
Proof.
  induction 1 as [|[[| |r|] f] fs Hx Hfs IH]; cbn in *; try discriminate;
    try reflexivity; rewrite IH; reflexivity.
Qed.

Lemma no_pending_insert fs j r f :
  Forall (fun x => is_pending x = false) fs ->
  Forall (fun x => is_pending x = false) (<[ j := (Finished r, f) ]> fs).
Proof.
  intros H. revert j. induction H as [|x fs Hx Hfs IH]; intros [|j]; cbn;
    constructor; auto.
Qed.

Lemma observed_at_the_test s t i s' :
  Inv s -> thread s = Some t -> pc t = Check i -> i < total_files t ->
  stop_requested s = true -> thread_step s = Some s' ->
  Observed t s'.
Proof.
  intros HI Hth Hpc Hi Hstop Hstep.
  assert (Hrun : conversion_running s = true).
  { apply (running_has_live_thread s t); auto. congruence. }
  destruct (inv_thread s HI t Hth) as (T1 & _).
  unfold thread_step in Hstep. rewrite Hth, Hpc, Hstop in Hstep.
  destruct (nth_error (future_to_file t) i) eqn:E.
  - inversion Hstep; subst s'. clear Hstep. constructor; cbn.
    + eexists. split; [reflexivity|]. cbn.
      split; [reflexivity|]. split; [reflexivity|]. split; [reflexivity|].
      split; [left; reflexivity|]. unfold left_loop. cbn. contradiction.
    + exact Hstop.
    + rewrite Hrun. discriminate.
  - apply nth_error_None in E. lia.
Qed.

Lemma observed_exec t0 e s s' :
  Inv s -> Observed t0 s -> e <> Start_conversion -> exec e s = Some s' ->
  Observed t0 s'.
Proof.
  intros HI [(t & Hth & Htot & Hsc & Hec & Hpcs & Hnp) Hstop Hdone] He H.
  destruct e; cbn in H.
  - contradiction.
  - (* [cancel_conversion] *)
    inversion H; subst s'; clear H. unfold cancel_conversion.
    destruct (conversion_running s) eqn:Hrun; cbn.
    + constructor; cbn.
      * exists t. repeat split; assumption.
      * reflexivity.
      * rewrite Hrun. discriminate.
    + constructor; [exists t; repeat split; assumption | exact Hstop |].
      intros _. apply Hdone. reflexivity.
  - (* a pool thread takes a request: only while [shutdown] is under way *)
    unfold worker_start in H. rewrite Hth in H.
    destruct (_ <? _)%nat; [|discriminate].
    destruct (take_first_pending (future_to_file t)) as [fs|] eqn:Hfs;
      [|discriminate].
    inversion H; subst s'; clear H.
    destruct Hpcs as [Hst | Hl].
    + constructor; cbn.
      * eexists. split; [reflexivity|]. cbn.
        split; [exact Htot|]. split; [exact Hsc|]. split; [exact Hec|].
        split; [left; exact Hst|].
        unfold left_loop. cbn. rewrite Hst. contradiction.
      * exact Hstop.
      * exact Hdone.
    + rewrite (no_pending_no_take _ (Hnp Hl)) in Hfs. discriminate.
  - (* a running conversion ends *)
    unfold worker_finish in H. rewrite Hth in H.
    destruct (nth_error (future_to_file t) j) as [[[| |r|] f]|] eqn:Hj;
      try discriminate.
    destruct (convert_image _ _ _ _ _ _ (world s)) as [r w].
    inversion H; subst s'; clear H. constructor; cbn.
    + eexists. split; [reflexivity|]. cbn.
      split; [exact Htot|]. split; [exact Hsc|]. split; [exact Hec|].
      split; [exact Hpcs|].
      intros Hl. apply no_pending_insert. apply Hnp. exact Hl.
    + exact Hstop.
    + exact Hdone.
  - (* a step of [conversion_thread] *)
    unfold thread_step in H. rewrite Hth in H.
    destruct (pc t) eqn:Hpc.
    + destruct Hpcs as [Hst | Hl]; [discriminate|].
      unfold left_loop in Hl. rewrite Hpc in Hl. contradiction.
    + destruct Hpcs as [Hst | Hl]; [discriminate|].
      unfold left_loop in Hl. rewrite Hpc in Hl. contradiction.
    + destruct (cancel_first_pending (future_to_file t)) as [fs|] eqn:Hfs;
        inversion H; subst s'; clear H; constructor; cbn;
        try exact Hstop; try exact Hdone.
      * eexists. split; [reflexivity|]. cbn.
        split; [exact Htot|]. split; [exact Hsc|]. split; [exact Hec|].
        split; [left; exact Hpc|].
        unfold left_loop. cbn. rewrite Hpc. contradiction.
      * eexists. split; [reflexivity|]. cbn.
        split; [exact Htot|]. split; [exact Hsc|]. split; [exact Hec|].
        split; [right; exact I|].
        intros _. apply queue_empty_no_pending. exact Hfs.
    + destruct (settled (future_to_file t)); [|discriminate].
      inversion H; subst s'; clear H. constructor; cbn.
      * eexists. split; [reflexivity|]. cbn.
        split; [exact Htot|]. split; [exact Hsc|]. split; [exact Hec|].
        split; [right; exact I|].
        intros _. apply Hnp. unfold left_loop. rewrite Hpc. exact I.
      * exact Hstop.
      * exact Hdone.
    + discriminate.
  - (* a callback of the main loop *)
    unfold main_callback in H.
    destruct (after_queue s) as [|c q] eqn:Hq; [discriminate|].
    inversion H; subst s'; clear H.
    pose proof (inv_queue s HI) as Q. unfold queue_ok in Q.
    rewrite Hth, Hq in Q.
    destruct (conversion_running s) eqn:Hrun; [|destruct Q; discriminate].
    assert (Hc : is_update c
                 \/ c = Conversion_complete (total_files t) (success_count t)
                                            (error_count t)).
    { destruct (pc t).
      - inversion Q; auto.
      - inversion Q; auto.
      - inversion Q; auto.
      - inversion Q; auto.
      - destruct Q as (us & Hus & E). destruct us as [|u us]; cbn in E;
          inversion E; subst; [right; reflexivity|].
        inversion Hus; auto. }
    destruct Hc as [Hc | ->].
    + destruct c; try contradiction. cbn. constructor; cbn.
      * exists t. repeat split; assumption.
      * exact Hstop.
      * rewrite Hrun. discriminate.
    + cbn [run_callback].
      destruct (conversion_complete_fields (total_files t) (success_count t)
                  (error_count t) (set_after_queue q s)) as (F1 & F2 & F3 & F4).
      constructor.
      * rewrite F1. cbn. exists t. repeat split; assumption.
      * rewrite F4. exact Hstop.
      * intros _. unfold conversion_complete; cbn. rewrite Hstop. cbn.
        rewrite last_snoc. rewrite Hsc, Htot. reflexivity.
  - (* the settings panel *)
    inversion H; subst s'; clear H. constructor; cbn;
      [exists t; repeat split; assumption | exact Hstop | exact Hdone].
  - (* the file list *)
    inversion H; subst s'; clear H. constructor; cbn;
      [exists t; repeat split; assumption | exact Hstop | exact Hdone].
Qed.

Lemma observed_run t0 es : forall s s',
  Inv s -> Observed t0 s -> ~ In Start_conversion es -> run es s = Some s' ->
  Observed t0 s'.
Proof.
  induction es as [|e es IH]; intros s s' HI HF Hno H; cbn in H.
  - inversion H; subst. exact HF.
  - destruct (exec e s) as [s1|] eqn:E; [|discriminate].
    apply (IH s1 s').
    + eapply inv_exec; eauto.
    + eapply observed_exec; eauto. intros ->. apply Hno. left. reflexivity.
    + intros Hin. apply Hno. right. exact Hin.
    + exact H.
Qed.

Lemma all_pending_nothing_harvested t :
  thread_ok t ->
  Forall (fun x => is_pending x = true) (future_to_file t) ->
  success_count t = 0 /\ error_count t = 0.
Proof.
  intros (T1 & T2 & T3 & T4 & _) Hall.
  destruct (harvested t) as [|h] eqn:Hh; [unfold harvested in Hh; lia|].
  destruct (T4 0) as (r & f & E); [lia|].
  destruct (future_to_file t) as [|x fs]; [discriminate|].
  cbn in E. inversion E; subst. inversion Hall; subst. discriminate.
Qed.

(** *** A cancelled batch comes to its end *)

Lemma run_app es1 : forall es2 s,
  run (es1 ++ es2) s
  = match run es1 s with Some s1 => run es2 s1 | None => None end.
Proof.
  induction es1 as [|e es1 IH]; intros es2 s; [reflexivity|].
  cbn [app run]. destruct (exec e s); [apply IH | reflexivity].
Qed.

(** Once the thread has returned, the main loop works off the queue and
    [conversion_complete] ends the run. *)
Lemma queue_drains us : forall s t,
  conversion_running s = true -> thread s = Some t ->
  Forall is_update us ->
  after_queue s = (us ++ [Conversion_complete (total_files t) (success_count t)
                                             (error_count t)])%list ->
  exists s', run (repeat Main_callback (S (List.length us))) s = Some s'
             /\ conversion_running s' = false.
Proof.
  induction us as [|u us IH]; intros s t Hrun Hth Hus Hq.
  - cbn [List.length repeat run exec]. unfold main_callback. rewrite Hq. cbn [app].
    eexists. split; [reflexivity|].
    apply (conversion_complete_fields (total_files t) (success_count t)
                                      (error_count t) (set_after_queue [] s)).
  - inversion Hus as [|? ? Hu Hus']; subst.
    destruct u as [cur tot f sc ec| |]; try contradiction.
    cbn [List.length repeat run exec]. unfold main_callback at 1. rewrite Hq.
    cbn [app run_callback].
    apply (IH _ t); try assumption; reflexivity.
Qed.

Lemma all_pending_unstarted fs :
  Forall (fun x => is_pending x = true) fs -> unstarted fs.
Proof.
  intros H. eapply List.Forall_impl; [|exact H].
  intros x Hx. cbv beta. rewrite Hx. reflexivity.
Qed.

Lemma cancel_first_pending_unstarted fs : forall fs',
  cancel_first_pending fs = Some fs' -> unstarted fs -> unstarted fs'.
Proof.
  induction fs as [|[[| |r|] f] fs IH]; intros fs' H Hu; cbn in H;
    try discriminate; inversion Hu as [|? ? Hx Hfs]; subst;
    try discriminate Hx.
  - inversion H; subst. constructor; [reflexivity | exact Hfs].
  - destruct (cancel_first_pending fs) as [fs0|]; cbn in H; try discriminate.
    inversion H; subst. constructor; [reflexivity|]. apply IH; auto.
Qed.

Lemma cancel_first_pending_count fs : forall fs',
  cancel_first_pending fs = Some fs' ->
  count is_pending fs = S (count is_pending fs').
Proof.
  unfold count.
  induction fs as [|[[| |r|] f] fs IH]; intros fs' H; cbn in H;
    try discriminate; try (inversion H; subst; reflexivity);
    destruct (cancel_first_pending fs) as [fs0|]; cbn in H; try discriminate;
    inversion H; subst; cbn; apply IH; reflexivity.
Qed.

Lemma no_pending_count fs :
  Forall (fun x => is_pending x = false) fs -> count is_pending fs = 0.
Proof.
  unfold count. induction 1 as [|x fs Hx Hfs IH]; [reflexivity|].
  cbn. rewrite Hx. exact IH.
Qed.

Lemma unstarted_settled fs :
  unstarted fs -> Forall (fun x => is_pending x = false) fs -> settled fs = true.
Proof.
  unfold settled, unstarted. intros Hu Hn. apply forallb_forall. intros x Hx.
  rewrite List.Forall_forall in Hu, Hn.
  specialize (Hu x Hx). specialize (Hn x Hx).
  destruct x as [[| |r|] f]; cbn in *; try discriminate; reflexivity.
Qed.

(** [shutdown] empties a queue that no pool thread takes from in one
    step for each item and one more. *)
Lemma queue_is_emptied n : forall s t,
  thread s = Some t -> pc t = Stopping ->
  count is_pending (future_to_file t) = n -> unstarted (future_to_file t) ->
  exists s' t',
    run (repeat Thread_step (S n)) s = Some s'
    /\ thread s' = Some t' /\ pc t' = Exiting
    /\ settled (future_to_file t') = true.
Proof.
  induction n as [|n IH]; intros s t Hth Hpc Hn Hu.
  - cbn [repeat run exec]. unfold thread_step. rewrite Hth, Hpc.
    destruct (cancel_first_pending (future_to_file t)) as [fs|] eqn:Hfs.
    { rewrite (cancel_first_pending_count _ _ Hfs) in Hn. discriminate. }
    eexists _, _. split; [reflexivity|]. cbn. split; [reflexivity|].
    split; [reflexivity|].
    apply unstarted_settled; [exact Hu | apply queue_empty_no_pending; exact Hfs].
  - change (repeat Thread_step (S (S n)))
      with (Thread_step :: repeat Thread_step (S n)).
    cbn [run exec]. unfold thread_step at 1. rewrite Hth, Hpc.
    destruct (cancel_first_pending (future_to_file t)) as [fs|] eqn:Hfs.
    + apply (IH _ (set_futures fs t)).
      * reflexivity.
      * exact Hpc.
      * rewrite (cancel_first_pending_count _ _ Hfs) in Hn.
        injection Hn as Hn. exact Hn.
      * cbn. eapply cancel_first_pending_unstarted; eauto.
    + rewrite (no_pending_count _ (queue_empty_no_pending _ Hfs)) in Hn.
      discriminate.
Qed.

Lemma cancelled_unstarted_batch_completes s t i :
  Inv s -> thread s = Some t -> pc t = Check i -> i < total_files t ->
  stop_requested s = true ->
  Forall (fun x => is_pending x = true) (future_to_file t) ->
  exists k n s',
    run (repeat Thread_step k ++ repeat Main_callback n) s = Some s'
    /\ conversion_running s' = false.
Proof.
  intros HI Hth Hpc Hi Hstop Hall.
  destruct (inv_thread s HI t Hth) as (T1 & _).
  destruct (nth_error (future_to_file t) i) as [x|] eqn:E;
    [|apply nth_error_None in E; lia].
  set (s1 := set_thread (Some (set_pc Stopping t)) s).
  assert (H1 : run [Thread_step] s = Some s1).
  { cbn [run exec]. unfold thread_step. rewrite Hth, Hpc, E, Hstop. reflexivity. }
  destruct (queue_is_emptied (count is_pending (future_to_file t)) s1
              (set_pc Stopping t))
    as (s2 & t2 & H2 & Hth2 & Hpc2 & Hset2);
    [reflexivity | reflexivity | reflexivity
     | apply all_pending_unstarted; exact Hall |].
  set (n := count is_pending (future_to_file t)) in *.
  assert (HI2 : Inv s2).
  { eapply inv_run; [|exact H2]. eapply inv_run; [exact HI | exact H1]. }
  assert (Hrun2 : conversion_running s2 = true).
  { apply (running_has_live_thread s2 t2); auto. congruence. }
  set (s3 := set_thread (Some (set_pc Returned t2))
               (after (Conversion_complete (total_files t2) (success_count t2)
                                           (error_count t2)) s2)).
  assert (H3 : run [Thread_step] s2 = Some s3).
  { cbn [run exec]. unfold thread_step. rewrite Hth2, Hpc2, Hset2. reflexivity. }
  pose proof (inv_run _ _ _ HI2 H3) as HI3.
  pose proof (inv_queue s3 HI3) as Q. unfold queue_ok in Q.
  cbn in Q. rewrite Hrun2 in Q. destruct Q as (us & Hus & Hq).
  destruct (queue_drains us s3 (set_pc Returned t2)) as (s' & Hs' & Hdone).
  - cbn. exact Hrun2.
  - reflexivity.
  - exact Hus.
  - cbn. exact Hq.
  - exists (1 + S n + 1), (S (List.length us)), s'. split; [|exact Hdone].
    rewrite !repeat_app, !run_app.
    change (repeat Thread_step 1) with [Thread_step].
    rewrite H1, H2, H3. exact Hs'.
Qed.

(** C5, as the code has it. Take a reachable state in which the loop of
    [conversion_thread] is about to test [stop_requested] and the flag
    is set.  From the test on, and until a new batch is started: the two
    counters keep the values they had, the flag stays set, and once
    [conversion_complete] has run the last notification is the
    "cancelled" one with that success count.  Once the thread is past
    [shutdown], no future is pending and no pool thread can start a
    request.  If no pool thread had started any request when the flag
    was tested, both counters are zero, the summary reports zero
    completed, and the run can come to its end. *)
Theorem cancel_before_dispatch w x fl es s t i es' s' :
  run es (idle w x fl) = Some s ->
  thread s = Some t -> pc t = Check i -> i < total_files t ->
  stop_requested s = true ->
  ~ In Start_conversion es' ->
  run (Thread_step :: es') s = Some s' ->
  exists t',
    thread s' = Some t'
    /\ total_files t' = total_files t
    /\ success_count t' = success_count t
    /\ error_count t' = error_count t
    /\ stop_requested s' = true
    /\ (conversion_running s' = false ->
        last (notifications s')
        = Some (cancelled_notice (success_count t) (total_files t)))
    /\ (pc t' = Exiting \/ pc t' = Returned ->
        Forall (fun x => is_pending x = false) (future_to_file t')
        /\ worker_start s' = None)
    /\ (Forall (fun x => is_pending x = true) (future_to_file t) ->
        success_count t' = 0 /\ error_count t' = 0
        /\ (conversion_running s' = false ->
            last (notifications s')
            = Some (cancelled_notice 0 (total_files t)))
        /\ exists k n s'',
            run (repeat Thread_step k ++ repeat Main_callback n) s = Some s''
            /\ conversion_running s'' = false).
Proof.
  intros Hreach Hth Hpc Hi Hstop Hno Hrun.
  pose proof (inv_run es _ _ (inv_idle w x fl) Hreach) as HI.
  cbn [run exec] in Hrun.
  destruct (thread_step s) as [s1|] eqn:Hstep; [|discriminate].
  pose proof (observed_at_the_test s t i s1 HI Hth Hpc Hi Hstop Hstep) as HF.
  pose proof (inv_thread_step s s1 HI Hstep) as HI1.
  destruct (observed_run t es' s1 s' HI1 HF Hno Hrun)
    as [(t' & Hth' & Htot & Hsc & Hec & Hpcs & Hnp) Hstop' Hdone].
  exists t'.
  split; [exact Hth'|]. split; [exact Htot|]. split; [exact Hsc|].
  split; [exact Hec|]. split; [exact Hstop'|]. split; [exact Hdone|].
  split.
  - intros Hpast.
    assert (Hl : left_loop t').
    { unfold left_loop. destruct Hpast as [-> | ->]; exact I. }
    split; [exact (Hnp Hl)|].
    unfold worker_start. rewrite Hth', (no_pending_no_take _ (Hnp Hl)).
    destruct (_ <? _)%nat; reflexivity.
  - intros Hall.
    destruct (all_pending_nothing_harvested t (inv_thread s HI t Hth) Hall)
      as [Hs0 He0].
    split; [congruence|]. split; [congruence|].
    split; [intros Hd; rewrite (Hdone Hd), Hs0; reflexivity|].
    exact (cancelled_unstarted_batch_completes s t i HI Hth Hpc Hi Hstop Hall).
Qed.

Lemma cancel_before_dispatch_witness :
  let s := state_after cancelled_at_once sample_app in
  let s' := state_after (Thread_step :: shut_down_unstarted) s in
  run cancelled_at_once sample_app = Some s
  /\ stop_requested s = true
  /\ run (Thread_step :: shut_down_unstarted) s = Some s'
  /\ conversion_running s' = false
  /\ last (notifications s') = Some (cancelled_notice 0 3)
  /\ worker_start s' = None
  /\ exists t', thread s' = Some t'
                /\ success_count t' = 0 /\ error_count t' = 0.
Proof.
  intros s s'.
  assert (H1 : run cancelled_at_once sample_app = Some s)
    by (vm_compute; reflexivity).
  assert (Hstop : stop_requested s = true) by (vm_compute; reflexivity).
  assert (Hrun : run (Thread_step :: shut_down_unstarted) s = Some s')
    by (vm_compute; reflexivity).
  assert (Hd : conversion_running s' = false) by (vm_compute; reflexivity).
  destruct (thread s) as [t|] eqn:Hth; [|vm_compute in Hth; discriminate].
  assert (Hpc : pc t = Check 0)
    by (vm_compute in Hth; inversion Hth; reflexivity).
  assert (Htot : total_files t = 3)
    by (vm_compute in Hth; inversion Hth; reflexivity).
  assert (Hall : Forall (fun x => is_pending x = true) (future_to_file t))
    by (vm_compute in Hth; inversion Hth; repeat constructor).
  assert (Hno : ~ In Start_conversion shut_down_unstarted).
  { intros [H|[H|[H|[H|[H|[H|[]]]]]]]; discriminate. }
  assert (Hi : 0 < total_files t) by (rewrite Htot; lia).
  destruct (cancel_before_dispatch _ _ _ _ s t 0 shut_down_unstarted s'
              H1 Hth Hpc Hi Hstop Hno Hrun)
    as (t' & Hth' & _ & _ & _ & _ & _ & Hpast & Hzero).
  destruct (Hzero Hall) as (Hs0 & He0 & Hlast & _).
  assert (Hpc' : pc t' = Returned)
    by (vm_compute in Hth'; inversion Hth'; reflexivity).
  split; [exact H1|]. split; [exact Hstop|]. split; [exact Hrun|].
  split; [exact Hd|]. split; [rewrite <- Htot; exact (Hlast Hd)|].
  split; [exact (proj2 (Hpast (or_intror Hpc')))|].
  exists t'. split; [exact Hth'|]. split; assumption.
Defined.

(** C5 as stated fails: the flag is set and the loop has seen it while
    no request had been started; a pool thread then takes the first
    request, converts it and writes its JPEG.  The summary still reports
    zero completed. *)
Lemma request_dispatched_after_the_flag :
  let s0 := state_after cancelled_at_once sample_app in
  let s1 := state_after [Thread_step] s0 in
  let s := state_after taken_after_the_flag s1 in
  run cancelled_at_once sample_app = Some s0
  /\ stop_requested s0 = true
  /\ option_map pc (thread s0) = Some (Check 0)
  /\ option_map future_to_file (thread s0)
     = Some [(Pending, "/pics/a.heic"); (Pending, "/pics/c.heic");
             (Pending, "/pics/bad.heic")]
  /\ files (world s0) !! "/out/a.jpg" = None
  /\ exec Thread_step s0 = Some s1
  /\ option_map pc (thread s1) = Some Stopping
  /\ option_map future_to_file (thread s1) = option_map future_to_file (thread s0)
  /\ run taken_after_the_flag s1 = Some s
  /\ option_map pc (thread s) = Some Returned
  /\ option_map future_to_file (thread s)
     = Some [(Finished (Return (true, "/out/a.jpg")), "/pics/a.heic");
             (Cancelled, "/pics/c.heic"); (Cancelled, "/pics/bad.heic")]
  /\ is_Some (files (world s) !! "/out/a.jpg")
  /\ option_map success_count (thread s) = Some 0
  /\ conversion_running s = false
  /\ last (notifications s) = Some (cancelled_notice 0 3).
Proof.
  cbv zeta.
  split; [vm_compute; reflexivity|].
  split; [vm_compute; reflexivity|].
  split; [vm_compute; reflexivity|].
  split; [vm_compute; reflexivity|].
  split; [vm_compute; reflexivity|].
  split; [vm_compute; reflexivity|].
  split; [vm_compute; reflexivity|].
  split; [vm_compute; reflexivity|].
  split; [vm_compute; reflexivity|].
  split; [vm_compute; reflexivity|].
  split; [vm_compute; reflexivity|].
  split; [vm_compute; eexists; reflexivity|].
  split; [vm_compute; reflexivity|].
  split; [vm_compute; reflexivity|].
  vm_compute. reflexivity.
Qed.

End AppFacts.

(* ===================================================================== *)
(** ** What one conversion does to the disk *)
(* ===================================================================== *)

Module ConverterEffects.
Import Py PIL Converter ConverterNotions EffectNotions Samples ConverterFacts StringFacts.

Lemma grows_refl w : grows w w.
Proof. unfold grows. repeat split; reflexivity. Qed.

Lemma grows_trans w1 w2 w3 : grows w1 w2 -> grows w2 w3 -> grows w1 w3.
Proof.
  unfold grows. intros (A1 & A2 & A3 & A4 & A5 & A6) (B1 & B2 & B3 & B4 & B5 & B6).
  split; [congruence|]. split; [congruence|]. split; [congruence|].
  split; [congruence|]. split; [congruence|].
  intros x Hx. apply B6, A6, Hx.
Qed.

Lemma mkdir_step_grows name leaf q w :
  grows w (snd (mkdir_step name leaf q w)).
Proof.
  unfold mkdir_step.
  repeat match goal with |- context [if ?c then _ else _] => destruct c end;
    try apply grows_refl.
  unfold grows; cbn. repeat split; try reflexivity. set_solver.
Qed.

Lemma mkdir_chain_grows name leaf qs : forall w,
  grows w (snd (mkdir_chain name leaf qs w)).
Proof.
  induction qs as [|q qs IH]; intros w; [apply grows_refl|].
  cbn [mkdir_chain]. unfold bind.
  pose proof (mkdir_step_grows name leaf q w) as Hs.
  destruct (mkdir_step name leaf q w) as [[[]|e] w1]; cbn in *.
  - eapply grows_trans; [exact Hs | apply IH].
  - exact Hs.
Qed.

Lemma makedirs_exist_ok_grows name w :
  grows w (snd (makedirs_exist_ok name w)).
Proof.
  unfold makedirs_exist_ok.
  destruct (negb (PyStr.truthy name)); [apply grows_refl|].
  apply mkdir_chain_grows.
Qed.

Lemma resolve_grows heif_path output_dir ps w :
  grows w (snd (resolve_output_dir heif_path output_dir ps w)).
Proof.
  unfold resolve_output_dir.
  destruct (ps && PosixPath.isabs heif_path); [|apply grows_refl].
  destruct (negb _); [|apply grows_refl].
  unfold bind, get_world.
  destruct (PosixPath.relpath _ _ _) as [rel|]; [|apply grows_refl].
  pose proof (makedirs_exist_ok_grows (PosixPath.join output_dir rel) w) as H.
  destruct (makedirs_exist_ok _ w) as [[[]|e] w1]; exact H.
Qed.

(** The resolver creates directories only on the mirroring path. *)
Lemma resolve_same_world heif_path output_dir ps w :
  ps = false \/ PosixPath.isabs heif_path = false
  \/ PyStr.startswith (PosixPath.dirname heif_path) output_dir = true ->
  resolve_output_dir heif_path output_dir ps w = (Return output_dir, w).
Proof.
  unfold resolve_output_dir. intros [-> | [-> | ->]]; cbn.
  - reflexivity.
  - rewrite andb_false_r. reflexivity.
  - destruct (ps && _); reflexivity.
Qed.

(** [read_exif] only writes to the log. *)
Lemma read_exif_world im filename ke w :
  exists l, snd (read_exif im filename ke w)
            = mk_world (cwd w) (dirs w) (files w) (readonly w) (now w)
                       (log w ++ l)%list.
Proof.
  unfold read_exif. destruct ke.
  - unfold try_except, bind, lift, getexif. destruct (im_exif im); cbn.
    + exists []. rewrite app_nil_r. destruct w; reflexivity.
    + eexists. reflexivity.
  - exists []. cbn. rewrite app_nil_r. destruct w; reflexivity.
Qed.

Lemma read_exif_value im filename ke w :
  fst (read_exif im filename ke w)
  = Return (if ke then match getexif im with
                       | Return x => Some x
                       | Raise _ => None
                       end
            else None).
Proof.
  unfold read_exif. destruct ke; [|reflexivity].
  unfold try_except, bind, lift, getexif. destruct (im_exif im); reflexivity.
Qed.

(** [save] either writes its one file or leaves the world alone. *)
Lemma save_world px sz p q ex w :
  match save_JPEG px sz p q ex w with
  | (Return _, w') =>
      w' = mk_world (cwd w) (dirs w) (<[ key w p := Jpeg px sz q ex ]> (files w))
                    (readonly w) (now w) (log w)
  | (Raise _, w') => w' = w
  end.
Proof.
  unfold save_JPEG.
  repeat match goal with |- context [if ?c then _ else _] => destruct c end;
    reflexivity.
Qed.

(** The converted picture is always of mode [RGB]. *)
Lemma final_image_is_RGB im px :
  to_final_image im = Return px -> mode_of px = RGB.
Proof.
  unfold to_final_image, split, paste, convert_RGB, new_RGB_white, tuple_index.
  destruct (mode_in_RGBA_LA (mode im)).
  - destruct (load im) as [p|e]; [|discriminate].
    destruct (nth_error _ 3) as [mask|]; [|discriminate].
    destruct (to_RGB p) eqn:E; intros H; inversion H; reflexivity.
  - destruct (load im) as [p|e]; [|discriminate].
    intros H; inversion H. destruct p; reflexivity.
Qed.

(** Everything [convert_image] does, read off its result. *)
Lemma convert_image_effects heif_path output_dir quality ps ke rp w b s w' :
  convert_image heif_path output_dir quality ps ke rp w = (Return (b, s), w') ->
  exists w1 l,
    grows w w1
    /\ (ps = false \/ PosixPath.isabs heif_path = false
        \/ PyStr.startswith (PosixPath.dirname heif_path) output_dir = true ->
        w1 = w)
    /\ cwd w' = cwd w /\ dirs w' = dirs w1 /\ readonly w' = readonly w
    /\ now w' = now w /\ log w' = (log w ++ l)%list
    /\ (b = false -> files w' = files w)
    /\ (b = true ->
        exists d im px,
          resolve_output_dir heif_path output_dir ps w = (Return d, w1)
          /\ fst (Image_open heif_path w1) = Return im
          /\ to_final_image im = Return px
          /\ s = jpeg_path_in d heif_path rp (now w)
          /\ files w' = <[ key w s := Jpeg px (im_size im) quality
                                          (exif_saved im ke) ]> (files w)).
Proof.
  intros Hconv.
  pose proof (convert_image_cases heif_path output_dir quality ps ke rp w) as Hc.
  pose proof (resolve_grows heif_path output_dir ps w) as Hg.
  pose proof (resolve_same_world heif_path output_dir ps w) as Hsame.
  destruct (resolve_output_dir heif_path output_dir ps w) as [[d|e] w1] eqn:Hres;
    cbn [snd] in Hg; exists w1; pose proof Hg as (G1 & G2 & G3 & G4 & G5 & G6).
  - assert (Hw1 : ps = false \/ PosixPath.isabs heif_path = false
                  \/ PyStr.startswith (PosixPath.dirname heif_path) output_dir = true
                  -> w1 = w).
    { intros H. specialize (Hsame H). congruence. }
    rewrite (body_after_resolve _ _ quality _ ke rp _ _ _ Hres) in Hc.
    destruct (fst (Image_open heif_path w1)) as [im|e] eqn:Hopen.
    + destruct (read_exif_world im (PosixPath.basename heif_path) ke w1)
        as (l & Hrw).
      pose proof (read_exif_value im (PosixPath.basename heif_path) ke w1) as Hrv.
      destruct (read_exif im _ ke w1) as [[ex|e] w2]; cbn in Hrw, Hrv;
        [|discriminate].
      inversion Hrv as [Hex]. clear Hrv.
      destruct (to_final_image im) as [px|e] eqn:Hfin.
      * pose proof (save_world px (im_size im)
                      (jpeg_path_in d heif_path rp (now w1)) quality
                      (if exif_wanted ex ke then ex else None) w2) as Hsv.
        destruct (save_JPEG _ _ _ _ _ w2) as [[[]|e] w3].
        -- rewrite Hc in Hconv. inversion Hconv; subst b s w'. clear Hconv.
           exists l. subst w3 w2. cbn.
           split; [exact Hg|]. split; [exact Hw1|].
           split; [exact G1|]. split; [reflexivity|]. split; [exact G3|].
           split; [exact G4|]. split; [rewrite G5; reflexivity|].
           split; [discriminate|].
           intros _. exists d, im, px.
           split; [first [exact Hres | reflexivity]|].
           split; [first [exact Hopen | reflexivity]|].
           split; [first [exact Hfin | reflexivity]|].
           split; [rewrite G4; reflexivity|].
           unfold key; cbn. rewrite G1, G2, G4. f_equal. f_equal.
           subst ex. unfold exif_wanted, exif_saved.
           destruct ke; [|reflexivity].
           destruct (getexif im) as [[|x l0]|]; reflexivity.
        -- rewrite Hc in Hconv. unfold failed in Hconv.
           inversion Hconv; subst b s w'. clear Hconv.
           subst w3 w2. eexists. cbn. rewrite <- app_assoc.
           split; [exact Hg|]. split; [exact Hw1|].
           split; [exact G1|]. split; [reflexivity|]. split; [exact G3|].
           split; [exact G4|]. split; [rewrite G5; reflexivity|].
           split; [intros _; exact G2 | discriminate].
      * rewrite Hc in Hconv. unfold failed in Hconv.
        inversion Hconv; subst b s w'. clear Hconv.
        subst w2. eexists. cbn. rewrite <- app_assoc.
        split; [exact Hg|]. split; [exact Hw1|].
        split; [exact G1|]. split; [reflexivity|]. split; [exact G3|].
        split; [exact G4|]. split; [rewrite G5; reflexivity|].
        split; [intros _; exact G2 | discriminate].
    + rewrite Hc in Hconv. unfold failed in Hconv.
      inversion Hconv; subst b s w'. clear Hconv.
      eexists. cbn.
      split; [exact Hg|]. split; [exact Hw1|].
      split; [exact G1|]. split; [reflexivity|]. split; [exact G3|].
      split; [exact G4|]. split; [rewrite G5; reflexivity|].
      split; [intros _; exact G2 | discriminate].
  - assert (Hbody : convert_image_body heif_path output_dir quality ps ke rp w
                    = (Raise e, w1)).
    { unfold convert_image_body, bind at 1. rewrite Hres. reflexivity. }
    rewrite Hbody in Hc. rewrite Hc in Hconv. unfold failed in Hconv.
    inversion Hconv; subst b s w'. clear Hconv.
    eexists. cbn.
    split; [exact Hg|].
    split; [intros H; specialize (Hsame H); discriminate|].
    split; [exact G1|]. split; [reflexivity|]. split; [exact G3|].
    split; [exact G4|]. split; [rewrite G5; reflexivity|].
    split; [intros _; exact G2 | discriminate].
Qed.

(** X2. A conversion that reports success has written exactly one image
    file: a JPEG of mode RGB with the requested quality, at the returned
    path, whose name ends in [.jpg]; every other image file, source or
    JPEG, is as before.  Besides that file the call may only add
    directories and append lines to the log. *)
Theorem successful_conversion_writes_one_jpeg
        heif_path output_dir quality ps ke rp w s w' :
  convert_image heif_path output_dir quality ps ke rp w = (Return (true, s), w') ->
  PyStr.endswith s ".jpg" = true
  /\ (exists px sz ex,
        mode_of px = RGB
        /\ files w' = <[ key w s := Jpeg px sz quality ex ]> (files w))
  /\ dirs w ⊆ dirs w'
  /\ exists l, log w' = (log w ++ l)%list.
Proof.
  intros H.
  destruct (convert_image_effects _ _ _ _ _ _ _ _ _ _ H)
    as (w1 & l & Hg & _ & _ & Hdirs & _ & _ & Hlog & _ & Hs).
  destruct (Hs eq_refl) as (d & im & px & _ & _ & Hfin & Hpath & Hfiles).
  split; [|split; [|split]].
  - rewrite Hpath. unfold jpeg_path_in. apply join_ends_with.
  - exists px, (im_size im), (exif_saved im ke).
    split; [exact (final_image_is_RGB _ _ Hfin) | exact Hfiles].
  - rewrite Hdirs. apply Hg.
  - exists l. exact Hlog.
Qed.

Lemma successful_conversion_writes_one_jpeg_witness :
  let r := convert_image "/pics/a.heic" "/out" 90 true false None sample_world in
  fst r = Return (true, "/out/pics/a.jpg")
  /\ exists px sz ex,
       mode_of px = RGB
       /\ files (snd r)
          = <[ "/out/pics/a.jpg" := Jpeg px sz 90 ex ]> (files sample_world).
Proof.
  intros r. split; [vm_compute; reflexivity|].
  exact (proj1 (proj2 (successful_conversion_writes_one_jpeg
                         "/pics/a.heic" "/out" 90 true false None sample_world
                         "/out/pics/a.jpg" (snd r)
                         ltac:(vm_compute; reflexivity)))).
Defined.

(** X3. A conversion never removes a directory and never changes the
    working directory or the read-only marks; it creates directories
    only when [preserve_structure] is set, the source path is absolute
    and the source directory does not start with the text of the output
    directory. *)
Theorem conversion_only_adds_mirror_directories
        heif_path output_dir quality ps ke rp w b s w' :
  convert_image heif_path output_dir quality ps ke rp w = (Return (b, s), w') ->
  dirs w ⊆ dirs w' /\ cwd w' = cwd w /\ readonly w' = readonly w
  /\ (ps = false \/ PosixPath.isabs heif_path = false
      \/ PyStr.startswith (PosixPath.dirname heif_path) output_dir = true ->
      dirs w' = dirs w).
Proof.
  intros H.
  destruct (convert_image_effects _ _ _ _ _ _ _ _ _ _ H)
    as (w1 & l & Hg & Hsame & Hcwd & Hdirs & Hro & _).
  destruct Hg as (_ & _ & _ & _ & _ & Hsub).
  split; [rewrite Hdirs; exact Hsub|].
  split; [exact Hcwd|]. split; [exact Hro|].
  intros Hc. rewrite Hdirs, (Hsame Hc). reflexivity.
Qed.

Lemma conversion_only_adds_mirror_directories_witness :
  let r := convert_image "/pics/a.heic" "/out" 90 false true None sample_world in
  fst r = Return (true, "/out/a.jpg") /\ dirs (snd r) = dirs sample_world.
Proof.
  intros r. split; [vm_compute; reflexivity|].
  refine (proj2 (proj2 (proj2 (conversion_only_adds_mirror_directories
            "/pics/a.heic" "/out" 90 false true None sample_world
            true "/out/a.jpg" (snd r) _))) _).
  - vm_compute. reflexivity.
  - left. reflexivity.
Defined.

Lemma Image_open_same_files path w w1 :
  cwd w1 = cwd w -> files w1 = files w -> forall im,
  fst (Image_open path w) = Return im -> fst (Image_open path w1) = Return im.
Proof.
  intros Hc Hf im. unfold Image_open, key. rewrite Hc, Hf.
  destruct (if PyStr.truthy path then _ else None) as [[r|px sz q ex]|];
    cbn; try (intros H; exact H).
  destruct (isdir w path); discriminate.
Qed.

(** X4. The JPEG carries EXIF data exactly when [keep_exif] is set and
    [getexif()] returned a non-empty block; with [keep_exif] unset, with
    a failing [getexif()] or with an empty block it is saved without. *)
Theorem exif_is_attached_when_present
        heif_path output_dir quality ps ke rp w s w' im :
  convert_image heif_path output_dir quality ps ke rp w = (Return (true, s), w') ->
  fst (Image_open heif_path w) = Return im ->
  exists px,
    files w' !! key w s
    = Some (Jpeg px (im_size im) quality
                 (if ke then match getexif im with
                             | Return (x :: l) => Some (x :: l)
                             | _ => None
                             end
                  else None)).
Proof.
  intros H Hopen.
  destruct (convert_image_effects _ _ _ _ _ _ _ _ _ _ H)
    as (w1 & l & Hg & _ & _ & _ & _ & _ & _ & _ & Hs).
  destruct (Hs eq_refl) as (d & im' & px & _ & Hopen' & _ & _ & Hfiles).
  destruct Hg as (G1 & G2 & _).
  rewrite (Image_open_same_files heif_path w w1 G1 G2 im Hopen) in Hopen'.
  inversion Hopen'; subst im'.
  exists px. rewrite Hfiles. apply lookup_insert_eq.
Qed.

Lemma exif_is_attached_when_present_witness :
  let r1 := convert_image "/pics/a.heic" "/out" 90 false true None sample_world in
  let r2 := convert_image "/pics/a.heic" "/out" 90 false false None sample_world in
  (exists px, files (snd r1) !! "/out/a.jpg"
              = Some (Jpeg px (2, 1)%nat 90 (Some [(271%Z, "Apple")])))
  /\ (exists px, files (snd r2) !! "/out/a.jpg"
                 = Some (Jpeg px (2, 1)%nat 90 None)).
Proof.
  intros r1 r2. split.
  - exact (exif_is_attached_when_present
             "/pics/a.heic" "/out" 90 false true None sample_world
             "/out/a.jpg" (snd r1) rgba_picture
             ltac:(vm_compute; reflexivity) ltac:(vm_compute; reflexivity)).
  - exact (exif_is_attached_when_present
             "/pics/a.heic" "/out" 90 false false None sample_world
             "/out/a.jpg" (snd r2) rgba_picture
             ltac:(vm_compute; reflexivity) ltac:(vm_compute; reflexivity)).
Defined.

(** *** Flattening *)

Lemma blend_band_length mask : forall dst src,
  List.length (blend_band mask dst src) = List.length dst.
Proof.
  induction mask as [|m mask IH]; intros [|d dst] [|x src]; cbn; try reflexivity.
  rewrite IH. reflexivity.
Qed.

Lemma blend_band_nth mask : forall dst src i,
  (i < List.length mask)%nat -> (i < List.length dst)%nat ->
  (i < List.length src)%nat ->
  nth i (blend_band mask dst src) 0%Z
  = blend8 (nth i mask 0%Z) (nth i dst 0%Z) (nth i src 0%Z).
Proof.
  induction mask as [|m mask IH]; intros [|d dst] [|x src] [|i] Hm Hd Hs;
    cbn in *; try lia; try reflexivity.
  apply IH; lia.
Qed.

Lemma nth_repeat_lt (x : Z) n i : (i < n)%nat -> nth i (repeat x n) 0%Z = x.
Proof.
  revert i. induction n as [|n IH]; intros [|i] H; cbn; try lia; try reflexivity.
  apply IH. lia.
Qed.

(** X5. An RGBA source whose four bands cover the picture is flattened
    pixel by pixel: each output sample is Pillow's blend of white and the
    source sample under the alpha value, so a fully transparent pixel
    comes out white and a fully opaque one keeps its colour. *)
Theorem rgba_is_flattened_pixel_by_pixel r g b a sz ex n :
  n = (fst sz * snd sz)%nat ->
  List.length r = n -> List.length g = n -> List.length b = n ->
  List.length a = n ->
  exists R G B,
    to_final_image (mk_image (PRGBA r g b a) sz None ex) = Return (PRGB R G B)
    /\ List.length R = n /\ List.length G = n /\ List.length B = n
    /\ forall i, (i < n)%nat ->
         nth i R 0%Z = flattened_sample a r i
         /\ nth i G 0%Z = flattened_sample a g i
         /\ nth i B 0%Z = flattened_sample a b i
         /\ (nth i a 0%Z = 0%Z ->
             nth i R 0%Z = 255%Z /\ nth i G 0%Z = 255%Z /\ nth i B 0%Z = 255%Z)
         /\ (nth i a 0%Z = 255%Z ->
             (0 <= nth i r 0 <= 255)%Z -> (0 <= nth i g 0 <= 255)%Z ->
             (0 <= nth i b 0 <= 255)%Z ->
             nth i R 0%Z = nth i r 0%Z /\ nth i G 0%Z = nth i g 0%Z
             /\ nth i B 0%Z = nth i b 0%Z).
Proof.
  intros Hn Hr Hg Hb Ha.
  eexists _, _, _. split; [rewrite ResolverFacts.rgba_is_flattened; reflexivity|].
  cbn zeta. rewrite <- Hn.
  rewrite !blend_band_length, repeat_length.
  split; [reflexivity|]. split; [reflexivity|]. split; [reflexivity|].
  intros i Hi.
  assert (HR : forall c, List.length c = n ->
               nth i (blend_band a (repeat 255%Z n) c) 0%Z = flattened_sample a c i).
  { intros c Hc. rewrite blend_band_nth by (rewrite ?repeat_length; lia).
    rewrite nth_repeat_lt by exact Hi. reflexivity. }
  rewrite !HR by assumption. unfold flattened_sample.
  split; [reflexivity|]. split; [reflexivity|]. split; [reflexivity|].
  split.
  - intros ->. rewrite !ResolverFacts.blend8_transparent by lia. auto.
  - intros -> H1 H2 H3. rewrite !ResolverFacts.blend8_opaque by assumption. auto.
Qed.

Lemma rgba_is_flattened_pixel_by_pixel_witness :
  exists R G B,
    to_final_image rgba_picture = Return (PRGB R G B)
    /\ nth 0 R 0%Z = 255%Z /\ nth 1 R 0%Z = 20%Z.
Proof.
  destruct (rgba_is_flattened_pixel_by_pixel
              [10; 20]%Z [30; 40]%Z [50; 60]%Z [0; 255]%Z (2, 1)%nat
              (Return [(271%Z, "Apple")]) 2
              eq_refl eq_refl eq_refl eq_refl eq_refl)
    as (R & G & B & Hfin & _ & _ & _ & Hpix).
  exists R, G, B. split; [exact Hfin|]. split.
  - apply (Hpix 0%nat); [lia | reflexivity].
  - destruct (Hpix 1%nat ltac:(lia)) as (_ & _ & _ & _ & Hop).
    apply (Hop eq_refl); cbn; lia.
Defined.

(** *** Converting again *)

Lemma convert_image_success_inv heif_path output_dir quality ps ke rp w s w' :
  convert_image heif_path output_dir quality ps ke rp w = (Return (true, s), w') ->
  exists d w1 im ex w2 px,
    resolve_output_dir heif_path output_dir ps w = (Return d, w1)
    /\ fst (Image_open heif_path w1) = Return im
    /\ read_exif im (PosixPath.basename heif_path) ke w1 = (Return ex, w2)
    /\ to_final_image im = Return px
    /\ save_JPEG px (im_size im) (jpeg_path_in d heif_path rp (now w1)) quality
                 (if exif_wanted ex ke then ex else None) w2 = (Return tt, w')
    /\ s = jpeg_path_in d heif_path rp (now w1).
Proof.
  intros Hconv.
  pose proof (convert_image_cases heif_path output_dir quality ps ke rp w) as Hc.
  destruct (resolve_output_dir heif_path output_dir ps w) as [[d|e] w1] eqn:Hres.
  - rewrite (body_after_resolve _ _ quality _ ke rp _ _ _ Hres) in Hc.
    destruct (fst (Image_open heif_path w1)) as [im|e] eqn:Hopen;
      [|rewrite Hc in Hconv; discriminate].
    destruct (read_exif im _ ke w1) as [[ex|e] w2] eqn:Hex;
      [|rewrite Hc in Hconv; discriminate].
    destruct (to_final_image im) as [px|e] eqn:Hfin;
      [|rewrite Hc in Hconv; discriminate].
    destruct (save_JPEG _ _ _ _ _ w2) as [[[]|e] w3] eqn:Hsave;
      [|rewrite Hc in Hconv; discriminate].
    rewrite Hc in Hconv. inversion Hconv; subst.
    exists d, w1, im, ex, w2, px. repeat split; assumption.
  - assert (Hbody : convert_image_body heif_path output_dir quality ps ke rp w
                    = (Raise e, w1)).
    { unfold convert_image_body, bind at 1. rewrite Hres. reflexivity. }
    rewrite Hbody in Hc. rewrite Hc in Hconv. discriminate.
Qed.

Lemma convert_image_success_intro
      heif_path output_dir quality ps ke rp w d w1 im ex w2 px w' :
  resolve_output_dir heif_path output_dir ps w = (Return d, w1) ->
  fst (Image_open heif_path w1) = Return im ->
  read_exif im (PosixPath.basename heif_path) ke w1 = (Return ex, w2) ->
  to_final_image im = Return px ->
  save_JPEG px (im_size im) (jpeg_path_in d heif_path rp (now w1)) quality
            (if exif_wanted ex ke then ex else None) w2 = (Return tt, w') ->
  convert_image heif_path output_dir quality ps ke rp w
  = (Return (true, jpeg_path_in d heif_path rp (now w1)), w').
Proof.
  intros Hres Hopen Hex Hfin Hsave.
  pose proof (convert_image_cases heif_path output_dir quality ps ke rp w) as Hc.
  rewrite (body_after_resolve _ _ quality _ ke rp _ _ _ Hres), Hopen, Hex, Hfin,
    Hsave in Hc.
  exact Hc.
Qed.

Lemma is_dir_key_dirs w w' q :
  dirs w ⊆ dirs w' -> is_dir_key w q = true -> is_dir_key w' q = true.
Proof.
  unfold is_dir_key. intros Hsub H. apply orb_true_iff in H.
  apply orb_true_iff. destruct H as [H|H]; [left; exact H|right].
  apply bool_decide_eq_true in H. apply bool_decide_eq_true. apply Hsub, H.
Qed.

Lemma mkdir_step_ok name leaf q w w' :
  mkdir_step name leaf q w = (Return tt, w') -> is_dir_key w' q = true.
Proof.
  unfold mkdir_step. destruct (is_dir_key w q) eqn:E.
  - intros H; inversion H; subst. exact E.
  - destruct (bool_decide (is_Some _)); [discriminate|].
    destruct (bool_decide (_ ∈ readonly w)); [discriminate|].
    intros H; inversion H; subst. unfold is_dir_key; cbn.
    apply orb_true_iff. right. apply bool_decide_eq_true. set_solver.
Qed.

Lemma mkdir_chain_ok name leaf qs : forall w w',
  mkdir_chain name leaf qs w = (Return tt, w') ->
  Forall (fun q => is_dir_key w' q = true) qs.
Proof.
  induction qs as [|q qs IH]; intros w w' H; [constructor|].
  cbn [mkdir_chain] in H. unfold bind in H.
  destruct (mkdir_step name leaf q w) as [[[]|e] w1] eqn:E; [|discriminate].
  constructor; [|eapply IH; exact H].
  pose proof (mkdir_chain_grows name leaf qs w1) as Hg. rewrite H in Hg.
  destruct Hg as (_ & _ & _ & _ & _ & Hsub).
  eapply is_dir_key_dirs; [exact Hsub | eapply mkdir_step_ok; exact E].
Qed.

Lemma mkdir_chain_again name leaf qs w :
  Forall (fun q => is_dir_key w q = true) qs ->
  mkdir_chain name leaf qs w = (Return tt, w).
Proof.
  induction 1 as [|q qs Hq Hqs IH]; [reflexivity|].
  cbn [mkdir_chain]. unfold bind, mkdir_step. rewrite Hq. exact IH.
Qed.

Lemma is_dir_key_same w w' q : dirs w' = dirs w -> is_dir_key w' q = is_dir_key w q.
Proof. intros H. unfold is_dir_key. rewrite H. reflexivity. Qed.

(** Once the resolver has succeeded, it succeeds again without creating
    anything, whatever files have been written since. *)
Lemma resolve_again heif_path output_dir ps w d w1 w2 :
  resolve_output_dir heif_path output_dir ps w = (Return d, w1) ->
  same_tree w1 w2 ->
  resolve_output_dir heif_path output_dir ps w2 = (Return d, w2).
Proof.
  intros Hres (Hc & Hd & Hr).
  pose proof (resolve_grows heif_path output_dir ps w) as Hg.
  rewrite Hres in Hg. cbn [snd] in Hg. destruct Hg as (G1 & _).
  unfold resolve_output_dir in *.
  destruct (ps && PosixPath.isabs heif_path); [|inversion Hres; reflexivity].
  destruct (negb _); [|inversion Hres; reflexivity].
  unfold bind, get_world in *. rewrite Hc, G1.
  destruct (PosixPath.relpath _ _ _) as [rel|]; [|discriminate].
  unfold makedirs_exist_ok in *.
  destruct (negb (PyStr.truthy _)); [discriminate|].
  assert (Hk : key w2 (PosixPath.join output_dir rel)
               = key w (PosixPath.join output_dir rel)).
  { unfold key. rewrite Hc, G1. reflexivity. }
  rewrite Hk.
  destruct (mkdir_chain _ _ _ w) as [[[]|e] wa] eqn:Hchain; [|discriminate].
  inversion Hres; subst d wa. clear Hres.
  pose proof (mkdir_chain_ok _ _ _ _ _ Hchain) as Hall.
  rewrite mkdir_chain_again; [reflexivity|].
  eapply List.Forall_impl; [|exact Hall].
  intros q Hq. cbn in Hq. rewrite (is_dir_key_same w1 w2 q Hd). exact Hq.
Qed.

Lemma save_again px sz p q ex w w' wb :
  save_JPEG px sz p q ex w = (Return tt, w') ->
  same_tree w wb ->
  save_JPEG px sz p q ex wb
  = (Return tt,
     mk_world (cwd wb) (dirs wb) (<[ key w p := Jpeg px sz q ex ]> (files wb))
              (readonly wb) (now wb) (log wb)).
Proof.
  intros H (Hc & Hd & Hr). unfold save_JPEG, key in *. rewrite Hc.
  rewrite !(is_dir_key_same w wb _ Hd), Hr.
  repeat match goal with
         | H : context [if ?c then _ else _] |- _ => destruct c
         end; try discriminate.
  reflexivity.
Qed.

(** X6. Converting the same picture a second time with the same
    arguments, at any later moment, when no rename pattern is in use and
    the source is not its own output: the conversion succeeds with the
    same path, creates no directory and leaves the files as the first
    conversion left them. *)
Theorem converting_again_changes_no_file
        heif_path output_dir quality ps ke rp w s w1 later :
  pattern_given rp = None ->
  convert_image heif_path output_dir quality ps ke rp w = (Return (true, s), w1) ->
  key w heif_path <> key w s ->
  cwd later = cwd w1 /\ dirs later = dirs w1 /\ files later = files w1
  /\ readonly later = readonly w1 ->
  exists w2,
    convert_image heif_path output_dir quality ps ke rp later
    = (Return (true, s), w2)
    /\ files w2 = files w1 /\ dirs w2 = dirs w1.
Proof.
  intros Hpat Hconv Hne (L1 & L2 & L3 & L4).
  destruct (convert_image_success_inv _ _ _ _ _ _ _ _ _ Hconv)
    as (d & wr & im & ex & we & px & Hres & Hopen & Hex & Hfin & Hsave & Hs).
  pose proof (resolve_grows heif_path output_dir ps w) as Hg.
  rewrite Hres in Hg. cbn [snd] in Hg.
  destruct Hg as (G1 & G2 & G3 & G4 & G5 & G6).
  destruct (read_exif_world im (PosixPath.basename heif_path) ke wr) as (l & Hwe).
  rewrite Hex in Hwe. cbn in Hwe.
  pose proof (save_world px (im_size im) (jpeg_path_in d heif_path rp (now wr))
                         quality (if exif_wanted ex ke then ex else None) we) as Hw1.
  rewrite Hsave in Hw1.
  assert (Htree : same_tree wr later).
  { unfold same_tree. rewrite L1, L2, L4. subst w1 we. cbn.
    repeat split; reflexivity. }
  assert (Hfiles1 : files w1 = <[ key w s := Jpeg px (im_size im) quality
                                           (if exif_wanted ex ke then ex else None) ]>
                               (files w)).
  { subst w1 we; cbn. unfold key; cbn. rewrite G1, G2, <- Hs. reflexivity. }
  pose proof (resolve_again _ _ _ _ _ _ later Hres Htree) as Hres2.
  assert (Hopen2 : fst (Image_open heif_path later) = Return im).
  { revert Hopen. unfold Image_open, key.
    destruct Htree as (T1 & _). rewrite T1, L3, Hfiles1.
    destruct (PyStr.truthy heif_path);
      [|destruct (isdir wr heif_path); discriminate].
    rewrite lookup_insert_ne.
    - rewrite G1, G2.
      destruct (files w !! _) as [[r|p0 s0 q0 e0]|]; cbn; try (intros H; exact H).
      destruct (isdir wr heif_path); discriminate.
    - intros E. apply Hne. unfold key in *. rewrite G1 in E. symmetry. exact E. }
  destruct (read_exif_world im (PosixPath.basename heif_path) ke later)
    as (l2 & Hw2).
  pose proof (read_exif_value im (PosixPath.basename heif_path) ke later) as Hv2.
  pose proof (read_exif_value im (PosixPath.basename heif_path) ke wr) as Hv1.
  rewrite Hex in Hv1. cbn in Hv1.
  destruct (read_exif im _ ke later) as [rex2 w2e] eqn:Hex2. cbn in Hw2, Hv2.
  rewrite <- Hv1 in Hv2. subst rex2.
  assert (Htree2 : same_tree we w2e).
  { subst w2e we. unfold same_tree; cbn.
    destruct Htree as (T1 & T2 & T3). repeat split; assumption. }
  pose proof (save_again _ _ _ _ _ _ _ w2e Hsave Htree2) as Hsave2.
  assert (Hname : jpeg_path_in d heif_path rp (now later)
                  = jpeg_path_in d heif_path rp (now wr)).
  { unfold jpeg_path_in.
    rewrite !(NamingFacts.output_name_no_pattern _ _ _ Hpat). reflexivity. }
  eexists. split; [|split].
  - rewrite Hs, <- Hname.
    eapply convert_image_success_intro;
      [exact Hres2 | exact Hopen2 | exact Hex2 | exact Hfin |].
    rewrite Hname. exact Hsave2.
  - subst w2e; cbn. rewrite L3, Hfiles1.
    replace (key we (jpeg_path_in d heif_path rp (now wr))) with (key w s).
    + apply insert_insert_eq.
    + subst we. unfold key; cbn. rewrite G1, Hs. reflexivity.
  - subst w2e; cbn. exact L2.
Qed.

Lemma converting_again_changes_no_file_witness :
  let r := convert_image "/pics/a.heic" "/out" 90 true true None sample_world in
  fst r = Return (true, "/out/pics/a.jpg")
  /\ exists w2,
       convert_image "/pics/a.heic" "/out" 90 true true None (snd r)
       = (Return (true, "/out/pics/a.jpg"), w2)
       /\ files w2 = files (snd r) /\ dirs w2 = dirs (snd r).
Proof.
  intros r. split; [vm_compute; reflexivity|].
  apply (converting_again_changes_no_file
           "/pics/a.heic" "/out" 90 true true None sample_world
           "/out/pics/a.jpg" (snd r) (snd r)).
  - reflexivity.
  - vm_compute. reflexivity.
  - vm_compute. discriminate.
  - repeat split; reflexivity.
Defined.

(** *** Two sources of one name *)

Lemma output_name_base p1 p2 rp t1 t2 :
  base_name p1 = base_name p2 ->
  pattern_given rp = None \/ t1 = t2 ->
  output_name p1 rp t1 = output_name p2 rp t2.
Proof.
  unfold output_name, base_name. cbv zeta. intros Hb Ht. rewrite Hb.
  destruct (pattern_given rp) as [pat|]; [|reflexivity].
  destruct Ht as [Ht|Ht]; [discriminate | rewrite Ht; reflexivity].
Qed.

(** X24. Without [preserve_structure] the output path is made of the
    output directory and the base name of the source alone (and, with
    a pattern, the clock): two sources of the same base name, whatever
    their directories and extensions, are converted to the same path,
    and the second conversion replaces the JPEG of the first. *)
Theorem same_base_name_same_output
        p1 p2 output_dir q1 q2 ke1 ke2 rp w w1 later w2 s1 s2 :
  convert_image p1 output_dir q1 false ke1 rp w = (Return (true, s1), w1) ->
  convert_image p2 output_dir q2 false ke2 rp later = (Return (true, s2), w2) ->
  base_name p1 = base_name p2 ->
  cwd later = cwd w ->
  pattern_given rp = None \/ now later = now w ->
  s2 = s1
  /\ exists px sz ex, files w2 !! key w s1 = Some (Jpeg px sz q2 ex).
Proof.
  intros H1 H2 Hb Hc Ht.
  destruct (convert_image_effects _ _ _ _ _ _ _ _ _ _ H1)
    as (wa & la & _ & _ & _ & _ & _ & _ & _ & _ & Hs1).
  destruct (Hs1 eq_refl) as (d1 & im1 & px1 & Hr1 & _ & _ & Hp1 & _).
  destruct (convert_image_effects _ _ _ _ _ _ _ _ _ _ H2)
    as (wb & lb & _ & _ & _ & _ & _ & _ & _ & _ & Hs2).
  destruct (Hs2 eq_refl) as (d2 & im2 & px2 & Hr2 & _ & _ & Hp2 & Hf2).
  unfold resolve_output_dir in Hr1, Hr2. cbn in Hr1, Hr2.
  inversion Hr1; subst d1 wa. inversion Hr2; subst d2 wb.
  assert (Hs : s2 = s1).
  { rewrite Hp1, Hp2. unfold jpeg_path_in.
    rewrite (output_name_base p2 p1 rp (now later) (now w)); [reflexivity | |].
    - symmetry. exact Hb.
    - exact Ht. }
  split; [exact Hs|].
  exists px2, (im_size im2), (exif_saved im2 ke2).
  rewrite Hf2, Hs. unfold key. rewrite Hc. apply lookup_insert_eq.
Qed.

Lemma same_base_name_same_output_witness :
  let r1 := convert_image "/pics/a.heic" "/out" 90 false true None sample_world in
  let r2 := convert_image "/out2/sub/a.heic" "/out" 50 false true None (snd r1) in
  fst r1 = Return (true, "/out/a.jpg")
  /\ fst r2 = Return (true, "/out/a.jpg")
  /\ exists px sz ex,
       files (snd r2) !! "/out/a.jpg" = Some (Jpeg px sz 50 ex).
Proof.
  intros r1 r2. split; [vm_compute; reflexivity|].
  split; [vm_compute; reflexivity|].
  refine (proj2 (same_base_name_same_output
                   "/pics/a.heic" "/out2/sub/a.heic" "/out" 90 50 true true None
                   sample_world (snd r1) (snd r1) (snd r2)
                   "/out/a.jpg" "/out/a.jpg" _ _ _ _ _)).
  - vm_compute. reflexivity.
  - vm_compute. reflexivity.
  - vm_compute. reflexivity.
  - vm_compute. reflexivity.
  - left. reflexivity.
Defined.

End ConverterEffects.

(* ===================================================================== *)
(** ** Facts about the file search *)
(* ===================================================================== *)

Module FindFacts.
Import Py Converter ConverterNotions SearchNotions Samples StringFacts.

Lemma fnmatch_literal pat : literal pat = true ->
  forall name, fnmatchcase pat name = String.eqb pat name.
Proof.
  induction pat as [|c pat IH]; intros Hl name.
  - destruct name; reflexivity.
  - cbn in Hl. apply andb_true_iff in Hl. destruct Hl as [Hl Hl3].
    apply andb_true_iff in Hl. destruct Hl as [Hl1 Hl2].
    apply negb_true_iff in Hl1, Hl2.
    cbn [fnmatchcase]. rewrite Hl1.
    destruct name as [|d name]; [reflexivity|].
    rewrite Hl2. cbn [orb String.eqb]. rewrite (IH Hl3).
    destruct (Ascii.eqb c d); reflexivity.
Qed.

Lemma fnmatch_star_step pat c name :
  fnmatchcase (String "*" pat) (String c name)
  = fnmatchcase pat (String c name) || fnmatchcase (String "*" pat) name.
Proof. reflexivity. Qed.

Lemma fnmatch_star_empty pat :
  fnmatchcase (String "*" pat) "" = fnmatchcase pat "".
Proof. cbn. apply orb_false_r. Qed.

(** [*] followed by a literal matches the names that end with it. *)
Lemma fnmatch_star pat : literal pat = true ->
  forall name,
    fnmatchcase (String "*" pat) name = true <-> exists pre, name = pre ++ pat.
Proof.
  intros Hl. induction name as [|c name IH].
  - rewrite fnmatch_star_empty, (fnmatch_literal pat Hl). split.
    + intros H. apply String.eqb_eq in H. subst. exists "". reflexivity.
    + intros [pre H]. destruct pre; [|discriminate].
      change ("" = pat) in H. rewrite <- H. reflexivity.
  - rewrite fnmatch_star_step, (fnmatch_literal pat Hl), orb_true_iff, IH. split.
    + intros [H | [pre H]].
      * apply String.eqb_eq in H. exists "". rewrite H. reflexivity.
      * exists (String c pre). rewrite H. reflexivity.
    + intros [[|d pre] H].
      * left. change (String c name = pat) in H. rewrite H.
        apply String.eqb_refl.
      * right. inversion H. exists pre. reflexivity.
Qed.

Lemma endswith_iff name e :
  PyStr.endswith name e = true <-> exists pre, name = pre ++ e.
Proof.
  split; [apply endswith_inv | intros [pre ->]; apply endswith_app].
Qed.

Lemma extensions_are_endings :
  extensions = map (String "*") endings
  /\ forallb literal endings = true
  /\ forallb (fun p => negb (ishidden p)) extensions = true.
Proof. repeat split; reflexivity. Qed.

Lemma glob_in_spec root listing e p :
  In e endings ->
  In p (glob_in root listing (String "*" e))
  <-> exists name, In name (map entry_name listing)
                   /\ ishidden name = false
                   /\ PyStr.endswith name e = true
                   /\ p = PosixPath.join root name.
Proof.
  intros He.
  assert (Hlit : literal e = true).
  { destruct extensions_are_endings as (_ & H & _).
    rewrite forallb_forall in H. apply H, He. }
  unfold glob_in. change (ishidden (String "*" e)) with false. cbn iota.
  rewrite in_map_iff. split.
  - intros (name & Hp & Hin). apply list_elem_of_In in Hin.
    apply list_elem_of_filter in Hin. destruct Hin as [Hm Hin].
    apply list_elem_of_filter in Hin. destruct Hin as [Hh Hin].
    apply list_elem_of_In in Hin.
    exists name. repeat split; try assumption; try (symmetry; assumption).
    apply endswith_iff. apply (fnmatch_star e Hlit). exact Hm.
  - intros (name & Hin & Hh & Hend & ->). exists name. split; [reflexivity|].
    apply list_elem_of_In. apply list_elem_of_filter. split.
    + apply (fnmatch_star e Hlit). apply endswith_iff. exact Hend.
    + apply list_elem_of_filter. split; [exact Hh|].
      apply list_elem_of_In. exact Hin.
Qed.

Lemma has_ending_iff name :
  has_ending name = true <-> exists e, In e endings /\ PyStr.endswith name e = true.
Proof. unfold has_ending. apply existsb_exists. Qed.

Lemma glob_extensions_spec root ls p :
  In p (glob_extensions root ls)
  <-> exists name, In name (map entry_name ls)
                   /\ ishidden name = false
                   /\ has_ending name = true
                   /\ p = PosixPath.join root name.
Proof.
  unfold glob_extensions.
  rewrite in_flat_map. destruct extensions_are_endings as (-> & _ & _).
  split.
  - intros (pat & Hpat & Hin). apply in_map_iff in Hpat.
    destruct Hpat as (e & <- & He).
    apply (glob_in_spec root ls e p He) in Hin.
    destruct Hin as (name & H1 & H2 & H3 & H4).
    exists name. repeat split; try assumption.
    apply has_ending_iff. exists e. split; assumption.
  - intros (name & H1 & H2 & H3 & H4). apply has_ending_iff in H3.
    destruct H3 as (e & He & Hend).
    exists (String "*" e). split; [apply in_map; exact He|].
    apply (glob_in_spec root ls e p He).
    exists name. repeat split; assumption.
Qed.

Lemma walk_entry_below : forall e root r ls,
  In (r, ls) (walk_entry root e) ->
  exists n children,
    e = SubDir n children /\ below (PosixPath.join root n) children r ls.
Proof.
  fix IH 1. intros [n|n ch] root r ls H.
  - destruct H.
  - exists n, ch. split; [reflexivity|].
    cbn [walk_entry] in H. destruct H as [H|H].
    + inversion H; subst. apply below_here.
    + revert H. generalize (PosixPath.join root n). intros sub H.
      assert (G : exists n0 ch0,
                 In (SubDir n0 ch0) ch
                 /\ below (PosixPath.join sub n0) ch0 r ls).
      { revert H. induction ch as [|c ch IHch]; intros H; [destruct H|].
        cbn [flat_map] in H. apply in_app_or in H. destruct H as [H|H].
        - destruct (IH c sub r ls H) as (n0 & ch0 & -> & Hb).
          exists n0, ch0. split; [left; reflexivity | exact Hb].
        - destruct (IHch H) as (n0 & ch0 & Hin & Hb).
          exists n0, ch0. split; [right; exact Hin | exact Hb]. }
      destruct G as (n0 & ch0 & Hin & Hb).
      eapply below_sub; eauto.
Qed.

Lemma below_walk d l r ls :
  below d l r ls ->
  (r, ls) = (d, l) \/ In (r, ls) (flat_map (walk_entry d) l).
Proof.
  induction 1 as [d l | d l n ch r ls Hin Hb IH]; [left; reflexivity|].
  right. apply in_flat_map. exists (SubDir n ch). split; [exact Hin|].
  cbn [walk_entry]. destruct IH as [E|E]; [left; symmetry; exact E | right; exact E].
Qed.

Lemma walk_spec d l r ls :
  In (r, ls) (walk d l) <-> d <> "" /\ below d l r ls.
Proof.
  unfold walk. destruct d as [|c d].
  - split; [intros [] | intros [H _]; congruence].
  - cbn [PyStr.truthy]. split.
    + intros [H|H]; (split; [discriminate|]).
      * inversion H; subst. apply below_here.
      * apply in_flat_map in H. destruct H as (e & He & H).
        destruct (walk_entry_below e _ r ls H) as (n & ch & -> & Hb).
        eapply below_sub; eauto.
    + intros [_ H]. destruct (below_walk _ _ _ _ H) as [E|E].
      * left. symmetry. exact E.
      * right. exact E.
Qed.

(** X7. For a directory that [glob.glob] takes as written: without
    recursion the search returns exactly the entries of the directory,
    files and subdirectories alike, whose name does not start with a
    dot and ends in [.heif], [.heic], [.hif] or their upper-case forms,
    each joined to the directory.  With recursion, and subdirectories
    whose names [glob.glob] takes as written, it returns exactly such
    entries of the directory and of every directory below it, each
    joined to its own directory, those of the directory itself first;
    for the empty path it returns nothing. *)
Theorem find_heif_files_characterised directory listing :
  literal_dir directory = true ->
  (forall p,
      In p (find_heif_files directory listing false)
      <-> exists name, In name (map entry_name listing)
                       /\ ishidden name = false
                       /\ has_ending name = true
                       /\ p = PosixPath.join directory name)
  /\ (forallb literal_dirs listing = true ->
      (forall p,
          In p (find_heif_files directory listing true)
          <-> directory <> ""
              /\ exists r ls name,
                   below directory listing r ls
                   /\ In name (map entry_name ls)
                   /\ ishidden name = false
                   /\ has_ending name = true
                   /\ p = PosixPath.join r name)
      /\ (directory <> "" ->
          exists rest,
            find_heif_files directory listing true
            = (find_heif_files directory listing false ++ rest)%list)
      /\ (directory = "" -> find_heif_files directory listing true = [])).
Proof.
  intros _. split; [|intros _; split; [|split]].
  - intros p. apply glob_extensions_spec.
  - intros p. unfold find_heif_files. rewrite in_flat_map. split.
    + intros ([r ls] & Hw & Hp). apply walk_spec in Hw.
      destruct Hw as [Hd Hb]. split; [exact Hd|].
      apply glob_extensions_spec in Hp.
      destruct Hp as (name & H1 & H2 & H3 & H4).
      exists r, ls, name. repeat split; assumption.
    + intros (Hd & r & ls & name & Hb & H1 & H2 & H3 & H4).
      exists (r, ls). split; [apply walk_spec; split; assumption|].
      apply glob_extensions_spec. exists name. repeat split; assumption.
  - intros Hd. unfold find_heif_files, walk.
    destruct directory; [congruence|]. cbn [PyStr.truthy flat_map].
    eexists. reflexivity.
  - intros ->. reflexivity.
Qed.

Lemma find_heif_files_characterised_witness :
  In "/photos/IMG_0002.heic" (find_heif_files "/photos" photo_dir false)
  /\ ~ In "/photos/notes.txt" (find_heif_files "/photos" photo_dir false)
  /\ In "/photos/trip/IMG_0005.hif" (find_heif_files "/photos" photo_dir true).
Proof.
  pose proof (find_heif_files_characterised "/photos" photo_dir eq_refl)
    as [Hflat Hdeep].
  split; [|split].
  - apply Hflat.
    exists "IMG_0002.heic". repeat split; try reflexivity.
    cbn. right; left; reflexivity.
  - intros H. apply Hflat in H.
    destruct H as (name & Hin & _ & He & Hp).
    cbn in Hin.
    repeat (destruct Hin as [<-|Hin];
            [first [discriminate He | vm_compute in Hp; discriminate Hp]|]).
    exact Hin.
  - apply (proj1 (Hdeep eq_refl)). split; [discriminate|].
    exists "/photos/trip", [FileEntry "IMG_0004.HiF"; FileEntry "IMG_0005.hif"],
           "IMG_0005.hif".
    split.
    + apply (below_sub _ _ "trip"
               [FileEntry "IMG_0004.HiF"; FileEntry "IMG_0005.hif"]);
        [|apply below_here].
      right; right; right; right; left. reflexivity.
    + repeat split; try reflexivity. right; left. reflexivity.
Defined.

Lemma endings_exclusive name e1 e2 :
  In e1 endings -> In e2 endings ->
  PyStr.endswith name e1 = true -> PyStr.endswith name e2 = true -> e1 = e2.
Proof.
  intros H1 H2 E1 E2. cbn in H1, H2.
  repeat (destruct H1 as [<-|H1]; [|]); try contradiction;
    repeat (destruct H2 as [<-|H2]; [|]); try contradiction;
    first
      [ reflexivity
      | exfalso;
        pose proof (endswith_two _ _ _ E1 E2 ltac:(cbn; lia)) as E;
        vm_compute in E; discriminate E
      | exfalso;
        pose proof (endswith_two _ _ _ E2 E1 ltac:(cbn; lia)) as E;
        vm_compute in E; discriminate E ].
Qed.

Lemma NoDup_map_on {A B} (f : A -> B) (l : list A) :
  (forall x y, In x l -> In y l -> f x = f y -> x = y) ->
  NoDup l -> NoDup (map f l).
Proof.
  intros Hinj Hnd. induction Hnd as [|x l Hx Hnd IH]; cbn; constructor.
  - intros Hin. apply list_elem_of_In, in_map_iff in Hin.
    destruct Hin as (y & Hy & Hin). apply Hx. apply list_elem_of_In.
    rewrite (Hinj x y); [exact Hin | left; reflexivity | right; exact Hin
                         | symmetry; exact Hy].
  - apply IH. intros a b Ha Hb. apply Hinj; right; assumption.
Qed.

Lemma NoDup_flat_map_on {A B} (f : A -> list B) (l : list A) :
  NoDup l ->
  (forall x, In x l -> NoDup (f x)) ->
  (forall x y p, In x l -> In y l -> In p (f x) -> In p (f y) -> x = y) ->
  NoDup (flat_map f l).
Proof.
  intros Hnd. induction Hnd as [|x l Hx Hnd IH]; intros Hf Hd; cbn.
  - constructor.
  - apply NoDup_app. split; [apply Hf; left; reflexivity|]. split.
    + intros p Hp Hq. apply list_elem_of_In in Hp, Hq.
      apply in_flat_map in Hq. destruct Hq as (y & Hy & Hq).
      apply Hx. apply list_elem_of_In.
      rewrite (Hd x y p); [exact Hy | left; reflexivity | right; exact Hy
                           | exact Hp | exact Hq].
    + apply IH.
      * intros y Hy. apply Hf. right. exact Hy.
      * intros a b p Ha Hb. apply Hd; right; assumption.
Qed.

(** X8. When the entries of the directory have distinct names, none of
    them containing a leading slash, the search without recursion lists
    no path twice: no picture is queued for conversion more than once. *)
Theorem no_path_is_found_twice directory listing :
  NoDup (map entry_name listing) ->
  Forall (fun n => PyStr.startswith n PosixPath.sep_s = false)
         (map entry_name listing) ->
  NoDup (find_heif_files directory listing false).
Proof.
  intros Hnd Hrel. rewrite List.Forall_forall in Hrel.
  unfold find_heif_files, glob_extensions.
  destruct extensions_are_endings as (-> & _ & _).
  apply NoDup_flat_map_on.
  - apply NoDup_map_on; [intros x y _ _ H; inversion H; reflexivity|].
    unfold endings. repeat constructor; rewrite ?list_elem_of_In; cbn;
      intuition discriminate.
  - intros pat Hpat. apply in_map_iff in Hpat. destruct Hpat as (e & <- & He).
    unfold glob_in. change (ishidden (String "*" e)) with false. cbn iota.
    apply NoDup_map_on.
    + intros x y Hx Hy. apply list_elem_of_In, list_elem_of_filter in Hx, Hy.
      destruct Hx as [_ Hx], Hy as [_ Hy].
      apply list_elem_of_filter in Hx, Hy.
      destruct Hx as [_ Hx], Hy as [_ Hy]. apply list_elem_of_In in Hx, Hy.
      apply join_injective; apply Hrel; assumption.
    + apply NoDup_filter, NoDup_filter. exact Hnd.
  - intros pat1 pat2 p H1 H2 Hp1 Hp2.
    apply in_map_iff in H1, H2.
    destruct H1 as (e1 & <- & He1), H2 as (e2 & <- & He2).
    apply (glob_in_spec directory listing e1 p He1) in Hp1.
    apply (glob_in_spec directory listing e2 p He2) in Hp2.
    destruct Hp1 as (n1 & Hn1 & _ & Hend1 & ->).
    destruct Hp2 as (n2 & Hn2 & _ & Hend2 & Heq).
    apply join_injective in Heq; [|apply Hrel; assumption..]. subst n2.
    f_equal. exact (endings_exclusive n1 e1 e2 He1 He2 Hend1 Hend2).
Qed.

Lemma no_path_is_found_twice_witness :
  NoDup (find_heif_files "/photos" photo_dir false).
Proof.
  apply no_path_is_found_twice.
  - cbn. repeat constructor; rewrite ?list_elem_of_In; cbn;
      intuition discriminate.
  - cbn. repeat constructor.
Defined.

End FindFacts.

(* ===================================================================== *)
(** ** More facts about the batch *)
(* ===================================================================== *)

Module RunFacts.
Import Py Converter App BatchNotions RunNotions Samples ConverterFacts AppFacts.

(** *** A pool that cannot be made *)

(** X12. With [max_workers] at zero or below, [ThreadPoolExecutor]
    raises before anything is submitted: a start on an idle window with
    files listed and the output directory in place ends, once the
    callback has run, with the run marked as over, the button back to
    [Convert Images], the notification of [conversion_error] shown, the
    error logged, no thread left and the files untouched. *)
Theorem empty_pool_fails_the_batch s :
  conversion_running s = false -> file_list s <> [] ->
  PyStr.truthy (output_dir (settings s)) = true ->
  exists_ (world s) (output_dir (settings s)) = true ->
  after_queue s = [] ->
  (max_workers (settings s) <= 0)%Z ->
  exists s',
    run [Start_conversion; Main_callback] s = Some s'
    /\ conversion_running s' = false
    /\ convert_btn s' = ("normal", "Convert Images")
    /\ thread s' = None /\ after_queue s' = []
    /\ files (world s') = files (world s)
    /\ last (notifications s')
       = Some ("Conversion failed. See log for details.", "error")
    /\ In (ERROR, "Conversion process error: max_workers must be greater than 0")
          (log (world s')).
Proof.
  intros Hrun Hfl Hout Hex Hq Hmw.
  unfold run, exec, start_conversion. rewrite Hrun.
  destruct (file_list s) as [|f fl] eqn:Efl; [congruence|].
  unfold ensure_output_dir. rewrite Hout, Hex. cbn [negb].
  unfold launch, start_thread. cbn.
  apply Z.leb_le in Hmw. rewrite Hmw. cbn.
  unfold main_callback. cbn. rewrite Hq. cbn.
  eexists. split; [reflexivity|]. cbn.
  repeat (split; [reflexivity|]).
  split.
  - apply last_snoc.
  - apply in_or_app. left. apply in_or_app. right. left. reflexivity.
Qed.

Lemma empty_pool_fails_the_batch_witness :
  exists s',
    run [Start_conversion; Main_callback]
        (idle sample_world broken_settings ["/pics/a.heic"]) = Some s'
    /\ conversion_running s' = false
    /\ files (world s') = files sample_world.
Proof.
  destruct (empty_pool_fails_the_batch
              (idle sample_world broken_settings ["/pics/a.heic"]))
    as (s' & H1 & H2 & _ & _ & _ & H3 & _);
    try (vm_compute; reflexivity); try discriminate.
  exists s'. split; [exact H1|]. split; [exact H2 | exact H3].
Defined.

(** *** The progress bar *)








End RunFacts.

(* ===================================================================== *)
(** ** Facts about the file list of the window *)
(* ===================================================================== *)

Module FileListFacts.
Import Py FileList ConverterNotions SearchNotions FileListNotions StringFacts FindFacts.

(** *** Adding files *)

Lemma contains_In x l : contains x l = true <-> In x l.
Proof.
  unfold contains. rewrite existsb_exists. split.
  - intros (y & Hy & E). apply String.eqb_eq in E. subst. exact Hy.
  - intros H. exists x. split; [exact H | apply String.eqb_refl].
Qed.

Lemma contains_not_In x l : contains x l = false <-> ~ In x l.
Proof.
  rewrite <- contains_In. destruct (contains x l); split; congruence.
Qed.

Lemma list_file_cases getsize p s :
  (exists e, getsize p = Raise e
             /\ list_file getsize p s
                = (Raise e, set_file_list (file_list s ++ [p]) s))
  \/ (exists sz, getsize p = Return sz
                 /\ list_file getsize p s
                    = (Return tt,
                       tree_insert (mk_row (PosixPath.basename p)
                                           (format_file_size sz)
                                           (PosixPath.dirname p))
                                   (set_file_list (file_list s ++ [p]) s))).
Proof.
  unfold list_file. destruct (getsize p) as [sz|e].
  - right. exists sz. split; reflexivity.
  - left. exists e. split; reflexivity.
Qed.

Lemma list_file_list getsize p s r s' :
  list_file getsize p s = (r, s') -> file_list s' = (file_list s ++ [p])%list.
Proof.
  intros H.
  destruct (list_file_cases getsize p s) as [(e & _ & E) | (sz & _ & E)];
    rewrite E in H; inversion H; reflexivity.
Qed.

(** What the loop of [process_selected_files] does to the list. *)
Lemma add_files_list getsize files : forall added s r s',
  add_files getsize files added s = (r, s') ->
  exists new,
    file_list s' = (file_list s ++ new)%list
    /\ List.NoDup new
    /\ (forall p, In p new -> In p files /\ ~ In p (file_list s))
    /\ (forall a, r = Return a ->
          a = added + List.length new
          /\ forall p, In p files -> In p (file_list s')).
Proof.
  induction files as [|p rest IH]; intros added s r s' H; cbn in H.
  - inversion H; subst. exists []. rewrite app_nil_r.
    split; [reflexivity|]. split; [constructor|].
    split; [intros p []|]. intros a E. inversion E; subst.
    split; [cbn; lia | intros p []].
  - destruct (contains p (file_list s)) eqn:Hc; cbn in H.
    + destruct (IH _ _ _ _ H) as (new & H1 & H2 & H3 & H4).
      exists new. split; [exact H1|]. split; [exact H2|]. split.
      * intros q Hq. destruct (H3 q Hq). split; [right|]; assumption.
      * intros a E. destruct (H4 a E) as [Ha Hall]. split; [exact Ha|].
        intros q [<-|Hq]; [|apply Hall; exact Hq].
        rewrite H1. apply in_or_app. left. apply contains_In. exact Hc.
    + apply contains_not_In in Hc.
      destruct (list_file getsize p s) as [[[]|e] s1] eqn:Hl;
        pose proof (list_file_list _ _ _ _ _ Hl) as Hs1.
      * destruct (IH _ _ _ _ H) as (new & H1 & H2 & H3 & H4).
        exists (p :: new). rewrite H1, Hs1, <- app_assoc.
        split; [reflexivity|]. split.
        { constructor; [|exact H2]. intros Hin. destruct (H3 p Hin) as [_ Hn].
          apply Hn. rewrite Hs1. apply in_or_app. right. left. reflexivity. }
        split.
        { intros q [<-|Hq]; [split; [left; reflexivity | exact Hc]|].
          destruct (H3 q Hq) as [Hr Hn]. split; [right; exact Hr|].
          intros Hin. apply Hn. rewrite Hs1. apply in_or_app. left. exact Hin. }
        intros a E. destruct (H4 a E) as [Ha Hall]. split; [cbn; lia|].
        intros q [<-|Hq].
        { apply in_or_app. right. left. reflexivity. }
        { specialize (Hall q Hq). rewrite H1, Hs1, <- app_assoc in Hall.
          exact Hall. }
      * inversion H; subst. exists [p]. split; [exact Hs1|].
        split; [constructor; [intros []|constructor]|]. split.
        { intros q [<-|[]]. split; [left; reflexivity | exact Hc]. }
        intros a E. discriminate.
Qed.

Lemma process_selected_files_list getsize files s r s' :
  process_selected_files getsize files s = (r, s') ->
  exists r0 s0,
    add_files getsize files 0 s = (r0, s0)
    /\ file_list s' = file_list s0 /\ tree s' = tree s0
    /\ next_item s' = next_item s0
    /\ match r0 with
       | Return added => r = Return tt /\ (added = 0 -> s' = s0)
       | Raise e => r = Raise e /\ s' = s0
       end.
Proof.
  unfold process_selected_files. intros H.
  destruct (add_files getsize files 0 s) as [[added|e] s0].
  - exists (Return added), s0. split; [reflexivity|].
    destruct (0 <? added)%nat eqn:Ha; inversion H; subst; cbn;
      repeat split; try reflexivity.
    intros ->. discriminate.
  - exists (Raise e), s0. inversion H; subst. repeat split; reflexivity.
Qed.

Lemma selection_is_listed getsize files s s' :
  process_selected_files getsize files s = (Return tt, s') ->
  forall p, In p files -> In p (file_list s').
Proof.
  intros H.
  destruct (process_selected_files_list _ _ _ _ _ H)
    as (r0 & s0 & Hadd & Hfl & _ & _ & Hr).
  destruct (add_files_list _ _ _ _ _ _ Hadd) as (new & _ & _ & _ & H4).
  rewrite Hfl. destruct r0 as [added|e].
  - exact (proj2 (H4 added eq_refl)).
  - destruct Hr as [Hr _]. discriminate.
Qed.

(** X14. [process_selected_files] only appends to the list: the files
    added are files of the selection that were not listed, each once;
    a list without duplicates stays so, also when a size cannot be
    read; and when the call returns, every file of the selection is
    listed. *)
Theorem added_files_are_listed_once getsize files s r s' :
  process_selected_files getsize files s = (r, s') ->
  exists new,
    file_list s' = (file_list s ++ new)%list
    /\ List.NoDup new
    /\ (forall p, In p new -> In p files /\ ~ In p (file_list s))
    /\ (List.NoDup (file_list s) -> List.NoDup (file_list s'))
    /\ (r = Return tt -> forall p, In p files -> In p (file_list s')).
Proof.
  intros H.
  destruct (process_selected_files_list _ _ _ _ _ H)
    as (r0 & s0 & Hadd & Hfl & _ & _ & Hr).
  destruct (add_files_list _ _ _ _ _ _ Hadd) as (new & H1 & H2 & H3 & H4).
  exists new. rewrite Hfl.
  split; [exact H1|]. split; [exact H2|]. split; [exact H3|]. split.
  - intros Hnd. rewrite H1. apply List.NoDup_app; [exact Hnd | exact H2 |].
    intros p Hp Hq. exact (proj2 (H3 p Hq) Hp).
  - intros E. destruct r0 as [added|e].
    + exact (proj2 (H4 added eq_refl)).
    + destruct Hr as [Hr _]. congruence.
Qed.

Lemma added_files_are_listed_once_witness :
  exists s',
    process_selected_files no_sizes picked empty_window = (Return tt, s')
    /\ file_list s' = ["/pics/a.heic"; "/pics/b.heic"]
    /\ List.NoDup (file_list s').
Proof.
  eexists. split; [vm_compute; reflexivity|]. split; [reflexivity|].
  destruct (added_files_are_listed_once no_sizes picked empty_window _ _ eq_refl)
    as (new & _ & _ & _ & Hnd & _).
  apply Hnd. constructor.
Defined.

(** A selection that is listed already adds nothing. *)
Lemma add_files_listed getsize files : forall added s,
  (forall p, In p files -> In p (file_list s)) ->
  add_files getsize files added s = (Return added, s).
Proof.
  induction files as [|p rest IH]; intros added s Hall; cbn; [reflexivity|].
  assert (Hc : contains p (file_list s) = true).
  { apply contains_In. apply Hall. left. reflexivity. }
  rewrite Hc. cbn. apply IH. intros q Hq. apply Hall. right. exact Hq.
Qed.

(** X15. Adding the same selection a second time changes nothing: no
    file is listed twice, no row is added, and the status line, the
    notifications and the log stay as the first call left them. *)
Theorem adding_the_same_files_again_changes_nothing getsize files s s' :
  process_selected_files getsize files s = (Return tt, s') ->
  process_selected_files getsize files s' = (Return tt, s').
Proof.
  intros H.
  pose proof (selection_is_listed getsize files s s' H) as Hall.
  unfold process_selected_files.
  rewrite (add_files_listed getsize files 0 s' Hall). reflexivity.
Qed.

Lemma adding_the_same_files_again_changes_nothing_witness :
  exists s',
    process_selected_files no_sizes picked empty_window = (Return tt, s')
    /\ List.length (tree s') = 2
    /\ process_selected_files no_sizes picked s' = (Return tt, s').
Proof.
  eexists. split; [vm_compute; reflexivity|]. split; [reflexivity|].
  apply (adding_the_same_files_again_changes_nothing no_sizes picked empty_window).
  vm_compute. reflexivity.
Defined.

(** *** The path a row stands for *)

Lemma rejoins_plain d n :
  d <> "" -> PyStr.endswith d "/" = false -> slash_free n = true ->
  rejoins (d ++ "/" ++ n).
Proof.
  intros Hd He Hn. unfold rejoins.
  destruct (dirname_strips d "" n Hd He Hn eq_refl) as [H1 H2].
  rewrite str_app_empty_r in H1, H2. rewrite H1, H2.
  apply join_plain; assumption.
Qed.

Lemma list_file_rows getsize p s s' :
  list_file getsize p s = (Return tt, s') ->
  rows_files s'
  = (rows_files s
     ++ [PosixPath.join (PosixPath.dirname p) (PosixPath.basename p)])%list
  /\ (ids_ok s -> ids_ok s').
Proof.
  intros H.
  destruct (list_file_cases getsize p s) as [(e & _ & E) | (sz & _ & E)];
    rewrite E in H; inversion H; subst s'; clear H.
  unfold rows_files, ids_ok; cbn. rewrite !map_app. cbn.
  split; [reflexivity|]. intros [H1 H2]. split.
  - apply List.NoDup_app; [exact H1 | constructor; [intros []|constructor] |].
    intros i Hi [<-|[]]. apply in_map_iff in Hi. destruct Hi as (x & Hx & Hin).
    rewrite List.Forall_forall in H2. specialize (H2 x Hin). lia.
  - apply List.Forall_app. split.
    + eapply List.Forall_impl; [|exact H2]. cbn. intros x Hx. lia.
    + constructor; [cbn; lia | constructor].
Qed.

Lemma list_file_raise getsize p s e s' :
  list_file getsize p s = (Raise e, s') ->
  getsize p = Raise e /\ tree s' = tree s /\ next_item s' = next_item s.
Proof.
  intros H.
  destruct (list_file_cases getsize p s) as [(e0 & G & E) | (sz & _ & E)];
    rewrite E in H; inversion H; subst.
  split; [exact G|]. split; reflexivity.
Qed.

(** What the loop of [process_selected_files] does to the table. *)
Lemma add_files_rows getsize files : forall added s r s',
  aligned s -> ids_ok s -> (forall p, In p files -> rejoins p) ->
  add_files getsize files added s = (r, s') ->
  ids_ok s'
  /\ match r with
     | Return _ => aligned s'
     | Raise e =>
         exists p, In p files /\ getsize p = Raise e
                   /\ file_list s' = (rows_files s' ++ [p])%list
     end.
Proof.
  induction files as [|p rest IH]; intros added s r s' Ha Hi Hr H; cbn in H.
  - inversion H; subst. split; assumption.
  - assert (Hrest : forall q, In q rest -> rejoins q)
      by (intros q Hq; apply Hr; right; exact Hq).
    destruct (contains p (file_list s)) eqn:Hc; cbn in H.
    + destruct (IH _ _ _ _ Ha Hi Hrest H) as [I1 I2]. split; [exact I1|].
      destruct r as [a|e]; [exact I2|].
      destruct I2 as (q & Hq & I2). exists q. split; [right; exact Hq | exact I2].
    + destruct (list_file getsize p s) as [[[]|e] s1] eqn:Hl;
        pose proof (list_file_list _ _ _ _ _ Hl) as Hs1.
      * destruct (list_file_rows _ _ _ _ Hl) as [Hrows Hids].
        assert (Ha1 : aligned s1).
        { unfold aligned. rewrite Hrows, Hs1, Ha.
          rewrite (Hr p (or_introl eq_refl)). reflexivity. }
        destruct (IH _ _ _ _ Ha1 (Hids Hi) Hrest H) as [I1 I2].
        split; [exact I1|]. destruct r as [a|e]; [exact I2|].
        destruct I2 as (q & Hq & I2). exists q.
        split; [right; exact Hq | exact I2].
      * inversion H; subst.
        destruct (list_file_raise _ _ _ _ _ Hl) as (G & Ht & Hn).
        split.
        { unfold ids_ok. rewrite Ht, Hn. exact Hi. }
        exists p. split; [left; reflexivity|]. split; [exact G|].
        unfold rows_files. rewrite Ht, Hs1. fold (rows_files s).
        rewrite Ha. reflexivity.
Qed.

Lemma process_selected_files_rows getsize files s r s' :
  process_selected_files getsize files s = (r, s') ->
  exists r0 s0,
    add_files getsize files 0 s = (r0, s0)
    /\ file_list s' = file_list s0 /\ tree s' = tree s0
    /\ next_item s' = next_item s0
    /\ match r0 with
       | Return _ => r = Return tt
       | Raise e => r = Raise e
       end.
Proof.
  intros H.
  destruct (process_selected_files_list _ _ _ _ _ H)
    as (r0 & s0 & H0 & H1 & H2 & H3 & H4).
  exists r0, s0. repeat (split; [assumption|]).
  destruct r0; apply H4.
Qed.

(** X16. While every file added is a path that its row rebuilds, the
    table keeps showing the list: after [process_selected_files] the
    rows stand for the listed files, one by one and in order, and the
    rows keep distinct identifiers. *)
Theorem rows_follow_the_list getsize files s s' :
  aligned s -> ids_ok s -> (forall p, In p files -> rejoins p) ->
  process_selected_files getsize files s = (Return tt, s') ->
  aligned s' /\ ids_ok s'
  /\ List.length (tree s') = List.length (file_list s').
Proof.
  intros Ha Hi Hr H.
  destruct (process_selected_files_rows _ _ _ _ _ H)
    as (r0 & s0 & Hadd & Hfl & Htr & Hnx & Hres).
  destruct (add_files_rows _ _ _ _ _ _ Ha Hi Hr Hadd) as [I1 I2].
  destruct r0 as [a|e]; [|discriminate].
  assert (Ha' : aligned s').
  { unfold aligned, rows_files in *. rewrite Htr, Hfl. exact I2. }
  split; [exact Ha'|]. split.
  - unfold ids_ok in *. rewrite Htr, Hnx. exact I1.
  - rewrite <- Ha'. unfold rows_files. rewrite length_map. reflexivity.
Qed.

Lemma rows_follow_the_list_witness :
  exists s',
    process_selected_files no_sizes picked empty_window = (Return tt, s')
    /\ map (fun x => name_col (snd x)) (tree s') = ["a.heic"; "b.heic"]
    /\ map (fun x => size_col (snd x)) (tree s') = ["2.0 KB"; "2.0 KB"]
    /\ aligned s'.
Proof.
  eexists. split; [vm_compute; reflexivity|]. split; [reflexivity|].
  split; [reflexivity|].
  refine (proj1 (rows_follow_the_list no_sizes picked empty_window _ _ _ _ eq_refl)).
  - reflexivity.
  - split; constructor.
  - intros p [<-|[<-|[<-|[]]]]; reflexivity.
Defined.

(** X17. When [os.path.getsize] fails for a file of the selection, the
    exception leaves [process_selected_files] with that file listed but
    without a row: the list is the files of the rows followed by the
    file whose size could not be read. *)
Theorem failed_size_lookup_leaves_a_file_without_row getsize files s e s' :
  aligned s -> (forall p, In p files -> rejoins p) ->
  process_selected_files getsize files s = (Raise e, s') ->
  exists p,
    In p files /\ getsize p = Raise e
    /\ file_list s' = (rows_files s' ++ [p])%list.
Proof.
  intros Ha Hr H.
  destruct (process_selected_files_rows _ _ _ _ _ H)
    as (r0 & s0 & Hadd & Hfl & Htr & Hnx & Hres).
  destruct r0 as [a|e0]; [discriminate|]. inversion Hres; subst e0.
  revert Hadd. generalize 0. intros added Hadd.
  assert (G : forall files added s,
             aligned s -> (forall p, In p files -> rejoins p) ->
             add_files getsize files added s = (Raise e, s0) ->
             exists p, In p files /\ getsize p = Raise e
                       /\ file_list s0 = (rows_files s0 ++ [p])%list).
  { clear. induction files as [|p rest IH]; intros added s Ha Hr H; cbn in H;
      [discriminate|].
    assert (Hrest : forall q, In q rest -> rejoins q)
      by (intros q Hq; apply Hr; right; exact Hq).
    destruct (contains p (file_list s)) eqn:Hc; cbn in H.
    - destruct (IH _ _ Ha Hrest H) as (q & Hq & I2).
      exists q. split; [right; exact Hq | exact I2].
    - destruct (list_file getsize p s) as [[[]|e1] s1] eqn:Hl;
        pose proof (list_file_list _ _ _ _ _ Hl) as Hs1.
      + destruct (list_file_rows _ _ _ _ Hl) as [Hrows _].
        assert (Ha1 : aligned s1).
        { unfold aligned. rewrite Hrows, Hs1, Ha.
          rewrite (Hr p (or_introl eq_refl)). reflexivity. }
        destruct (IH _ _ Ha1 Hrest H) as (q & Hq & I2).
        exists q. split; [right; exact Hq | exact I2].
      + inversion H; subst.
        destruct (list_file_raise _ _ _ _ _ Hl) as (G & Ht & Hn).
        exists p. split; [left; reflexivity|]. split; [exact G|].
        unfold rows_files. rewrite Ht, Hs1. fold (rows_files s).
        rewrite Ha. reflexivity. }
  destruct (G files added s Ha Hr Hadd) as (p & Hp & Hg & Hl).
  exists p. split; [exact Hp|]. split; [exact Hg|].
  unfold rows_files in *. rewrite Htr, Hfl. exact Hl.
Qed.

Lemma failed_size_lookup_leaves_a_file_without_row_witness :
  exists e s',
    process_selected_files no_sizes picked_gone empty_window = (Raise e, s')
    /\ file_list s' = ["/pics/a.heic"; "/pics/gone.heic"]
    /\ rows_files s' = ["/pics/a.heic"]
    /\ exists p, In p picked_gone /\ no_sizes p = Raise e
                 /\ file_list s' = (rows_files s' ++ [p])%list.
Proof.
  eexists _, _. split; [vm_compute; reflexivity|]. split; [reflexivity|].
  split; [reflexivity|].
  refine (failed_size_lookup_leaves_a_file_without_row
            no_sizes picked_gone empty_window _ _ _ _ eq_refl).
  - reflexivity.
  - intros p [<-|[<-|[<-|[]]]]; reflexivity.
Defined.

(** X18. A file given as a directory, one slash and a name gets a row
    with the name in the first column and the directory in the third,
    and [os.path.join] of these two columns, which is what
    [preview_selected] and [remove_selected] compute, is the path of the
    file again. *)
Theorem row_rebuilds_the_path getsize d n s s' :
  d <> "" -> PyStr.endswith d "/" = false -> slash_free n = true ->
  list_file getsize (d ++ "/" ++ n) s = (Return tt, s') ->
  exists sz,
    getsize (d ++ "/" ++ n) = Return sz
    /\ tree s' = (tree s ++ [(next_item s, mk_row n (format_file_size sz) d)])%list
    /\ row_file (mk_row n (format_file_size sz) d) = d ++ "/" ++ n.
Proof.
  intros Hd He Hn H.
  destruct (list_file_cases getsize (d ++ "/" ++ n) s)
    as [(e & _ & E) | (sz & G & E)]; rewrite E in H; inversion H; subst s'.
  destruct (dirname_strips d "" n Hd He Hn eq_refl) as [H1 H2].
  rewrite str_app_empty_r in H1, H2. rewrite H1, H2.
  exists sz. split; [exact G|]. split; [reflexivity|].
  apply join_plain; assumption.
Qed.

Lemma row_rebuilds_the_path_witness :
  exists s',
    list_file no_sizes "/pics/trip/a.heic" empty_window = (Return tt, s')
    /\ tree s' = [(1, mk_row "a.heic" "2.0 KB" "/pics/trip")]
    /\ row_file (mk_row "a.heic" "2.0 KB" "/pics/trip") = "/pics/trip/a.heic".
Proof.
  eexists. split; [vm_compute; reflexivity|]. split; [reflexivity|].
  destruct (row_rebuilds_the_path no_sizes "/pics/trip" "a.heic" empty_window _
              ltac:(discriminate) eq_refl eq_refl eq_refl)
    as (sz & G & _ & Hrow).
  vm_compute in G. inversion G; subst sz. exact Hrow.
Defined.

(** *** Removing rows *)

Lemma find_row_none item (l : list (nat * Row)) :
  ~ In item (map fst l) ->
  List.find (fun x => Nat.eqb (fst x) item) l = None
  /\ List.filter (fun x => negb (Nat.eqb (fst x) item)) l = l.
Proof.
  induction l as [|x l IH]; intros H; [split; reflexivity|].
  cbn in H. cbn.
  destruct (Nat.eqb_spec (fst x) item) as [E|E]; [tauto|]. cbn.
  destruct IH as [I1 I2]; [tauto|]. rewrite I1, I2. split; reflexivity.
Qed.

(** In a table without duplicates, taking out the first occurrence of
    the file of a row takes out what that row stands for. *)
Lemma remove_row_file (f : nat * Row -> string) item : forall l,
  List.NoDup (map fst l) -> List.NoDup (map f l) ->
  match List.find (fun x => Nat.eqb (fst x) item) l with
  | Some x =>
      In x l
      /\ list_remove (f x) (map f l)
         = map f (List.filter (fun y => negb (Nat.eqb (fst y) item)) l)
  | None => List.filter (fun y => negb (Nat.eqb (fst y) item)) l = l
  end.
Proof.
  induction l as [|x l IH]; intros Hi Hf; [reflexivity|].
  cbn in Hi, Hf. inversion Hi as [|? ? Hi1 Hi2]; subst.
  inversion Hf as [|? ? Hf1 Hf2]; subst. cbn.
  destruct (Nat.eqb_spec (fst x) item) as [E|E]; cbn.
  - rewrite String.eqb_refl. split; [left; reflexivity|].
    subst item. destruct (find_row_none (fst x) l Hi1) as [_ ->]. reflexivity.
  - specialize (IH Hi2 Hf2).
    destruct (List.find (fun x0 => Nat.eqb (fst x0) item) l) as [y|].
    + destruct IH as [Hy IH]. split; [right; exact Hy|].
      destruct (String.eqb_spec (f y) (f x)) as [E'|E'].
      * exfalso. apply Hf1. rewrite <- E'. apply in_map. exact Hy.
      * rewrite IH. reflexivity.
    + rewrite IH. reflexivity.
Qed.

Lemma NoDup_map_filter {A B} (f : A -> B) (q : A -> bool) (l : list A) :
  List.NoDup (map f l) -> List.NoDup (map f (List.filter q l)).
Proof.
  induction l as [|x l IH]; intros H; [constructor|].
  cbn in H. inversion H as [|? ? Hx Hl]; subst. cbn. destruct (q x); [|auto].
  cbn. constructor; [|auto]. intros Hin. apply Hx.
  apply in_map_iff in Hin. destruct Hin as (y & Hy & Hin).
  apply filter_In in Hin. apply in_map_iff. exists y. tauto.
Qed.

Lemma filter_keeps_ids_ok (q : nat * Row -> bool) s :
  ids_ok s -> ids_ok (set_tree (List.filter q (tree s)) s).
Proof.
  intros [H1 H2]. split; cbn.
  - apply NoDup_map_filter. exact H1.
  - rewrite List.Forall_forall in *. intros x Hx.
    apply filter_In in Hx. apply H2. tauto.
Qed.

(** One row removed. *)
Lemma remove_item_rows s item :
  aligned s -> ids_ok s -> List.NoDup (file_list s) ->
  tree (remove_item s item)
  = List.filter (fun y => negb (Nat.eqb (fst y) item)) (tree s)
  /\ aligned (remove_item s item) /\ ids_ok (remove_item s item)
  /\ List.NoDup (file_list (remove_item s item)).
Proof.
  intros Ha Hi Hn. pose proof Hi as [Hi1 Hi2].
  assert (Hf : List.NoDup (map (fun x => row_file (snd x)) (tree s))).
  { fold (rows_files s). rewrite Ha. exact Hn. }
  pose proof (remove_row_file (fun x => row_file (snd x)) item (tree s) Hi1 Hf)
    as Hrem.
  unfold remove_item, tree_item.
  destruct (List.find (fun x => Nat.eqb (fst x) item) (tree s)) as [x|]; cbn.
  - destruct Hrem as [Hx Hrem].
    assert (Hc : contains (row_file (snd x)) (file_list s) = true).
    { apply contains_In. rewrite <- Ha. unfold rows_files.
      apply (in_map (fun x => row_file (snd x))). exact Hx. }
    rewrite Hc. cbn. split; [reflexivity|]. split.
    + unfold aligned, rows_files; cbn. rewrite <- Ha. symmetry. exact Hrem.
    + split.
      * apply (filter_keeps_ids_ok
                 (fun y => negb (Nat.eqb (fst y) item))
                 (set_file_list (list_remove (row_file (snd x)) (file_list s)) s)).
        exact Hi.
      * rewrite <- Ha. unfold rows_files. rewrite Hrem.
        apply NoDup_map_filter. exact Hf.
  - rewrite Hrem. repeat split; assumption.
Qed.

Lemma remove_items_rows items : forall s,
  aligned s -> ids_ok s -> List.NoDup (file_list s) ->
  let s' := fold_left remove_item items s in
  tree s'
  = List.filter (fun y => negb (existsb (Nat.eqb (fst y)) items)) (tree s)
  /\ aligned s' /\ ids_ok s' /\ List.NoDup (file_list s').
Proof.
  induction items as [|item items IH]; intros s Ha Hi Hn; cbn.
  - split; [|split; [exact Ha | split; [exact Hi | exact Hn]]].
    symmetry. induction (tree s) as [|x l IHl]; [reflexivity|].
    cbn. f_equal. exact IHl.
  - destruct (remove_item_rows s item Ha Hi Hn) as (H1 & H2 & H3 & H4).
    destruct (IH (remove_item s item) H2 H3 H4) as (I1 & I2 & I3 & I4).
    split; [|split; [exact I2 | split; [exact I3 | exact I4]]].
    rewrite I1, H1. clear.
    induction (tree s) as [|x l IHl]; [reflexivity|].
    cbn. destruct (Nat.eqb (fst x) item); cbn; [exact IHl|].
    destruct (existsb (Nat.eqb (fst x)) items); cbn; [exact IHl|].
    f_equal. exact IHl.
Qed.

Lemma selection_filter (selected : nat -> bool) (l : list (nat * Row)) :
  List.filter
    (fun y => negb (existsb (Nat.eqb (fst y))
                            (map fst (List.filter (fun x => selected (fst x)) l))))
    l
  = List.filter (fun y => negb (selected (fst y))) l.
Proof.
  apply filter_ext_in. intros y Hy. f_equal.
  destruct (selected (fst y)) eqn:Hs.
  - apply existsb_exists. exists (fst y). split; [|apply Nat.eqb_refl].
    apply in_map. apply filter_In. split; assumption.
  - destruct (existsb _ _) eqn:He; [|reflexivity].
    apply existsb_exists in He. destruct He as (i & Hi & E).
    apply Nat.eqb_eq in E. subst i.
    apply in_map_iff in Hi. destruct Hi as (x & Hx & Hin).
    apply filter_In in Hin. destruct Hin as [_ Hsel].
    rewrite Hx in Hsel. congruence.
Qed.

(** X19. On a table that shows a list without duplicates,
    [remove_selected] removes exactly the selected rows and exactly
    their files: the rows left are the rows not selected, in their
    order, and the list is again the files of the rows left, without
    duplicates. *)
Theorem removing_rows_removes_their_files selected s :
  aligned s -> ids_ok s -> List.NoDup (file_list s) ->
  tree (remove_selected selected s)
  = List.filter (fun x => negb (selected (fst x))) (tree s)
  /\ file_list (remove_selected selected s)
     = map (fun x => row_file (snd x))
           (List.filter (fun x => negb (selected (fst x))) (tree s))
  /\ aligned (remove_selected selected s)
  /\ ids_ok (remove_selected selected s)
  /\ List.NoDup (file_list (remove_selected selected s)).
Proof.
  intros Ha Hi Hn.
  assert (G : tree (remove_selected selected s)
              = List.filter (fun x => negb (selected (fst x))) (tree s)
              /\ aligned (remove_selected selected s)
              /\ ids_ok (remove_selected selected s)
              /\ List.NoDup (file_list (remove_selected selected s))).
  { unfold remove_selected.
    destruct (remove_items_rows (tree_selection selected s) s Ha Hi Hn)
      as (H1 & H2 & H3 & H4).
    unfold tree_selection in H1. rewrite selection_filter in H1.
    fold (tree_selection selected s) in H1.
    destruct (tree_selection selected s) as [|i items].
    - split; [exact H1|]. split; [exact Ha | split; [exact Hi | exact Hn]].
    - set (s1 := fold_left remove_item (i :: items) s) in *.
      unfold aligned, rows_files, ids_ok in *.
      destruct (1 <? List.length (i :: items))%nat;
        cbn [tree file_list next_item set_status CustomNotification];
        (split; [exact H1|]); (split; [exact H2|]); split; assumption. }
  destruct G as (G1 & G2 & G3 & G4).
  split; [exact G1|]. split; [|split; [exact G2 | split; [exact G3 | exact G4]]].
  rewrite <- G2. unfold rows_files. rewrite G1. reflexivity.
Qed.

Lemma removing_rows_removes_their_files_witness :
  file_list (remove_selected first_and_last three_rows) = ["/pics/b.heic"]
  /\ aligned (remove_selected first_and_last three_rows).
Proof.
  split; [vm_compute; reflexivity|].
  refine (proj1 (proj2 (proj2 (removing_rows_removes_their_files
                                 first_and_last three_rows _ _ _)))).
  - reflexivity.
  - split.
    + cbn. repeat constructor; cbn; intuition discriminate.
    + repeat constructor; cbn; lia.
  - repeat constructor; cbn; intuition discriminate.
Defined.

(** X20. On a table that shows the list, [preview_selected] opens a
    listed file, namely the file of the first selected row, and changes
    nothing. *)
Theorem preview_opens_a_listed_file selected s p :
  aligned s ->
  fst (preview_selected selected s) = Some p ->
  In p (file_list s)
  /\ snd (preview_selected selected s) = s
  /\ exists item row rest,
       tree_selection selected s = item :: rest
       /\ In (item, row) (tree s) /\ selected item = true
       /\ p = PosixPath.join (path_col row) (name_col row).
Proof.
  intros Ha H. unfold preview_selected in *.
  destruct (tree_selection selected s) as [|item rest] eqn:Hsel;
    [discriminate|].
  cbn [fst snd] in *. unfold tree_item in H.
  destruct (List.find (fun x => Nat.eqb (fst x) item) (tree s)) as [[i row]|]
    eqn:Hfind; [|discriminate].
  cbn in H. inversion H; subst p; clear H.
  apply find_some in Hfind. destruct Hfind as [Hin Heq].
  apply Nat.eqb_eq in Heq. cbn in Heq. subst i.
  split; [|split; [reflexivity|]].
  - rewrite <- Ha. unfold rows_files.
    apply (in_map (fun x => row_file (snd x)) _ _ Hin).
  - exists item, row, rest. split; [reflexivity|]. split; [exact Hin|].
    split; [|reflexivity].
    assert (Hi : In item (tree_selection selected s))
      by (rewrite Hsel; left; reflexivity).
    unfold tree_selection in Hi. apply in_map_iff in Hi.
    destruct Hi as (x & <- & Hx). apply filter_In in Hx. apply Hx.
Qed.

Lemma preview_opens_a_listed_file_witness :
  fst (preview_selected first_and_last three_rows) = Some "/pics/a.heic"
  /\ In "/pics/a.heic" (file_list three_rows).
Proof.
  split; [reflexivity|].
  exact (proj1 (preview_opens_a_listed_file first_and_last three_rows
                  "/pics/a.heic" eq_refl eq_refl)).
Defined.

(** *** A doubled slash *)

Lemma find_app_last item (l : list (nat * Row)) r :
  ~ In item (map fst l) ->
  List.find (fun x => Nat.eqb (fst x) item) (l ++ [(item, r)]) = Some (item, r)
  /\ List.filter (fun x => Nat.eqb (fst x) item) (l ++ [(item, r)]) = [(item, r)]
  /\ List.filter (fun x => negb (Nat.eqb (fst x) item)) (l ++ [(item, r)]) = l.
Proof.
  induction l as [|x l IH]; intros H.
  - cbn. rewrite Nat.eqb_refl. cbn. repeat split; reflexivity.
  - cbn in H. cbn.
    destruct (Nat.eqb_spec (fst x) item) as [E|E]; [tauto|]. cbn.
    destruct IH as (I1 & I2 & I3); [tauto|]. rewrite I1, I2, I3.
    repeat split; reflexivity.
Qed.

Lemma fresh_item s : ids_ok s -> ~ In (next_item s) (map fst (tree s)).
Proof.
  intros [_ H] Hin. apply in_map_iff in Hin. destruct Hin as (x & Hx & Hin).
  rewrite List.Forall_forall in H. specialize (H x Hin). lia.
Qed.

(** X21. A file listed under a path with a doubled slash before its
    name cannot be removed: its row holds the directory without the
    slashes, [os.path.join] rebuilds the path with one slash, which is
    not in the list; [remove_selected] deletes the row and leaves the
    file listed. *)
Theorem doubled_slash_file_stays_listed getsize d n s s1 :
  d <> "" -> PyStr.endswith d "/" = false -> slash_free n = true ->
  ids_ok s -> ~ In (d ++ "/" ++ n) (file_list s) ->
  list_file getsize (d ++ "//" ++ n) s = (Return tt, s1) ->
  let s2 := remove_selected (Nat.eqb (next_item s)) s1 in
  tree_item (next_item s) s1
  = option_map (fun sz => mk_row n (format_file_size sz) d)
               (match getsize (d ++ "//" ++ n) with
                | Return sz => Some sz
                | Raise _ => None
                end)
  /\ tree s2 = tree s
  /\ file_list s2 = (file_list s ++ [(d ++ "//" ++ n)%string])%list.
Proof.
  intros Hd He Hn Hi Hnot H.
  destruct (list_file_cases getsize (d ++ "//" ++ n) s)
    as [(e & _ & E) | (sz & G & E)]; rewrite E in H; inversion H; subst s1;
    clear H E.
  rewrite G. cbn [option_map].
  assert (Hp : d ++ "//" ++ n = (d ++ "/") ++ "/" ++ n).
  { rewrite str_app_assoc. reflexivity. }
  destruct (dirname_strips d "/" n Hd He Hn eq_refl) as [H1 H2].
  rewrite <- Hp in H1, H2. rewrite H1, H2.
  pose proof (fresh_item s Hi) as Hfresh.
  destruct (find_app_last (next_item s) (tree s)
              (mk_row n (format_file_size sz) d) Hfresh) as (F1 & F2 & F3).
  assert (Hrow : row_file (mk_row n (format_file_size sz) d) = d ++ "/" ++ n).
  { apply join_plain; assumption. }
  assert (Hc : contains (d ++ "/" ++ n)
                        (file_list s ++ [(d ++ "//" ++ n)%string])%list = false).
  { apply contains_not_In. intros Hin. apply in_app_or in Hin.
    destruct Hin as [Hin|[Heq|[]]]; [exact (Hnot Hin)|].
    apply str_app_inv_head in Heq.
    change ("//" ++ n) with (String "/" (String "/" n)) in Heq.
    change ("/" ++ n) with (String "/" n) in Heq.
    apply (f_equal String.length) in Heq.
    change (S (S (String.length n)) = S (String.length n)) in Heq. lia. }
  split.
  - unfold tree_item, tree_insert, set_file_list;
      cbn [tree next_item file_list]. rewrite F1. reflexivity.
  - unfold remove_selected, tree_selection, tree_insert, set_file_list;
      cbn [tree next_item file_list].
    assert (Fsel : List.filter (fun x : nat * Row => Nat.eqb (next_item s) (fst x))
                     (tree s ++ [(next_item s, mk_row n (format_file_size sz) d)])
                   = [(next_item s, mk_row n (format_file_size sz) d)]).
    { etransitivity; [|exact F2]. apply filter_ext. intros x. apply Nat.eqb_sym. }
    rewrite Fsel. cbn [map fst fold_left].
    unfold remove_item, tree_item; cbn [tree]. rewrite F1. cbn [option_map snd].
    rewrite Hrow. cbn [file_list]. rewrite Hc.
    unfold tree_delete, set_tree; cbn [tree]. rewrite F3.
    cbn [List.length Nat.ltb Nat.leb tree file_list set_status].
    split; reflexivity.
Qed.

Lemma doubled_slash_file_stays_listed_witness :
  exists s1,
    list_file no_sizes "/pics//a.heic" empty_window = (Return tt, s1)
    /\ tree s1 = [(1, mk_row "a.heic" "2.0 KB" "/pics")]
    /\ tree (remove_selected (Nat.eqb 1) s1) = []
    /\ file_list (remove_selected (Nat.eqb 1) s1) = ["/pics//a.heic"].
Proof.
  eexists. split; [vm_compute; reflexivity|]. split; [reflexivity|].
  refine (proj2 (doubled_slash_file_stays_listed
                   no_sizes "/pics" "a.heic" empty_window _ _ _ _ _ _ eq_refl)).
  - discriminate.
  - reflexivity.
  - reflexivity.
  - split; constructor.
  - intros [].
Defined.

(** *** The size column *)

Lemma tenths_spec n d :
  (0 < d)%N ->
  (2 * d * tenths n d <= 20 * n + d /\ 20 * n <= 2 * d * tenths n d + d)%N.
Proof.
  intros Hd. unfold tenths. cbv zeta.
  pose proof (N.div_mod (10 * n) d ltac:(lia)) as E.
  pose proof (N.mod_lt (10 * n) d ltac:(lia)) as L.
  set (q := (10 * n / d)%N) in *. set (r := ((10 * n) mod d)%N) in *.
  destruct (N.ltb_spec (2 * r) d); [nia|].
  destruct (N.ltb_spec d (2 * r)); [nia|].
  destruct (N.even q); nia.
Qed.

Lemma tenths_top n d t :
  (0 < d)%N -> (2 * d * t - d < 20 * n)%N -> (20 * n < 2 * d * t + d)%N ->
  tenths n d = t.
Proof.
  intros Hd H1 H2. unfold tenths. cbv zeta.
  pose proof (N.div_mod (10 * n) d ltac:(lia)) as E.
  pose proof (N.mod_lt (10 * n) d ltac:(lia)) as L.
  set (q := (10 * n / d)%N) in *. set (r := ((10 * n) mod d)%N) in *.
  destruct (N.ltb_spec (2 * r) d); [nia|].
  destruct (N.ltb_spec d (2 * r)); [nia|].
  destruct (N.even q); nia.
Qed.

(** X22. The unit of the size column is chosen before the figure is
    rounded: from 1024 bytes up to one byte below a mebibyte the column
    reads a figure between 1.0 and 1024.0 followed by [KB], and it
    reads [1024.0 KB] exactly from 1048525 bytes on; likewise
    [1024.0 MB] for the last 52428 bytes below a gibibyte. *)
Theorem size_column_can_read_1024 n :
  ((1024 <= n < 1048576)%N ->
   format_file_size n = one_decimal n 1024 ++ " KB"
   /\ (10 <= tenths n 1024 <= 10240)%N
   /\ ((1048525 <= n)%N <-> tenths n 1024 = 10240%N)
   /\ ((1048525 <= n)%N -> format_file_size n = "1024.0 KB"))
  /\ ((1073689396 <= n < 1073741824)%N -> format_file_size n = "1024.0 MB").
Proof.
  split.
  - intros [Hlo Hhi].
    assert (Hf : format_file_size n = one_decimal n 1024 ++ " KB").
    { unfold format_file_size.
      destruct (N.ltb_spec n 1024); [lia|].
      destruct (N.ltb_spec n (1024 * 1024)); [reflexivity | lia]. }
    pose proof (tenths_spec n 1024 ltac:(lia)) as [T1 T2].
    split; [exact Hf|]. split; [lia|]. split.
    + split; [intros H; apply tenths_top; lia | intros H; lia].
    + intros H. rewrite Hf. unfold one_decimal.
      rewrite (tenths_top n 1024 10240) by lia. reflexivity.
  - intros [Hlo Hhi]. unfold format_file_size.
    destruct (N.ltb_spec n 1024); [lia|].
    destruct (N.ltb_spec n (1024 * 1024)); [lia|].
    destruct (N.ltb_spec n (1024 * 1024 * 1024)); [|lia].
    unfold one_decimal.
    rewrite (tenths_top n (1024 * 1024) 10240) by lia. reflexivity.
Qed.

Lemma size_column_can_read_1024_witness :
  format_file_size 1048524 = "1023.9 KB"
  /\ format_file_size 1048525 = "1024.0 KB"
  /\ format_file_size 1048576 = "1.0 MB"
  /\ format_file_size 1073741823 = "1024.0 MB".
Proof.
  split; [vm_compute; reflexivity|]. split.
  - apply (proj1 (size_column_can_read_1024 1048525)); lia.
  - split; [vm_compute; reflexivity|].
    apply (proj2 (size_column_can_read_1024 1073741823)); lia.
Defined.

(** *** Refreshing the list *)

Lemma app_last_inj a : forall b c c',
  a ++ String c "" = b ++ String c' "" -> c = c'.
Proof.
  induction a as [|x a IH]; intros [|y b] c c' H.
  - inversion H. reflexivity.
  - change (String c "" = String y (b ++ String c' "")) in H.
    inversion H. destruct b; discriminate.
  - change (String x (a ++ String c "") = String c' "") in H.
    inversion H. destruct a; discriminate.
  - change (String x (a ++ String c "") = String y (b ++ String c' "")) in H.
    inversion H. eapply IH; eauto.
Qed.

Lemma slash_free_app a b :
  slash_free (a ++ b) = slash_free a && slash_free b.
Proof.
  induction a as [|x a IH]; [reflexivity|].
  change (negb (Ascii.eqb PosixPath.sep x) && slash_free (a ++ b)
          = negb (Ascii.eqb PosixPath.sep x) && slash_free a && slash_free b).
  rewrite IH, andb_assoc. reflexivity.
Qed.

Lemma join_plain_dir d n :
  plain_dir d -> entry_name_ok n = true ->
  PosixPath.join d n = d ++ "/" ++ n /\ plain_dir (PosixPath.join d n)
  /\ rejoins (PosixPath.join d n).
Proof.
  intros [Hd He] Hn. unfold entry_name_ok in Hn.
  apply andb_true_iff in Hn. destruct Hn as [Ht Hs].
  rewrite (join_plain d n Hd He Hs).
  split; [reflexivity|]. split; [|apply rejoins_plain; assumption].
  split; [destruct d; [congruence | discriminate]|].
  destruct (PyStr.endswith (d ++ "/" ++ n) "/") eqn:E; [|reflexivity].
  destruct (endswith_inv _ _ E) as [pre Hpre].
  assert (Hne : n <> "") by (destruct n; [discriminate | discriminate]).
  destruct (str_last n Hne) as (n0 & c & ->).
  rewrite <- !str_app_assoc in Hpre.
  apply app_last_inj in Hpre. subst c.
  rewrite slash_free_app in Hs. apply andb_true_iff in Hs.
  destruct Hs as [_ Hs]. discriminate.
Qed.

Lemma glob_extensions_names root ls p :
  In p (Converter.glob_extensions root ls) ->
  exists name, In name (map Converter.entry_name ls)
               /\ p = PosixPath.join root name.
Proof.
  unfold Converter.glob_extensions. rewrite in_flat_map.
  intros (pat & _ & Hin). unfold Converter.glob_in in Hin.
  apply in_map_iff in Hin. destruct Hin as (name & Hp & Hin).
  exists name. split; [|symmetry; exact Hp].
  apply list_elem_of_In in Hin. apply list_elem_of_filter in Hin.
  destruct Hin as [_ Hin].
  destruct (Converter.ishidden pat).
  - apply list_elem_of_In. exact Hin.
  - apply list_elem_of_filter in Hin. destruct Hin as [_ Hin].
    apply list_elem_of_In. exact Hin.
Qed.

Lemma names_ok_entry ls name :
  forallb names_ok ls = true -> In name (map Converter.entry_name ls) ->
  entry_name_ok name = true.
Proof.
  intros H Hin. apply in_map_iff in Hin. destruct Hin as (e & <- & He).
  rewrite forallb_forall in H. specialize (H e He).
  destruct e as [n|n ch]; cbn in H; [exact H|].
  apply andb_true_iff in H. apply H.
Qed.

Lemma walk_entry_ok : forall e root,
  plain_dir root -> names_ok e = true ->
  List.Forall (fun x => plain_dir (fst x) /\ forallb names_ok (snd x) = true)
              (Converter.walk_entry root e).
Proof.
  fix IH 1. intros [n|n ch] root Hroot H.
  - constructor.
  - cbn in H. apply andb_true_iff in H. destruct H as [Hn Hch].
    destruct (join_plain_dir root n Hroot Hn) as (_ & Hsub & _).
    cbn. constructor; [split; assumption|].
    induction ch as [|c ch IHch]; [constructor|].
    cbn in Hch. apply andb_true_iff in Hch. destruct Hch as [Hc Hch].
    cbn. apply List.Forall_app. split.
    + apply IH; assumption.
    + apply IHch. exact Hch.
Qed.

(** The search only returns paths that their rows rebuild. *)
Lemma found_files_rejoin directory listing include_subdirs p :
  plain_dir directory -> forallb names_ok listing = true ->
  In p (Converter.find_heif_files directory listing include_subdirs) ->
  rejoins p.
Proof.
  intros Hd Hl Hin.
  assert (G : forall root ls,
             plain_dir root -> forallb names_ok ls = true ->
             In p (Converter.glob_extensions root ls) -> rejoins p).
  { intros root ls Hr Hls Hp.
    destruct (glob_extensions_names root ls p Hp) as (name & Hname & ->).
    apply (join_plain_dir root name Hr).
    exact (names_ok_entry ls name Hls Hname). }
  unfold Converter.find_heif_files in Hin. destruct include_subdirs.
  - apply in_flat_map in Hin. destruct Hin as ([root ls] & Hw & Hp).
    unfold Converter.walk in Hw.
    assert (Ht : PyStr.truthy directory = true).
    { destruct Hd as [Hd _]. destruct directory; [congruence | reflexivity]. }
    rewrite Ht in Hw. destruct Hw as [Hw|Hw].
    + inversion Hw; subst. exact (G _ _ Hd Hl Hp).
    + apply in_flat_map in Hw. destruct Hw as (e & He & Hw).
      rewrite forallb_forall in Hl.
      pose proof (walk_entry_ok e directory Hd (Hl e He)) as Hok.
      rewrite List.Forall_forall in Hok. destruct (Hok _ Hw) as [H1 H2].
      exact (G _ _ H1 H2 Hp).
  - exact (G _ _ Hd Hl Hin).
Qed.

(** What the loop of [refresh_file_list] does. *)
Lemma list_files_rows getsize files : forall s s',
  aligned s -> ids_ok s -> (forall p, In p files -> rejoins p) ->
  list_files getsize files s = (Return tt, s') ->
  file_list s' = (file_list s ++ files)%list /\ aligned s' /\ ids_ok s'
  /\ next_item s <= next_item s'.
Proof.
  induction files as [|p rest IH]; intros s s' Ha Hi Hr H; cbn in H.
  - inversion H; subst. rewrite app_nil_r.
    split; [reflexivity|]. split; [exact Ha|]. split; [exact Hi | lia].
  - destruct (list_file getsize p s) as [[[]|e] s1] eqn:Hl; [|discriminate].
    pose proof (list_file_list _ _ _ _ _ Hl) as Hs1.
    destruct (list_file_rows _ _ _ _ Hl) as [Hrows Hids].
    assert (Ha1 : aligned s1).
    { unfold aligned. rewrite Hrows, Hs1, Ha.
      rewrite (Hr p (or_introl eq_refl)). reflexivity. }
    assert (Hn1 : next_item s <= next_item s1).
    { destruct (list_file_cases getsize p s) as [(e & _ & E) | (sz & _ & E)];
        rewrite E in Hl; inversion Hl; subst; cbn; lia. }
    destruct (IH s1 s' Ha1 (Hids Hi)
                 (fun q Hq => Hr q (or_intror Hq)) H) as (I1 & I2 & I3 & I4).
    rewrite I1, Hs1, <- app_assoc.
    split; [reflexivity|]. split; [exact I2|]. split; [exact I3 | lia].
Qed.

(** X23. A refresh that goes through replaces the list by what the
    search finds in the input directory, for a directory written
    without a slash at its end and, like its subdirectories, without a
    character that [glob.glob] reads as a pattern: the files listed are
    exactly the files found, in the order found, whatever was listed
    before; the rows stand for these files one by one, and every row is
    new: its identifier is none that Tk had given out before the
    call. *)
Theorem refresh_shows_what_is_found
        getsize w listing input_dir include_subdirs s s' :
  plain_dir input_dir -> literal_dir input_dir = true ->
  forallb names_ok listing = true -> forallb literal_dirs listing = true ->
  Converter.isdir w input_dir = true ->
  refresh_file_list getsize w listing input_dir include_subdirs s
  = (Return tt, s') ->
  file_list s' = Converter.find_heif_files input_dir listing include_subdirs
  /\ aligned s' /\ ids_ok s'
  /\ List.Forall (fun x => next_item s <= fst x) (tree s').
Proof.
  intros Hd _ Hl _ Hdir H. unfold refresh_file_list in H.
  assert (Ht : PyStr.truthy input_dir = true).
  { destruct Hd as [Hd _]. destruct input_dir; [congruence | reflexivity]. }
  rewrite Ht, Hdir in H. cbn [negb orb] in H.
  pose proof (found_files_rejoin input_dir listing include_subdirs) as Hrej.
  destruct (Converter.find_heif_files input_dir listing include_subdirs)
    as [|f found] eqn:Hfound.
  - inversion H; subst s'; clear H. cbn.
    split; [reflexivity|]. split; [reflexivity|].
    split; [split; constructor | constructor].
  - set (s0 := set_file_list [] (set_tree [] s)) in H.
    destruct (list_files getsize (f :: found) s0) as [[[]|e] s1] eqn:Hlist;
      [|discriminate].
    inversion H; subst s'; clear H.
    assert (Ha0 : aligned s0) by reflexivity.
    assert (Hi0 : ids_ok s0) by (split; constructor).
    destruct (list_files_rows getsize (f :: found) s0 s1 Ha0 Hi0
                (fun p Hp => Hrej p Hd Hl Hp) Hlist) as (I1 & I2 & I3 & I4).
    unfold aligned, rows_files, ids_ok in *.
    cbn [tree file_list next_item set_status CustomNotification logger].
    split; [exact I1|]. split; [exact I2|]. split; [exact I3|].
    clear -Hlist. revert Hlist.
    assert (G : forall files s0 s1,
               list_files getsize files s0 = (Return tt, s1) ->
               List.Forall (fun x => next_item s <= fst x) (tree s0) ->
               next_item s <= next_item s0 ->
               List.Forall (fun x => next_item s <= fst x) (tree s1)).
    { clear. induction files as [|p rest IH]; intros s0 s1 H Hf Hn; cbn in H.
      - inversion H; subst. exact Hf.
      - destruct (list_file_cases getsize p s0) as [(e & _ & E) | (sz & _ & E)];
          rewrite E in H; [discriminate|].
        apply (IH _ _ H); cbn; [|lia].
        apply List.Forall_app. split; [exact Hf|].
        constructor; [cbn; lia | constructor]. }
    intros Hlist. apply (G _ _ _ Hlist); [constructor | cbn; lia].
Qed.

Lemma refresh_shows_what_is_found_witness :
  exists s',
    refresh_file_list sizes_2k Samples.sample_world Samples.photo_dir "/data"
                      true three_rows = (Return tt, s')
    /\ file_list s'
       = ["/data/IMG_0002.heic"; "/data/IMG_0003.HEIC"; "/data/trip/IMG_0005.hif"]
    /\ map fst (tree s') = [4; 5; 6]
    /\ aligned s'.
Proof.
  eexists. split; [vm_compute; reflexivity|]. split; [reflexivity|].
  split; [reflexivity|].
  refine (proj1 (proj2 (refresh_shows_what_is_found
                          sizes_2k Samples.sample_world Samples.photo_dir "/data"
                          true three_rows _ _ _ _ _ _ eq_refl))).
  - split; [discriminate | reflexivity].
  - reflexivity.
  - reflexivity.
  - reflexivity.
  - reflexivity.
Defined.

End FileListFacts.
